(** * Zhupani family-tree platform: relationship graph and family permissions

    A shallow embedding of the server's relationship, person and family route
    handlers ([routes/relationships.ts], [routes/persons.ts],
    [routes/families.ts]) together with the MySQL schema they run against
    ([database/setup.ts]).

    Tables are lists of rows in insertion order, a SQL query is a list
    comprehension over them, and a handler is a function from the database
    (and the authenticated user) to either a thrown error or a response.
    The [created_at]/[updated_at] columns are left out: no query modelled
    here reads them. *)

From Stdlib Require Import ZArith DecimalString.
From stdpp Require Import prelude strings sorting.

Local Open Scope Z_scope.
Local Open Scope string_scope.

(** ** Column types *)

(** A MySQL [DATE], as its day number: only the chronological order of dates
    is observed. *)
Definition date := Z.

Module UserRole.
Inductive t := admin | family_member | visitor.
#[global] Instance eq_dec : EqDecision t.
Proof. solve_decision. Defined.
End UserRole.

Module PermissionLevel.
Inductive t := view | edit | admin.
#[global] Instance eq_dec : EqDecision t.
Proof. solve_decision. Defined.
End PermissionLevel.

Module Gender.
Inductive t := male | female | other.
#[global] Instance eq_dec : EqDecision t.
Proof. solve_decision. Defined.
End Gender.

Module RelationshipType.
Inductive t := parent_child | spouse | sibling.
#[global] Instance eq_dec : EqDecision t.
Proof. solve_decision. Defined.
End RelationshipType.

Module RelationshipSubtype.
Inductive t :=
  mother | father | husband | wife | ex_husband | ex_wife | brother | sister.
#[global] Instance eq_dec : EqDecision t.
Proof. solve_decision. Defined.
End RelationshipSubtype.

(** ** Rows *)

Module User.
Record t := mk {
  id : Z;
  email : string;
  first_name : string;
  last_name : string;
  role : UserRole.t;
  is_active : bool;
}.
End User.

Module Family.
Record t := mk {
  id : Z;
  name : string;
  description : option string;
  is_public : bool;
  created_by : option Z;
}.
End Family.

Module Person.
Record t := mk {
  id : Z;
  first_name : string;
  last_name : string;
  maiden_name : option string;
  gender : Gender.t;
  birth_date : option date;
  death_date : option date;
  birth_place : option string;
  death_place : option string;
  photo_url : option string;
  biography : option string;
  is_deceased : bool;
  family_id : option Z;
  created_by : option Z;
}.
#[global] Instance eq_dec : EqDecision t.
Proof. solve_decision. Defined.
End Person.

Module Relationship.
Record t := mk {
  id : Z;
  person1_id : Z;
  person2_id : Z;
  relationship_type : RelationshipType.t;
  relationship_subtype : RelationshipSubtype.t;
  marriage_date : option date;
  divorce_date : option date;
  is_active : bool;
}.
#[global] Instance eq_dec : EqDecision t.
Proof. solve_decision. Defined.
End Relationship.

Module UserFamilyPermission.
Record t := mk {
  id : Z;
  user_id : Z;
  family_id : Z;
  permission_level : PermissionLevel.t;
}.
End UserFamilyPermission.

(** The body of [POST /api/relationships] after Joi validation
    ([createRelationshipSchema]): the schema admits every one of the eight
    subtypes with every type, which is what the two enumerations give. *)
Module CreateRelationshipRequest.
Record t := mk {
  person1_id : Z;
  person2_id : Z;
  relationship_type : RelationshipType.t;
  relationship_subtype : RelationshipSubtype.t;
  marriage_date : option date;
  divorce_date : option date;
}.
End CreateRelationshipRequest.

(** ** The database *)

Record DB := mkDB {
  users : list User.t;
  families : list Family.t;
  persons : list Person.t;
  relationships : list Relationship.t;
  relationships_auto_increment : Z;
  user_family_permissions : list UserFamilyPermission.t;
}.

(** ** Errors ([middleware/errorHandler.ts]) *)

(** What a handler can throw: an [AppError] with its message and status code,
    an error raised by MySQL (named by its code), or the [TypeError] of a
    property read on [undefined] or of a call of [undefined]. *)
Inductive Error :=
  | AppError (message : string) (statusCode : Z)
  | MySqlError (code : string)
  | TypeError.

#[global] Instance Error_eq_dec : EqDecision Error.
Proof. solve_decision. Defined.

Definition createValidationError (field message : string) : Error :=
  AppError ("Validation error: " ++ field ++ " - " ++ message) 400.

Definition createNotFoundError (resource : string) : Error :=
  AppError (resource ++ " not found") 404.

Definition createForbiddenError (message : string) : Error :=
  AppError message 403.

Inductive Result (A : Type) :=
  | Ok (a : A)
  | Throw (e : Error).
Arguments Ok {A} a.
Arguments Throw {A} e.

#[global] Instance Result_ret : MRet Result := @Ok.
#[global] Instance Result_bind : MBind Result := λ A B f m,
  match m with
  | Ok a => f a
  | Throw e => Throw e
  end.

Definition is_Ok {A} (r : Result A) : bool :=
  match r with Ok _ => true | Throw _ => false end.

(** JavaScript truthiness of a nullable numeric column ([if (p.family_id)]). *)
Definition truthy (v : option Z) : option Z :=
  match v with
  | Some n => if decide (n = 0) then None else Some n
  | None => None
  end.

(** [if (!req.user) throw createForbiddenError('Authentication required')] *)
Definition requireUser (user : option User.t) : Result User.t :=
  match user with
  | Some u => Ok u
  | None => Throw (createForbiddenError "Authentication required")
  end.

(** ** Family Permission Resolver ([routes/families.ts]) *)

(** [const permissionLevels = { view: 1, edit: 2, admin: 3 }] *)
Definition permissionLevels (l : PermissionLevel.t) : Z :=
  match l with
  | PermissionLevel.view => 1
  | PermissionLevel.edit => 2
  | PermissionLevel.admin => 3
  end.

(** [SELECT permission_level FROM user_family_permissions
     WHERE user_id = ? AND family_id = ?] *)
Definition select_permission_level (db : DB) (userId familyId : Z)
    : list PermissionLevel.t :=
  UserFamilyPermission.permission_level <$>
    filter (λ r, UserFamilyPermission.user_id r = userId
               ∧ UserFamilyPermission.family_id r = familyId)
           (user_family_permissions db).

Definition checkFamilyPermission (db : DB) (userId familyId : Z)
    (requiredLevel : PermissionLevel.t) : bool :=
  match select_permission_level db userId familyId with
  | [] => false
  | granted :: _ =>
      let userLevel := permissionLevels granted in
      let requiredLevelNum := permissionLevels requiredLevel in
      bool_decide (userLevel >= requiredLevelNum)
  end.

(** The decision every protected route takes around the resolver,
    [if (req.user.role !== 'admin') { hasAccess = await
    checkFamilyPermission(req.user.id, familyId, level); ... }]: a global
    admin is let through without consulting the grants, anybody else is
    resolved by [checkFamilyPermission]. *)
Definition hasPermission (db : DB) (actorId : Z) (actorRole : UserRole.t)
    (familyId : Z) (requiredLevel : PermissionLevel.t) : bool :=
  if decide (actorRole = UserRole.admin) then true
  else checkFamilyPermission db actorId familyId requiredLevel.

(** [SELECT f.* FROM families f WHERE f.id = ?] (the joined display columns
    [created_by_name] and [member_count] are not modelled). *)
Definition select_family (db : DB) (familyId : Z) : list Family.t :=
  filter (λ f, Family.id f = familyId) (families db).

(** ** The resolver as the other route files see it *)

(** [routes/relationships.ts] and [routes/persons.ts] both
    [import { checkFamilyPermission } from './families'], but [families.ts]
    declares the helper as a module-local [const] and exports nothing but
    its router ([export default router]).  In those two files the imported
    binding is therefore [undefined]: a call of it throws a [TypeError] and
    never consults the grants.  Inside [families.ts] the helper itself,
    [checkFamilyPermission] above, is in scope. *)
Definition imported_checkFamilyPermission (db : DB) (userId familyId : Z)
    (requiredLevel : PermissionLevel.t) : Result bool :=
  Throw TypeError.

(** ** Generic query plumbing *)

(** [l INNER JOIN r ON on]: the pairs of rows that satisfy the join
    condition. *)
Definition inner_join {A B} (l : list A) (r : list B) (on : A * B → Prop)
    `{!∀ x, Decision (on x)} : list (A * B) :=
  filter on (cprod l r).

(** [rows[0]], which is [undefined] on an empty result. *)
Definition nth0 {A} (rows : list A) : option A := head rows.

(** [Array.prototype.find] *)
Definition find {A} (P : A → Prop) `{!∀ a, Decision (P a)} (l : list A)
    : option A :=
  head (filter P l).

(** [[...new Set(l)]]: first occurrences, in order. *)
Definition set_values `{EqDecision A} (l : list A) : list A :=
  reverse (remove_dups (reverse l)).

Definition string_of_nat (n : nat) : string :=
  NilZero.string_of_uint (Nat.to_uint n).

Definition string_of_Z (z : Z) : string :=
  NilZero.string_of_int (Z.to_int z).

(** The collation of the text columns.  The schema declares
    [utf8mb4_unicode_ci]; the queries only rely on it being a decidable total
    preorder, so it is kept abstract. *)
Class Collation := {
  collate_le : relation string;
  collate_le_dec :: RelDecision collate_le;
  collate_le_total :: Total collate_le;
  collate_le_trans :: Transitive collate_le;
}.

(** MySQL's ascending order on a nullable [DATE] column: [NULL] sorts before
    every date. *)
Definition date_asc_lt (a b : option date) : Prop :=
  match a, b with
  | None, Some _ => True
  | Some x, Some y => x < y
  | _, None => False
  end.

#[global] Instance date_asc_lt_dec : RelDecision date_asc_lt.
Proof. intros [x|] [y|]; simpl; apply _. Defined.

(** ** Relationship Graph Engine: derived views ([routes/persons.ts]) *)

Section Derive.
Context `{Collation}.

Definition is_father (r : Relationship.t) : bool :=
  bool_decide (Relationship.relationship_subtype r = RelationshipSubtype.father).

(** [ORDER BY r.relationship_subtype = 'father' DESC, p.first_name] *)
Definition parents_order (x y : Person.t * Relationship.t) : Prop :=
  (is_father x.2 = true ∧ is_father y.2 = false)
  ∨ (is_father x.2 = is_father y.2
     ∧ collate_le (Person.first_name x.1) (Person.first_name y.1)).

(** [ORDER BY p.birth_date, p.first_name] *)
Definition birth_order (p q : Person.t) : Prop :=
  date_asc_lt (Person.birth_date p) (Person.birth_date q)
  ∨ (Person.birth_date p = Person.birth_date q
     ∧ collate_le (Person.first_name p) (Person.first_name q)).

(** [ORDER BY r.marriage_date, p.first_name] *)
Definition marriage_order (x y : Person.t * Relationship.t) : Prop :=
  date_asc_lt (Relationship.marriage_date x.2) (Relationship.marriage_date y.2)
  ∨ (Relationship.marriage_date x.2 = Relationship.marriage_date y.2
     ∧ collate_le (Person.first_name x.1) (Person.first_name y.1)).

#[global] Instance parents_order_dec : RelDecision parents_order.
Proof. intros x y; unfold parents_order; apply _. Defined.
#[global] Instance birth_order_dec : RelDecision birth_order.
Proof. intros x y; unfold birth_order; apply _. Defined.
#[global] Instance marriage_order_dec : RelDecision marriage_order.
Proof. intros x y; unfold marriage_order; apply _. Defined.

(** [SELECT p.* FROM persons p
     INNER JOIN relationships r ON p.id = r.person1_id
     WHERE r.person2_id = ? AND r.relationship_type = 'parent_child'
     ORDER BY r.relationship_subtype = 'father' DESC, p.first_name] *)
Definition deriveParents (db : DB) (personId : Z) : list Person.t :=
  fst <$> merge_sort parents_order
    (filter (λ '(p, r), Relationship.person2_id r = personId
               ∧ Relationship.relationship_type r = RelationshipType.parent_child)
       (inner_join (persons db) (relationships db)
          (λ '(p, r), Person.id p = Relationship.person1_id r))).

(** [SELECT p.* FROM persons p
     INNER JOIN relationships r ON p.id = r.person2_id
     WHERE r.person1_id = ? AND r.relationship_type = 'parent_child'
     ORDER BY p.birth_date, p.first_name] *)
Definition deriveChildren (db : DB) (personId : Z) : list Person.t :=
  merge_sort birth_order
    (fst <$>
       filter (λ '(p, r), Relationship.person1_id r = personId
                  ∧ Relationship.relationship_type r = RelationshipType.parent_child)
         (inner_join (persons db) (relationships db)
            (λ '(p, r), Person.id p = Relationship.person2_id r))).

(** A row of the spouses query: [p.*] extended with three columns of the
    edge. *)
Record SpouseRow := mkSpouseRow {
  spouse : Person.t;
  spouse_relationship_subtype : RelationshipSubtype.t;
  spouse_marriage_date : option date;
  spouse_divorce_date : option date;
}.

(** [SELECT p.*, r.relationship_subtype, r.marriage_date, r.divorce_date
     FROM persons p
     INNER JOIN relationships r ON (p.id = r.person1_id OR p.id = r.person2_id)
     WHERE (r.person1_id = ? OR r.person2_id = ?)
     AND r.relationship_type = 'spouse'
     AND p.id != ?
     ORDER BY r.marriage_date, p.first_name] *)
Definition deriveSpouses (db : DB) (personId : Z) : list SpouseRow :=
  (λ '(p, r), mkSpouseRow p (Relationship.relationship_subtype r)
                (Relationship.marriage_date r) (Relationship.divorce_date r)) <$>
    merge_sort marriage_order
      (filter (λ '(p, r), (Relationship.person1_id r = personId
                           ∨ Relationship.person2_id r = personId)
                  ∧ Relationship.relationship_type r = RelationshipType.spouse
                  ∧ Person.id p ≠ personId)
         (inner_join (persons db) (relationships db)
            (λ '(p, r), Person.id p = Relationship.person1_id r
                      ∨ Person.id p = Relationship.person2_id r))).

(** [SELECT DISTINCT p.* FROM persons p
     INNER JOIN relationships r1 ON p.id = r1.person2_id
     INNER JOIN relationships r2 ON r1.person1_id = r2.person1_id
     WHERE r2.person2_id = ?
     AND r1.relationship_type = 'parent_child'
     AND r2.relationship_type = 'parent_child'
     AND p.id != ?
     ORDER BY p.birth_date, p.first_name] *)
Definition deriveSiblings (db : DB) (personId : Z) : list Person.t :=
  merge_sort birth_order
    (remove_dups
       ((λ '(p, r1, r2), p) <$>
          filter (λ '(p, r1, r2), Relationship.person2_id r2 = personId
                     ∧ Relationship.relationship_type r1 = RelationshipType.parent_child
                     ∧ Relationship.relationship_type r2 = RelationshipType.parent_child
                     ∧ Person.id p ≠ personId)
            (inner_join
               (inner_join (persons db) (relationships db)
                  (λ '(p, r1), Person.id p = Relationship.person2_id r1))
               (relationships db)
               (λ '(p, r1, r2), Relationship.person1_id r1
                                = Relationship.person1_id r2)))).
End Derive.

(** ** Relationship Graph Engine: edge creation ([routes/relationships.ts]) *)

(** What [res.json] is given: an object with named fields. *)
Record RelationshipRow := mkRelationshipRow {
  relationship : Relationship.t;
  person1_first_name : string;
  person1_last_name : string;
  person2_first_name : string;
  person2_last_name : string;
}.

Inductive JsValue :=
  | JsUndefined
  | JsNumber (n : Z)
  | JsString (s : string)
  | JsRelationship (row : RelationshipRow)
  | JsRelationships (rows : list (option RelationshipRow)).

(** A row that may be [undefined], as a value. *)
Definition of_row (row : option RelationshipRow) : JsValue :=
  match row with
  | Some r => JsRelationship r
  | None => JsUndefined
  end.

Record Response := mkResponse {
  status : Z;
  body : list (string * JsValue);
}.

(** Field access [obj.key] on a response body. *)
Definition field (key : string) (obj : list (string * JsValue))
    : option JsValue :=
  snd <$> find (λ kv, kv.1 = key) obj.

(** [SELECT id, family_id FROM persons WHERE id IN (...)] *)
Definition select_persons_in (db : DB) (ids : list Z) : list (Z * option Z) :=
  (λ p, (Person.id p, Person.family_id p)) <$>
    filter (λ p, Person.id p ∈ ids) (persons db).

(** [SELECT * FROM relationships
     WHERE person1_id = ? AND person2_id = ? AND relationship_type = ?] *)
Definition select_existing (db : DB) (person1_id person2_id : Z)
    (relationship_type : RelationshipType.t) : list Relationship.t :=
  filter (λ r, Relationship.person1_id r = person1_id
             ∧ Relationship.person2_id r = person2_id
             ∧ Relationship.relationship_type r = relationship_type)
         (relationships db).

(** [SELECT r.*, p1.first_name as person1_first_name, ...
     FROM relationships r
     INNER JOIN persons p1 ON r.person1_id = p1.id
     INNER JOIN persons p2 ON r.person2_id = p2.id
     WHERE r.id = ?] *)
Definition select_relationship_row (db : DB) (id : Z) : list RelationshipRow :=
  (λ '(r, p1, p2), mkRelationshipRow r
      (Person.first_name p1) (Person.last_name p1)
      (Person.first_name p2) (Person.last_name p2)) <$>
    filter (λ '(r, p1, p2), Relationship.id r = id)
      (inner_join
         (inner_join (relationships db) (persons db)
            (λ '(r, p1), Relationship.person1_id r = Person.id p1))
         (persons db)
         (λ '(r, p1, p2), Relationship.person2_id r = Person.id p2)).

(** [INSERT INTO relationships (person1_id, person2_id, relationship_type,
     relationship_subtype, marriage_date, divorce_date) VALUES (...)] under the
    table's constraints: [UNIQUE KEY unique_relationship (person1_id,
    person2_id, relationship_type)], the two foreign keys into [persons],
    [id AUTO_INCREMENT] and [is_active DEFAULT TRUE].  Returns the new
    database and [insertId]. *)
Definition insert_relationship (db : DB) (rel : CreateRelationshipRequest.t)
    : Result (DB * Z) :=
  let p1 := CreateRelationshipRequest.person1_id rel in
  let p2 := CreateRelationshipRequest.person2_id rel in
  let ty := CreateRelationshipRequest.relationship_type rel in
  if decide (select_existing db p1 p2 ty ≠ []) then
    Throw (MySqlError "ER_DUP_ENTRY")
  else if decide (p1 ∈ Person.id <$> persons db ∧ p2 ∈ Person.id <$> persons db) then
    let insertId := relationships_auto_increment db in
    let row :=
      Relationship.mk insertId p1 p2 ty
        (CreateRelationshipRequest.relationship_subtype rel)
        (CreateRelationshipRequest.marriage_date rel)
        (CreateRelationshipRequest.divorce_date rel)
        true in
    Ok (mkDB (users db) (families db) (persons db)
          (relationships db ++ [row]) (insertId + 1)
          (user_family_permissions db),
        insertId)
  else Throw (MySqlError "ER_NO_REFERENCED_ROW_2").

(** The "Validate relationship logic" block of the single-create handler. *)
Definition validate_relationship_logic
    (relationship_type : RelationshipType.t)
    (relationship_subtype : RelationshipSubtype.t) : Result unit :=
  match relationship_type with
  | RelationshipType.parent_child =>
      if decide (relationship_subtype ≠ RelationshipSubtype.mother
                 ∧ relationship_subtype ≠ RelationshipSubtype.father)
      then Throw (createValidationError "relationship_subtype"
                    "Parent-child relationships must be mother or father")
      else Ok ()
  | RelationshipType.spouse =>
      if decide (relationship_subtype ∉
                   [RelationshipSubtype.husband; RelationshipSubtype.wife;
                    RelationshipSubtype.ex_husband; RelationshipSubtype.ex_wife])
      then Throw (createValidationError "relationship_subtype"
                    "Spouse relationships must be husband, wife, ex_husband, or ex_wife")
      else Ok ()
  | RelationshipType.sibling =>
      if decide (relationship_subtype ≠ RelationshipSubtype.brother
                 ∧ relationship_subtype ≠ RelationshipSubtype.sister)
      then Throw (createValidationError "relationship_subtype"
                    "Sibling relationships must be brother or sister")
      else Ok ()
  end.

(** [if (person.family_id) { const hasEditAccess = await
     checkFamilyPermission(req.user.id, person.family_id, 'edit');
     if (!hasEditAccess) throw createForbiddenError(message) }] where
    [person] may be [undefined] and [checkFamilyPermission] is the imported
    binding. *)
Definition check_edit_access (db : DB) (u : User.t)
    (person : option (Z * option Z)) (message : string) : Result unit :=
  match person with
  | None => Throw TypeError
  | Some (_, family_id) =>
      match truthy family_id with
      | Some f =>
          hasEditAccess ←
            imported_checkFamilyPermission db (User.id u) f PermissionLevel.edit;
          if negb hasEditAccess then Throw (createForbiddenError message)
          else Ok ()
      | None => Ok ()
      end
  end.

(** The "Check permissions" block of the single-create handler. *)
Definition check_permissions (db : DB) (u : User.t)
    (person1 person2 : option (Z * option Z)) : Result unit :=
  if decide (User.role u ≠ UserRole.admin) then
    _ ← check_edit_access db u person1
          "Edit access required to person 1 family";
    check_edit_access db u person2
      "Edit access required to person 2 family"
  else Ok ().

(** [router.post('/')]: create a new relationship, [value] being the body
    as validated by [createRelationshipSchema]. *)
Definition createEdge (db : DB) (user : option User.t)
    (value : CreateRelationshipRequest.t) : Result (DB * Response) :=
  u ← requireUser user;
  let person1_id := CreateRelationshipRequest.person1_id value in
  let person2_id := CreateRelationshipRequest.person2_id value in
  let relationship_type := CreateRelationshipRequest.relationship_type value in
  let relationship_subtype := CreateRelationshipRequest.relationship_subtype value in
  let persons := select_persons_in db [person1_id; person2_id] in
  if decide (length persons ≠ 2%nat) then
    Throw (createNotFoundError "One or both persons not found")
  else
    let person1 := find (λ p, p.1 = person1_id) persons in
    let person2 := find (λ p, p.1 = person2_id) persons in
    _ ← check_permissions db u person1 person2;
    let existingRelationships :=
      select_existing db person1_id person2_id relationship_type in
    if decide (0 < length existingRelationships)%nat then
      Throw (createValidationError "relationship"
               "This relationship already exists")
    else
      _ ← validate_relationship_logic relationship_type relationship_subtype;
      '(db', insertId) ← insert_relationship db value;
      let createdRelationships := select_relationship_row db' insertId in
      Ok (db', mkResponse 201
                 [("relationship", of_row (nth0 createdRelationships))]).

(** The permission loop of the bulk handler. *)
Fixpoint bulk_check_edit_access (db : DB) (u : User.t)
    (persons : list (Z * option Z)) : Result unit :=
  match persons with
  | [] => Ok ()
  | person :: rest =>
      _ ← check_edit_access db u (Some person)
            ("Edit access required to family of person " ++ string_of_Z person.1);
      bulk_check_edit_access db u rest
  end.

(** The "Check permissions" block of the bulk handler. *)
Definition bulk_check_permissions (db : DB) (u : User.t)
    (persons : list (Z * option Z)) : Result unit :=
  if decide (User.role u ≠ UserRole.admin)
  then bulk_check_edit_access db u persons else Ok ().

(** The insertion loop of the bulk handler, threading the database and the
    [createdRelationships] array. *)
Fixpoint bulk_insert (db : DB) (rels : list CreateRelationshipRequest.t)
    (createdRelationships : list (option RelationshipRow))
    : Result (DB * list (option RelationshipRow)) :=
  match rels with
  | [] => Ok (db, createdRelationships)
  | rel :: rest =>
      let existing :=
        select_existing db (CreateRelationshipRequest.person1_id rel)
          (CreateRelationshipRequest.person2_id rel)
          (CreateRelationshipRequest.relationship_type rel) in
      if decide (length existing = 0%nat) then
        match insert_relationship db rel with
        | Ok (db', insertId) =>
            let created := select_relationship_row db' insertId in
            bulk_insert db' rest (createdRelationships ++ [nth0 created])
        | Throw e => Throw e
        end
      else bulk_insert db rest createdRelationships
  end.

(** [router.post('/bulk')]: create multiple relationships at once.  Its
    "Validate all relationships" loop runs [createRelationshipSchema] on
    every item and keeps the verdict only: the converted value is dropped
    and the raw items of the body are used from then on.  The request type
    stands for items that carry their fields in validated form already (ids
    as JSON numbers), for which the raw and the converted item coincide; a
    batch that names a person by a numeric string is outside this model.
    Nothing else is checked per item before the insertion loop. *)
Definition createBulkEdges (db : DB) (user : option User.t)
    (relationships : list CreateRelationshipRequest.t) : Result (DB * Response) :=
  u ← requireUser user;
  if decide (length relationships = 0%nat) then
    Throw (createValidationError "relationships" "Relationships array is required")
  else
    let personIds :=
      set_values
        (relationships ≫= λ r, [CreateRelationshipRequest.person1_id r;
                                CreateRelationshipRequest.person2_id r]) in
    let persons := select_persons_in db personIds in
    if decide (length persons ≠ length personIds) then
      Throw (createNotFoundError "One or more persons not found")
    else
      _ ← bulk_check_permissions db u persons;
      '(db', createdRelationships) ← bulk_insert db relationships [];
      Ok (db', mkResponse 201
                 [("relationships", JsRelationships createdRelationships);
                  ("message", JsString ("Created "
                     ++ string_of_nat (length createdRelationships)
                     ++ " new relationships"))]).

(** ** Family read access ([router.get('/:id')] of [routes/families.ts]) *)

(** The handler up to and including its permission check, with [familyId]
    already parsed from the path; it answers with the family row (the member
    list it then joins in is not modelled). *)
Definition getFamilyById (db : DB) (user : option User.t) (familyId : Z)
    : Result Family.t :=
  u ← requireUser user;
  match select_family db familyId with
  | [] => Throw (createNotFoundError "Family")
  | family :: _ =>
      if decide (User.role u ≠ UserRole.admin) then
        let hasAccess :=
          checkFamilyPermission db (User.id u) familyId PermissionLevel.view in
        if negb hasAccess && negb (Family.is_public family) then
          Throw (createForbiddenError "Access denied to this family")
        else Ok family
      else Ok family
  end.

(** ** The error kinds of the specification *)

Definition NotFound (e : Error) : Prop :=
  ∃ resource, e = createNotFoundError resource.

Definition InvalidSubtype (e : Error) : Prop :=
  ∃ message, e = createValidationError "relationship_subtype" message.

Definition DuplicateRelationship (e : Error) : Prop :=
  e = createValidationError "relationship" "This relationship already exists".

(** ** Schema constraints as database invariants ([database/setup.ts]) *)

(** [persons.id] is a primary key. *)
Definition persons_pk (db : DB) : Prop := NoDup (Person.id <$> persons db).

(** [UNIQUE KEY unique_relationship (person1_id, person2_id,
     relationship_type)] *)
Definition edge_key (r : Relationship.t) : Z * Z * RelationshipType.t :=
  (Relationship.person1_id r, Relationship.person2_id r,
   Relationship.relationship_type r).

Definition unique_relationship (db : DB) : Prop :=
  NoDup (edge_key <$> relationships db).

(** The two foreign keys of [relationships] into [persons]. *)
Definition relationships_fk (db : DB) : Prop :=
  Forall (λ r, Relationship.person1_id r ∈ Person.id <$> persons db
             ∧ Relationship.person2_id r ∈ Person.id <$> persons db)
         (relationships db).

Definition request_key (rel : CreateRelationshipRequest.t)
    : Z * Z * RelationshipType.t :=
  (CreateRelationshipRequest.person1_id rel,
   CreateRelationshipRequest.person2_id rel,
   CreateRelationshipRequest.relationship_type rel).

(** The ordered triples a batch adds to the stored ones [seen]: those, in
    batch order, that are neither stored beforehand nor requested earlier in
    the batch. *)
Fixpoint fresh_keys (seen keys : list (Z * Z * RelationshipType.t))
    : list (Z * Z * RelationshipType.t) :=
  match keys with
  | [] => []
  | k :: rest =>
      if decide (k ∈ seen) then fresh_keys seen rest
      else k :: fresh_keys (seen ++ [k]) rest
  end.

(** The requests a batch adds to the stored triples [seen]: those, in batch
    order, whose ordered triple is neither stored beforehand nor requested
    earlier in the batch. *)
Fixpoint fresh_requests (seen : list (Z * Z * RelationshipType.t))
    (rels : list CreateRelationshipRequest.t)
    : list CreateRelationshipRequest.t :=
  match rels with
  | [] => []
  | rel :: rest =>
      if decide (request_key rel ∈ seen) then fresh_requests seen rest
      else rel :: fresh_requests (seen ++ [request_key rel]) rest
  end.

(** The row the [INSERT] of the create routes stores for a request under a
    given id: the six columns of the request and [is_active DEFAULT TRUE]. *)
Definition stored_edge (id : Z) (rel : CreateRelationshipRequest.t)
    : Relationship.t :=
  Relationship.mk id
    (CreateRelationshipRequest.person1_id rel)
    (CreateRelationshipRequest.person2_id rel)
    (CreateRelationshipRequest.relationship_type rel)
    (CreateRelationshipRequest.relationship_subtype rel)
    (CreateRelationshipRequest.marriage_date rel)
    (CreateRelationshipRequest.divorce_date rel) true.

(** The rows stored for requests inserted one after the other, the first
    under [id]. *)
Fixpoint stored_edges (id : Z) (rels : list CreateRelationshipRequest.t)
    : list Relationship.t :=
  match rels with
  | [] => []
  | rel :: rest => stored_edge id rel :: stored_edges (id + 1) rest
  end.

(** A created row as the bulk create reports it: the stored edge with the
    names of two stored persons carrying its endpoints' ids. *)
Definition reported_as (db : DB) (created : option RelationshipRow)
    (r : Relationship.t) : Prop :=
  ∃ pa pb,
    pa ∈ persons db ∧ Person.id pa = Relationship.person1_id r
    ∧ pb ∈ persons db ∧ Person.id pb = Relationship.person2_id r
    ∧ created = Some (mkRelationshipRow r
                        (Person.first_name pa) (Person.last_name pa)
                        (Person.first_name pb) (Person.last_name pb)).

(** The unordered reading of the uniqueness invariant: no two stored edges
    of one type connect the same two persons, in either direction. *)
Definition unordered_key (r : Relationship.t) : Z * Z * RelationshipType.t :=
  (Z.min (Relationship.person1_id r) (Relationship.person2_id r),
   Z.max (Relationship.person1_id r) (Relationship.person2_id r),
   Relationship.relationship_type r).

Definition unique_unordered (db : DB) : Prop :=
  NoDup (unordered_key <$> relationships db).

(** ** A concrete collation and a sample database *)

(** The byte-wise (binary) collation, used to run the queries on sample
    data. *)
#[global] Instance binary_collation : Collation.
Proof.
  refine {| collate_le := λ s t, String.leb s t = true |}.
  - intros s t. apply _.
  - intros s t. apply String.leb_total.
  - assert (Hasc : ∀ a b c, Ascii.compare a b ≠ Gt → Ascii.compare b c ≠ Gt →
              Ascii.compare a c ≠ Gt
              ∧ (Ascii.compare a c = Eq →
                 Ascii.compare a b = Eq ∧ Ascii.compare b c = Eq)).
    { unfold Ascii.compare. intros a b c.
      rewrite !N.compare_gt_iff, !N.compare_eq_iff. lia. }
    assert (Hstr : ∀ s t u, String.compare s t ≠ Gt → String.compare t u ≠ Gt →
              String.compare s u ≠ Gt).
    { induction s as [|a s IH]; intros [|b t] [|c u]; simpl; try done.
      intros Hst Htu. destruct (Hasc a b c) as [Hac Heq].
      - by destruct (Ascii.compare a b).
      - by destruct (Ascii.compare b c).
      - destruct (Ascii.compare a c) eqn:Eac; [|done..].
        destruct Heq as [Eab Ebc]; [done|].
        rewrite Eab in Hst. rewrite Ebc in Htu. by apply (IH t u). }
    intros s t u. unfold String.leb. intros Hst Htu.
    specialize (Hstr s t u).
    destruct (String.compare s t), (String.compare t u), (String.compare s u);
      try done; by exfalso; apply Hstr.
Defined.

Definition person (id : Z) (first_name last_name : string) (gender : Gender.t)
    (birth_date : option date) (family_id : option Z) : Person.t :=
  Person.mk id first_name last_name None gender birth_date None None None None
    None false family_id None.

Definition edge (id person1_id person2_id : Z) (ty : RelationshipType.t)
    (sub : RelationshipSubtype.t) : Relationship.t :=
  Relationship.mk id person1_id person2_id ty sub None None true.

Definition request (person1_id person2_id : Z) (ty : RelationshipType.t)
    (sub : RelationshipSubtype.t) : CreateRelationshipRequest.t :=
  CreateRelationshipRequest.mk person1_id person2_id ty sub None None.

Definition admin_user : User.t :=
  User.mk 1 "admin@zhupani.com" "Admin" "User" UserRole.admin true.

Definition member_user : User.t :=
  User.mk 2 "besa@zhupani.com" "Besa" "Zhupani" UserRole.family_member true.

Definition editor_user : User.t :=
  User.mk 3 "cen@zhupani.com" "Cen" "Zhupani" UserRole.family_member true.

(** Agim (1) and Besa (2) are married, stored as [(1, 2, spouse, husband)];
    Cen (3, no birth date on record) and Dita (4) are children of both; Edi
    (5) is not related to anybody yet.  The family is public; [editor_user] holds an [edit] grant on it and
    [member_user] holds none. *)
Definition family_db : DB :=
  mkDB
    [admin_user; member_user; editor_user]
    [Family.mk 1 "Zhupani Family" None true (Some 1)]
    [person 1 "Agim" "Zhupani" Gender.male (Some 7000) (Some 1);
     person 2 "Besa" "Zhupani" Gender.female (Some 7500) (Some 1);
     person 3 "Cen" "Zhupani" Gender.male None (Some 1);
     person 4 "Dita" "Zhupani" Gender.female (Some 17000) (Some 1);
     person 5 "Edi" "Krasniqi" Gender.male (Some 16500) None]
    [edge 1 1 2 RelationshipType.spouse RelationshipSubtype.husband;
     edge 2 1 3 RelationshipType.parent_child RelationshipSubtype.father;
     edge 3 2 3 RelationshipType.parent_child RelationshipSubtype.mother;
     edge 4 1 4 RelationshipType.parent_child RelationshipSubtype.father;
     edge 5 2 4 RelationshipType.parent_child RelationshipSubtype.mother]
    6
    [UserFamilyPermission.mk 1 3 1 PermissionLevel.edit].

(** [family_db] after Edi and Dita have been recorded as spouses. *)
Definition family_db_married : DB :=
  mkDB (users family_db) (families family_db) (persons family_db)
    (relationships family_db ++
       [edge 6 5 4 RelationshipType.spouse RelationshipSubtype.husband])
    7 (user_family_permissions family_db).

(** The ordering the specification describes for children: by birth date
    ascending with absent birth dates last, then by first name.  Follows the
    specification's wording, for comparison with [birth_order]. *)
Definition date_asc_nulls_last_lt (a b : option date) : Prop :=
  match a, b with
  | Some _, None => True
  | Some x, Some y => x < y
  | None, _ => False
  end.

Definition birth_order_nulls_last `{Collation} (p q : Person.t) : Prop :=
  date_asc_nulls_last_lt (Person.birth_date p) (Person.birth_date q)
  ∨ (Person.birth_date p = Person.birth_date q
     ∧ collate_le (Person.first_name p) (Person.first_name q)).

(** [q] is stored as a parent of [c]. *)
Definition parent_edge (db : DB) (q c : Z) : Prop :=
  ∃ r, r ∈ relationships db
       ∧ Relationship.person1_id r = q
       ∧ Relationship.person2_id r = c
       ∧ Relationship.relationship_type r = RelationshipType.parent_child.

(** Some stored person is a parent of both [a] and [b]. *)
Definition common_parent (db : DB) (a b : Z) : Prop :=
  ∃ q, q ∈ Person.id <$> persons db ∧ parent_edge db q a ∧ parent_edge db q b.

(** How often the person with id [b] occurs in a result. *)
Definition occurrences (b : Z) (l : list Person.t) : nat :=
  length (filter (λ p, Person.id p = b) l).

(** * Further routes *)

(** ** Relationships: read, update, delete ([routes/relationships.ts]) *)

(** [SELECT * FROM relationships WHERE id = ?] *)
Definition select_relationship (db : DB) (id : Z) : list Relationship.t :=
  filter (λ r, Relationship.id r = id) (relationships db).

(** The permission loop of the update and delete handlers:
    [for (const person of persons) { if (person.family_id) { if (!await
    checkFamilyPermission(req.user.id, person.family_id, 'edit')) throw
    createForbiddenError(message) } }]. *)
Fixpoint check_edit_access_each (db : DB) (u : User.t)
    (persons : list (Z * option Z)) (message : string) : Result unit :=
  match persons with
  | [] => Ok ()
  | person :: rest =>
      _ ← check_edit_access db u (Some person) message;
      check_edit_access_each db u rest message
  end.

(** The body of [PUT /api/relationships/:id] after Joi validation
    ([updateRelationshipSchema]): every key is optional. *)
Module UpdateRelationshipRequest.
Record t := mk {
  relationship_subtype : option RelationshipSubtype.t;
  marriage_date : option date;
  divorce_date : option date;
  is_active : option bool;
}.
End UpdateRelationshipRequest.

(** [updateFields.length === 0]: no key of the body carries a value. *)
Definition no_update_fields (value : UpdateRelationshipRequest.t) : Prop :=
  UpdateRelationshipRequest.relationship_subtype value = None
  ∧ UpdateRelationshipRequest.marriage_date value = None
  ∧ UpdateRelationshipRequest.divorce_date value = None
  ∧ UpdateRelationshipRequest.is_active value = None.

(** The [SET] clause built from the body, applied to one row. *)
Definition set_relationship_fields (value : UpdateRelationshipRequest.t)
    (r : Relationship.t) : Relationship.t :=
  Relationship.mk (Relationship.id r)
    (Relationship.person1_id r) (Relationship.person2_id r)
    (Relationship.relationship_type r)
    (default (Relationship.relationship_subtype r)
       (UpdateRelationshipRequest.relationship_subtype value))
    (match UpdateRelationshipRequest.marriage_date value with
     | Some d => Some d
     | None => Relationship.marriage_date r
     end)
    (match UpdateRelationshipRequest.divorce_date value with
     | Some d => Some d
     | None => Relationship.divorce_date r
     end)
    (default (Relationship.is_active r)
       (UpdateRelationshipRequest.is_active value)).

(** [UPDATE relationships SET ... WHERE id = ?] *)
Definition update_relationship (db : DB) (id : Z)
    (value : UpdateRelationshipRequest.t) : DB :=
  mkDB (users db) (families db) (persons db)
    ((λ r, if decide (Relationship.id r = id)
           then set_relationship_fields value r else r) <$> relationships db)
    (relationships_auto_increment db) (user_family_permissions db).

(** [router.put('/:id')]: update a relationship, [relationshipId] already
    parsed from the path. *)
Definition updateRelationship (db : DB) (user : option User.t)
    (relationshipId : Z) (value : UpdateRelationshipRequest.t)
    : Result (DB * Response) :=
  u ← requireUser user;
  match select_relationship db relationshipId with
  | [] => Throw (createNotFoundError "Relationship")
  | relationship :: _ =>
      let persons :=
        select_persons_in db [Relationship.person1_id relationship;
                              Relationship.person2_id relationship] in
      _ ← (if decide (User.role u ≠ UserRole.admin) then
             check_edit_access_each db u persons
               "Edit access required to update this relationship"
           else Ok ());
      if decide (no_update_fields value) then
        Throw (createValidationError "body" "No fields to update")
      else
        let db' := update_relationship db relationshipId value in
        let updatedRelationships := select_relationship_row db' relationshipId in
        Ok (db', mkResponse 200
                   [("relationship", of_row (nth0 updatedRelationships))])
  end.

(** [DELETE FROM relationships WHERE id = ?] *)
Definition delete_relationship (db : DB) (id : Z) : DB :=
  mkDB (users db) (families db) (persons db)
    (filter (λ r, Relationship.id r ≠ id) (relationships db))
    (relationships_auto_increment db) (user_family_permissions db).

(** [router.delete('/:id')]: delete a relationship. *)
Definition deleteRelationship (db : DB) (user : option User.t)
    (relationshipId : Z) : Result (DB * Response) :=
  u ← requireUser user;
  match select_relationship db relationshipId with
  | [] => Throw (createNotFoundError "Relationship")
  | relationship :: _ =>
      let persons :=
        select_persons_in db [Relationship.person1_id relationship;
                              Relationship.person2_id relationship] in
      _ ← (if decide (User.role u ≠ UserRole.admin) then
             check_edit_access_each db u persons
               "Edit access required to delete this relationship"
           else Ok ());
      Ok (delete_relationship db relationshipId,
          mkResponse 200
            [("message", JsString "Relationship deleted successfully")])
  end.

(** The position of a value in [ENUM('parent_child', 'spouse', 'sibling')],
    by which [ORDER BY r.relationship_type] sorts. *)
Definition type_index (t : RelationshipType.t) : Z :=
  match t with
  | RelationshipType.parent_child => 1
  | RelationshipType.spouse => 2
  | RelationshipType.sibling => 3
  end.

(** [ORDER BY r.relationship_type, r.created_at] on rows that start with
    the edge.  The [created_at] column is not modelled, so rows of one type
    are left in whatever order the sort gives them. *)
Definition type_order {A} (x y : Relationship.t * A) : Prop :=
  (type_index (Relationship.relationship_type x.1)
   ≤ type_index (Relationship.relationship_type y.1))%Z.

#[global] Instance type_order_dec {A} : RelDecision (@type_order A).
Proof. intros x y; unfold type_order; apply _. Defined.

(** [SELECT family_id FROM user_family_permissions WHERE user_id = ?] *)
Definition granted_families (db : DB) (userId : Z) : list Z :=
  UserFamilyPermission.family_id <$>
    filter (λ g, UserFamilyPermission.user_id g = userId)
           (user_family_permissions db).

(** [SELECT id FROM families WHERE is_public = TRUE] *)
Definition public_families (db : DB) : list Z :=
  Family.id <$> filter (λ f, Family.is_public f = true) (families db).

(** [p.family_id IN (granted) OR p.family_id IN (public)]; a [NULL]
    [family_id] is in neither. *)
Definition family_listed (db : DB) (userId : Z) (family_id : option Z) : Prop :=
  match family_id with
  | Some f => f ∈ granted_families db userId ∨ f ∈ public_families db
  | None => False
  end.

#[global] Instance family_listed_dec db userId family_id :
  Decision (family_listed db userId family_id).
Proof. destruct family_id; simpl; apply _. Defined.

(** [if (param) { query += ' AND ...' }]: a condition that applies only
    when its query parameter is given. *)
Definition when_given {A} (param : option A) (condition : A → Prop) : Prop :=
  match param with
  | Some a => condition a
  | None => True
  end.

#[global] Instance when_given_dec {A} (param : option A) (condition : A → Prop)
  `{!∀ a, Decision (condition a)} : Decision (when_given param condition).
Proof. destruct param; simpl; apply _. Defined.

(** The query string of [GET /api/relationships]. *)
Module RelationshipQuery.
Record t := mk {
  person_id : option Z;
  family_id : option Z;
  type : option RelationshipType.t;
}.
End RelationshipQuery.

(** [router.get('/')]: the relationships a user may see.  The answer
    carries, per row, the edge and its two persons (of which the handler
    selects the names and genders). *)
Definition listRelationships (db : DB) (user : option User.t)
    (query : RelationshipQuery.t)
    : Result (list (Relationship.t * (Person.t * Person.t))) :=
  u ← requireUser user;
  Ok (merge_sort type_order
        (filter (λ '(r, (p1, p2)),
             (User.role u ≠ UserRole.admin →
                family_listed db (User.id u) (Person.family_id p1)
                ∧ family_listed db (User.id u) (Person.family_id p2))
             ∧ when_given (RelationshipQuery.person_id query)
                 (λ person_id, Relationship.person1_id r = person_id
                               ∨ Relationship.person2_id r = person_id)
             ∧ when_given (RelationshipQuery.family_id query)
                 (λ family_id, Person.family_id p1 = Some family_id
                               ∧ Person.family_id p2 = Some family_id)
             ∧ when_given (RelationshipQuery.type query)
                 (λ type, Relationship.relationship_type r = type))
           ((λ '(r, p1, p2), (r, (p1, p2))) <$>
              inner_join
                (inner_join (relationships db) (persons db)
                   (λ '(r, p1), Relationship.person1_id r = Person.id p1))
                (persons db)
                (λ '(r, p1, p2), Relationship.person2_id r = Person.id p2)))).

(** ** Families: members and deletion ([routes/families.ts]) *)

(** [if (req.user.role !== 'admin') { if (!await
    checkFamilyPermission(req.user.id, familyId, 'admin')) throw
    createForbiddenError(message) }] *)
Definition require_family_admin (db : DB) (u : User.t) (familyId : Z)
    (message : string) : Result unit :=
  if decide (User.role u ≠ UserRole.admin) then
    let hasAdminAccess :=
      checkFamilyPermission db (User.id u) familyId PermissionLevel.admin in
    if negb hasAdminAccess then Throw (createForbiddenError message)
    else Ok ()
  else Ok ().

(** [SELECT id, first_name, last_name FROM users
     WHERE id = ? AND is_active = TRUE] *)
Definition select_active_user (db : DB) (user_id : Z)
    : list (Z * string * string) :=
  (λ x, (User.id x, User.first_name x, User.last_name x)) <$>
    filter (λ x, User.id x = user_id ∧ User.is_active x = true) (users db).

(** [SELECT * FROM user_family_permissions
     WHERE user_id = ? AND family_id = ?] *)
Definition select_membership (db : DB) (user_id familyId : Z)
    : list UserFamilyPermission.t :=
  filter (λ g, UserFamilyPermission.user_id g = user_id
             ∧ UserFamilyPermission.family_id g = familyId)
         (user_family_permissions db).

(** The database together with the [AUTO_INCREMENT] counter of
    [user_family_permissions], which inserting a grant advances. *)
Record Store := mkStore {
  store_db : DB;
  user_family_permissions_auto_increment : Z;
}.

(** The body of [POST /api/families/:id/members] after Joi validation
    ([addMemberSchema]); [permission_level] defaults to [view] there. *)
Module AddMemberRequest.
Record t := mk {
  user_id : Z;
  permission_level : PermissionLevel.t;
}.
End AddMemberRequest.

(** [{ message, member: { ...users[0], permission_level } }] *)
Record AddMemberResponse := mkAddMemberResponse {
  add_member_message : string;
  member_id : Z;
  member_first_name : string;
  member_last_name : string;
  member_permission_level : PermissionLevel.t;
}.

(** [INSERT INTO user_family_permissions (user_id, family_id,
     permission_level) VALUES (?, ?, ?)] under [UNIQUE KEY
    unique_user_family (user_id, family_id)] and the foreign keys into
    [users] and [families]. *)
Definition insert_permission (st : Store) (user_id familyId : Z)
    (permission_level : PermissionLevel.t) : Result Store :=
  let db := store_db st in
  if decide (select_membership db user_id familyId ≠ []) then
    Throw (MySqlError "ER_DUP_ENTRY")
  else if decide (user_id ∈ User.id <$> users db
                  ∧ familyId ∈ Family.id <$> families db) then
    let id := user_family_permissions_auto_increment st in
    Ok (mkStore
          (mkDB (users db) (families db) (persons db) (relationships db)
             (relationships_auto_increment db)
             (user_family_permissions db ++
                [UserFamilyPermission.mk id user_id familyId permission_level]))
          (id + 1))
  else Throw (MySqlError "ER_NO_REFERENCED_ROW_2").

(** [router.post('/:id/members')]: add a member to a family. *)
Definition addMember (st : Store) (user : option User.t) (familyId : Z)
    (value : AddMemberRequest.t) : Result (Store * AddMemberResponse) :=
  let db := store_db st in
  u ← requireUser user;
  if decide (length (select_family db familyId) = 0%nat) then
    Throw (createNotFoundError "Family")
  else
    _ ← require_family_admin db u familyId
          "Admin access required to add members";
    match select_active_user db (AddMemberRequest.user_id value) with
    | [] => Throw (createNotFoundError "User")
    | (id, first_name, last_name) :: _ =>
        let existingMembership :=
          select_membership db (AddMemberRequest.user_id value) familyId in
        if decide (0 < length existingMembership)%nat then
          Throw (createValidationError "user_id"
                   "User is already a member of this family")
        else
          st' ← insert_permission st (AddMemberRequest.user_id value) familyId
                  (AddMemberRequest.permission_level value);
          Ok (st', mkAddMemberResponse "Member added successfully"
                     id first_name last_name
                     (AddMemberRequest.permission_level value))
    end.

(** [DELETE FROM user_family_permissions WHERE user_id = ? AND family_id = ?] *)
Definition delete_permission (db : DB) (userId familyId : Z) : DB :=
  mkDB (users db) (families db) (persons db) (relationships db)
    (relationships_auto_increment db)
    (filter (λ g, ¬ (UserFamilyPermission.user_id g = userId
                     ∧ UserFamilyPermission.family_id g = familyId))
       (user_family_permissions db)).

(** [router.delete('/:id/members/:userId')]: remove a member; answers with
    the message. *)
Definition removeMember (db : DB) (user : option User.t) (familyId userId : Z)
    : Result (DB * string) :=
  u ← requireUser user;
  _ ← require_family_admin db u familyId
        "Admin access required to remove members";
  Ok (delete_permission db userId familyId, "Member removed successfully").

(** [UPDATE user_family_permissions SET permission_level = ?
     WHERE user_id = ? AND family_id = ?] *)
Definition update_permission (db : DB) (permission_level : PermissionLevel.t)
    (userId familyId : Z) : DB :=
  mkDB (users db) (families db) (persons db) (relationships db)
    (relationships_auto_increment db)
    ((λ g, if decide (UserFamilyPermission.user_id g = userId
                      ∧ UserFamilyPermission.family_id g = familyId)
           then UserFamilyPermission.mk (UserFamilyPermission.id g)
                  (UserFamilyPermission.user_id g)
                  (UserFamilyPermission.family_id g) permission_level
           else g) <$> user_family_permissions db).

(** [router.put('/:id/members/:userId/permission')]: set a member's level,
    [permission_level] being one of the three the handler admits. *)
Definition updatePermission (db : DB) (user : option User.t)
    (familyId userId : Z) (permission_level : PermissionLevel.t)
    : Result (DB * string) :=
  u ← requireUser user;
  _ ← require_family_admin db u familyId
        "Admin access required to update permissions";
  Ok (update_permission db permission_level userId familyId,
      "Permission updated successfully").

(** [UPDATE persons SET family_id = NULL], one row. *)
Definition clear_family (p : Person.t) : Person.t :=
  Person.mk (Person.id p) (Person.first_name p) (Person.last_name p)
    (Person.maiden_name p) (Person.gender p) (Person.birth_date p)
    (Person.death_date p) (Person.birth_place p) (Person.death_place p)
    (Person.photo_url p) (Person.biography p) (Person.is_deceased p)
    None (Person.created_by p).

(** [DELETE FROM families WHERE id = ?] with the foreign keys that point at
    the family: [user_family_permissions.family_id ... ON DELETE CASCADE]
    and [persons.family_id ... ON DELETE SET NULL]. *)
Definition delete_family (db : DB) (familyId : Z) : DB :=
  mkDB (users db)
    (filter (λ f, Family.id f ≠ familyId) (families db))
    ((λ p, if decide (Person.family_id p = Some familyId)
           then clear_family p else p) <$> persons db)
    (relationships db) (relationships_auto_increment db)
    (filter (λ g, UserFamilyPermission.family_id g ≠ familyId)
       (user_family_permissions db)).

(** [router.delete('/:id')]: delete a family; answers with the message. *)
Definition deleteFamily (db : DB) (user : option User.t) (familyId : Z)
    : Result (DB * string) :=
  u ← requireUser user;
  if decide (length (select_family db familyId) = 0%nat) then
    Throw (createNotFoundError "Family")
  else
    _ ← require_family_admin db u familyId
          "Admin access required to delete family";
    Ok (delete_family db familyId, "Family deleted successfully").

(** [UNIQUE KEY unique_user_family (user_id, family_id)] *)
Definition unique_user_family (db : DB) : Prop :=
  NoDup ((λ g, (UserFamilyPermission.user_id g, UserFamilyPermission.family_id g))
           <$> user_family_permissions db).

(** ** Persons: read and delete ([routes/persons.ts]) *)

(** [l LEFT JOIN r ON on]: every left row, with each right row that matches
    it or with [NULL]s when none does. *)
Definition left_join {A B} (l : list A) (r : list B) (on : A * B → Prop)
    `{!∀ x, Decision (on x)} : list (A * option B) :=
  a ← l;
  match filter (λ b, on (a, b)) r with
  | [] => [(a, None)]
  | matches => (λ b, (a, Some b)) <$> matches
  end.

(** A row of [SELECT p.*, f.name as family_name, f.is_public as
    family_is_public, u.first_name as created_by_first_name, u.last_name as
    created_by_last_name FROM persons p LEFT JOIN families f ...
    LEFT JOIN users u ...]. *)
Record PersonRow := mkPersonRow {
  row_person : Person.t;
  family_name : option string;
  family_is_public : option bool;
  created_by_first_name : option string;
  created_by_last_name : option string;
}.

(** [SELECT p.*, f.name as family_name, f.is_public as family_is_public,
     u.first_name as created_by_first_name,
     u.last_name as created_by_last_name
     FROM persons p
     LEFT JOIN families f ON p.family_id = f.id
     LEFT JOIN users u ON p.created_by = u.id
     WHERE p.id = ?] *)
Definition select_person_row (db : DB) (personId : Z) : list PersonRow :=
  (λ '(p, f, u), mkPersonRow p (Family.name <$> f) (Family.is_public <$> f)
                   (User.first_name <$> u) (User.last_name <$> u)) <$>
    filter (λ '(p, f, u), Person.id p = personId)
      (left_join
         (left_join (persons db) (families db)
            (λ '(p, f), Person.family_id p = Some (Family.id f)))
         (users db)
         (λ '(p, f, u), Person.created_by p = Some (User.id u))).

(** [SELECT * FROM persons WHERE id = ?] *)
Definition select_person (db : DB) (personId : Z) : list Person.t :=
  filter (λ p, Person.id p = personId) (persons db).

(** The read check of the person routes:
    [if (req.user.role !== 'admin') { if (person.family_id) { const hasAccess
    = await checkFamilyPermission(req.user.id, person.family_id);
    if (!hasAccess && !person.family_is_public) throw
    createForbiddenError('Access denied to this person') } }], where
    [checkFamilyPermission] is the imported binding. *)
Definition check_person_read_access (db : DB) (u : User.t)
    (family_id : option Z) (family_is_public : option bool) : Result unit :=
  if decide (User.role u ≠ UserRole.admin) then
    match truthy family_id with
    | Some f =>
        hasAccess ←
          imported_checkFamilyPermission db (User.id u) f PermissionLevel.view;
        if negb hasAccess && negb (default false family_is_public)
        then Throw (createForbiddenError "Access denied to this person")
        else Ok ()
    | None => Ok ()
    end
  else Ok ().

(** [SELECT r.*, p1.first_name as person1_first_name, ...
     FROM relationships r
     INNER JOIN persons p1 ON r.person1_id = p1.id
     INNER JOIN persons p2 ON r.person2_id = p2.id
     WHERE r.person1_id = ? OR r.person2_id = ?
     ORDER BY r.relationship_type, r.created_at] *)
Definition select_person_relationships (db : DB) (personId : Z)
    : list RelationshipRow :=
  (λ '(r, (p1, p2)), mkRelationshipRow r
      (Person.first_name p1) (Person.last_name p1)
      (Person.first_name p2) (Person.last_name p2)) <$>
    merge_sort type_order
      (filter (λ '(r, _), Relationship.person1_id r = personId
                          ∨ Relationship.person2_id r = personId)
         ((λ '(r, p1, p2), (r, (p1, p2))) <$>
            inner_join
              (inner_join (relationships db) (persons db)
                 (λ '(r, p1), Relationship.person1_id r = Person.id p1))
              (persons db)
              (λ '(r, p1, p2), Relationship.person2_id r = Person.id p2))).

(** [DELETE FROM persons WHERE id = ?] with the two foreign keys of
    [relationships], both [ON DELETE CASCADE]. *)
Definition delete_person (db : DB) (personId : Z) : DB :=
  mkDB (users db) (families db)
    (filter (λ p, Person.id p ≠ personId) (persons db))
    (filter (λ r, Relationship.person1_id r ≠ personId
                ∧ Relationship.person2_id r ≠ personId) (relationships db))
    (relationships_auto_increment db) (user_family_permissions db).

(** [router.delete('/:id')] of the person routes; answers with the
    message. *)
Definition deletePerson (db : DB) (user : option User.t) (personId : Z)
    : Result (DB * string) :=
  u ← requireUser user;
  match select_person db personId with
  | [] => Throw (createNotFoundError "Person")
  | person :: _ =>
      _ ← (if decide (User.role u ≠ UserRole.admin) then
             match truthy (Person.family_id person) with
             | Some f =>
                 hasAdminAccess ←
                   imported_checkFamilyPermission db (User.id u) f
                     PermissionLevel.admin;
                 if negb hasAdminAccess then
                   Throw (createForbiddenError
                            "Admin access required to delete this person")
                 else Ok ()
             | None =>
                 Throw (createForbiddenError
                          "Cannot delete person without family association")
             end
           else Ok ());
      Ok (delete_person db personId, "Person deleted successfully")
  end.

(** The body of [PUT /api/persons/:id] after Joi validation
    ([updatePersonSchema]): every key is optional and none has a default. *)
Module UpdatePersonRequest.
Record t := mk {
  first_name : option string;
  last_name : option string;
  maiden_name : option string;
  gender : option Gender.t;
  birth_date : option date;
  death_date : option date;
  birth_place : option string;
  death_place : option string;
  biography : option string;
  family_id : option Z;
  is_deceased : option bool;
}.
End UpdatePersonRequest.

(** [updateFields.length === 0]: no key of the body carries a value. *)
Definition no_person_fields (value : UpdatePersonRequest.t) : Prop :=
  UpdatePersonRequest.first_name value = None
  ∧ UpdatePersonRequest.last_name value = None
  ∧ UpdatePersonRequest.maiden_name value = None
  ∧ UpdatePersonRequest.gender value = None
  ∧ UpdatePersonRequest.birth_date value = None
  ∧ UpdatePersonRequest.death_date value = None
  ∧ UpdatePersonRequest.birth_place value = None
  ∧ UpdatePersonRequest.death_place value = None
  ∧ UpdatePersonRequest.biography value = None
  ∧ UpdatePersonRequest.family_id value = None
  ∧ UpdatePersonRequest.is_deceased value = None.

(** A nullable column under [SET column = ?] when the body carries the key,
    and left alone otherwise. *)
Definition set_column {A} (new : option A) (old : option A) : option A :=
  match new with
  | Some x => Some x
  | None => old
  end.

(** The [SET] clause built from the keys of the body, applied to one row. *)
Definition set_person_fields (value : UpdatePersonRequest.t) (p : Person.t)
    : Person.t :=
  Person.mk (Person.id p)
    (default (Person.first_name p) (UpdatePersonRequest.first_name value))
    (default (Person.last_name p) (UpdatePersonRequest.last_name value))
    (set_column (UpdatePersonRequest.maiden_name value) (Person.maiden_name p))
    (default (Person.gender p) (UpdatePersonRequest.gender value))
    (set_column (UpdatePersonRequest.birth_date value) (Person.birth_date p))
    (set_column (UpdatePersonRequest.death_date value) (Person.death_date p))
    (set_column (UpdatePersonRequest.birth_place value) (Person.birth_place p))
    (set_column (UpdatePersonRequest.death_place value) (Person.death_place p))
    (Person.photo_url p)
    (set_column (UpdatePersonRequest.biography value) (Person.biography p))
    (default (Person.is_deceased p) (UpdatePersonRequest.is_deceased value))
    (set_column (UpdatePersonRequest.family_id value) (Person.family_id p))
    (Person.created_by p).

(** The foreign key [persons.family_id REFERENCES families(id)] on a value
    for that column; [NULL] refers to nothing. *)
Definition family_stored (db : DB) (family_id : option Z) : Prop :=
  match family_id with
  | Some f => f ∈ Family.id <$> families db
  | None => True
  end.

#[global] Instance family_stored_dec db family_id
  : Decision (family_stored db family_id).
Proof. destruct family_id; simpl; apply _. Defined.

(** [UPDATE persons SET ... WHERE id = ?] under that foreign key: setting
    the [family_id] of a row to a family that is not stored makes the
    statement fail. *)
Definition update_person (db : DB) (id : Z) (value : UpdatePersonRequest.t)
    : Result DB :=
  if decide (select_person db id ≠ []
             ∧ ¬ family_stored db (UpdatePersonRequest.family_id value)) then
    Throw (MySqlError "ER_NO_REFERENCED_ROW_2")
  else
    Ok (mkDB (users db) (families db)
          ((λ p, if decide (Person.id p = id)
                 then set_person_fields value p else p) <$> persons db)
          (relationships db) (relationships_auto_increment db)
          (user_family_permissions db)).

(** [SELECT p.*, f.name as family_name FROM persons p
     LEFT JOIN families f ON p.family_id = f.id WHERE p.id = ?] *)
Definition select_person_with_family (db : DB) (personId : Z)
    : list (Person.t * option string) :=
  (λ '((p, f) : Person.t * option Family.t), (p, Family.name <$> f)) <$>
    filter (λ '(p, f), Person.id p = personId)
      (left_join (persons db) (families db)
         (λ '(p, f), Person.family_id p = Some (Family.id f))).

(** [router.put('/:id')] of the person routes, [personId] already parsed
    from the path; answers with [updatedPersons[0]]. *)
Definition updatePerson (db : DB) (user : option User.t) (personId : Z)
    (value : UpdatePersonRequest.t)
    : Result (DB * option (Person.t * option string)) :=
  u ← requireUser user;
  match select_person db personId with
  | [] => Throw (createNotFoundError "Person")
  | person :: _ =>
      _ ← (if decide (User.role u ≠ UserRole.admin) then
             match truthy (Person.family_id person) with
             | Some f =>
                 hasEditAccess ←
                   imported_checkFamilyPermission db (User.id u) f
                     PermissionLevel.edit;
                 if negb hasEditAccess then
                   Throw (createForbiddenError
                            "Edit access required to update this person")
                 else Ok ()
             | None =>
                 Throw (createForbiddenError
                          "Cannot update person without family association")
             end
           else Ok ());
      if decide (no_person_fields value) then
        Throw (createValidationError "body" "No fields to update")
      else
        db' ← update_person db personId value;
        Ok (db', nth0 (select_person_with_family db' personId))
  end.

Section PersonRoutes.
Context `{Collation}.

(** [{ person: { ...person, relationships, parents, children, spouses,
    siblings } }] *)
Record PersonDetails := mkPersonDetails {
  details_person : PersonRow;
  details_relationships : list RelationshipRow;
  details_parents : list Person.t;
  details_children : list Person.t;
  details_spouses : list SpouseRow;
  details_siblings : list Person.t;
}.

(** [router.get('/:id')] of the person routes: a person with its
    relationships and derived views. *)
Definition getPersonById (db : DB) (user : option User.t) (personId : Z)
    : Result PersonDetails :=
  u ← requireUser user;
  match select_person_row db personId with
  | [] => Throw (createNotFoundError "Person")
  | person :: _ =>
      _ ← check_person_read_access db u (Person.family_id (row_person person))
            (family_is_public person);
      Ok (mkPersonDetails person
            (select_person_relationships db personId)
            (deriveParents db personId)
            (deriveChildren db personId)
            (deriveSpouses db personId)
            (deriveSiblings db personId))
  end.

(** [{ rootPerson, familyMembers, relationships }] *)
Record PersonTree := mkPersonTree {
  rootPerson : Person.t * option string * option bool;
  familyMembers : list Person.t;
  tree_relationships : list Relationship.t;
}.

(** The [p.*] columns of [rootPerson]. *)
Definition root_person (tree : PersonTree) : Person.t := (rootPerson tree).1.1.

(** [SELECT p.*, f.name as family_name, f.is_public as family_is_public
     FROM persons p LEFT JOIN families f ON p.family_id = f.id
     WHERE p.id = ?] *)
Definition select_tree_root (db : DB) (personId : Z)
    : list (Person.t * option string * option bool) :=
  (λ '((p, f) : Person.t * option Family.t),
     (p, Family.name <$> f, Family.is_public <$> f)) <$>
    filter (λ '(p, f), Person.id p = personId)
      (left_join (persons db) (families db)
         (λ '(p, f), Person.family_id p = Some (Family.id f))).

(** [SELECT p.* FROM persons p WHERE p.family_id = ?
     ORDER BY p.birth_date, p.first_name]; the parameter may be [NULL], which
    equals nothing. *)
Definition select_family_members (db : DB) (family_id : option Z)
    : list Person.t :=
  merge_sort birth_order
    (filter (λ p, is_Some family_id ∧ Person.family_id p = family_id)
       (persons db)).

(** [SELECT r.* FROM relationships r
     INNER JOIN persons p1 ON r.person1_id = p1.id
     INNER JOIN persons p2 ON r.person2_id = p2.id
     WHERE p1.family_id = ? AND p2.family_id = ?
     ORDER BY r.relationship_type, r.created_at] *)
Definition select_family_relationships (db : DB) (family_id : option Z)
    : list Relationship.t :=
  fst <$>
    merge_sort type_order
      (filter (λ '(r, (p1, p2)),
           is_Some family_id
           ∧ Person.family_id p1 = family_id
           ∧ Person.family_id p2 = family_id)
         ((λ '(r, p1, p2), (r, (p1, p2))) <$>
            inner_join
              (inner_join (relationships db) (persons db)
                 (λ '(r, p1), Relationship.person1_id r = Person.id p1))
              (persons db)
              (λ '(r, p1, p2), Relationship.person2_id r = Person.id p2))).

(** [router.get('/:id/tree')]: the family tree data around a person. *)
Definition getPersonTree (db : DB) (user : option User.t) (personId : Z)
    : Result PersonTree :=
  u ← requireUser user;
  match select_tree_root db personId with
  | [] => Throw (createNotFoundError "Person")
  | (person, family_name, family_is_public) :: _ =>
      _ ← check_person_read_access db u (Person.family_id person)
            family_is_public;
      Ok (mkPersonTree (person, family_name, family_is_public)
            (select_family_members db (Person.family_id person))
            (select_family_relationships db (Person.family_id person)))
  end.

End PersonRoutes.

(** ** Families: the list ([routes/families.ts]) *)

(** A row of the family list: [f.*], the creator's [first_name], the
    creator's [last_name as created_by_name], the [member_count] subquery
    and, in the query for users who are not global admins,
    [ufp.permission_level]. *)
Record FamilyRow := mkFamilyRow {
  row_family : Family.t;
  creator_first_name : option string;
  created_by_name : option string;
  member_count : nat;
  row_permission_level : option PermissionLevel.t;
}.

(** The subquery [SELECT COUNT FROM persons WHERE family_id = f.id]. *)
Definition count_members (db : DB) (f : Family.t) : nat :=
  length (filter (λ p, Person.family_id p = Some (Family.id f)) (persons db)).

Section FamilyList.
Context `{Collation}.

(** [ORDER BY f.name] on rows that start with the family. *)
Definition name_order {A} (x y : Family.t * A) : Prop :=
  collate_le (Family.name x.1) (Family.name y.1).

#[global] Instance name_order_dec {A} : RelDecision (@name_order A).
Proof. intros x y; unfold name_order; apply _. Defined.

(** [FROM families f LEFT JOIN users u ON f.created_by = u.id] *)
Definition families_with_creator (db : DB)
    : list (Family.t * option User.t) :=
  left_join (families db) (users db)
    (λ '(f, c), Family.created_by f = Some (User.id c)).

(** [router.get('/')] of the family routes.  A global admin gets
    [SELECT ... FROM families f LEFT JOIN users u ON f.created_by = u.id
     ORDER BY f.name]; everybody else gets
    [SELECT ..., ufp.permission_level FROM families f
     LEFT JOIN users u ON f.created_by = u.id
     INNER JOIN user_family_permissions ufp ON f.id = ufp.family_id
     WHERE ufp.user_id = ? OR f.is_public = TRUE
     ORDER BY f.name]. *)
Definition listFamilies (db : DB) (user : option User.t)
    : Result (list FamilyRow) :=
  u ← requireUser user;
  if decide (User.role u = UserRole.admin) then
    Ok ((λ '((f, c) : Family.t * option User.t),
           mkFamilyRow f (User.first_name <$> c) (User.last_name <$> c)
             (count_members db f) None) <$>
          merge_sort name_order (families_with_creator db))
  else
    Ok ((λ '((f, (c, g)) : Family.t * (option User.t * UserFamilyPermission.t)),
           mkFamilyRow f (User.first_name <$> c) (User.last_name <$> c)
             (count_members db f)
             (Some (UserFamilyPermission.permission_level g))) <$>
          merge_sort name_order
            (filter (λ '(f, (c, g)),
                 UserFamilyPermission.user_id g = User.id u
                 ∨ Family.is_public f = true)
               ((λ '(f, c, g), (f, (c, g))) <$>
                  inner_join (families_with_creator db)
                    (user_family_permissions db)
                    (λ '(f, c, g),
                       Family.id f = UserFamilyPermission.family_id g)))).

End FamilyList.

(** ** Families: creation ([routes/families.ts], [middleware/auth.ts]) *)

(** What a middleware does with a request: it answers it itself, with a
    status and [{ error }], or it calls [next()]. *)
Inductive Routed (A : Type) :=
  | Answered (status : Z) (error : string)
  | Next (a : A).
Arguments Answered {A} status error.
Arguments Next {A} a.

(** [familyMemberMiddleware] of [middleware/auth.ts] *)
Definition familyMemberMiddleware (user : option User.t) : Routed User.t :=
  match user with
  | None => Answered 401 "Access denied. Authentication required."
  | Some u =>
      if decide (User.role u = UserRole.visitor) then
        Answered 403 "Access denied. Family member privileges required."
      else Next u
  end.

(** The store together with the [AUTO_INCREMENT] counter of [families]. *)
Record Tables := mkTables {
  tables_store : Store;
  families_auto_increment : Z;
}.

Definition tables_db (tb : Tables) : DB := store_db (tables_store tb).

(** The body of [POST /api/families] after Joi validation
    ([createFamilySchema]); [is_public] defaults to [false] there. *)
Module CreateFamilyRequest.
Record t := mk {
  name : string;
  description : option string;
  is_public : bool;
}.
End CreateFamilyRequest.

(** [INSERT INTO families (name, description, is_public, created_by)
     VALUES (?, ?, ?, ?)] under the foreign key
    [created_by REFERENCES users(id)]; gives the store and [insertId]. *)
Definition insert_family (tb : Tables) (name : string)
    (description : option string) (is_public : bool) (created_by : Z)
    : Result (Tables * Z) :=
  let st := tables_store tb in
  let db := store_db st in
  if decide (created_by ∈ User.id <$> users db) then
    let insertId := families_auto_increment tb in
    Ok (mkTables
          (mkStore
             (mkDB (users db)
                (families db ++
                   [Family.mk insertId name description is_public
                      (Some created_by)])
                (persons db) (relationships db)
                (relationships_auto_increment db)
                (user_family_permissions db))
             (user_family_permissions_auto_increment st))
          (insertId + 1),
        insertId)
  else Throw (MySqlError "ER_NO_REFERENCED_ROW_2").

(** [SELECT f.*, u.first_name, u.last_name as created_by_name
     FROM families f LEFT JOIN users u ON f.created_by = u.id
     WHERE f.id = ?] *)
Definition select_family_row (db : DB) (familyId : Z)
    : list (Family.t * option string * option string) :=
  (λ '((f, c) : Family.t * option User.t),
     (f, User.first_name <$> c, User.last_name <$> c)) <$>
    filter (λ '(f, c), Family.id f = familyId) (families_with_creator db).

Section FamilyCreation.
Context `{Collation}.

(** Equality of two strings in the collation of the column, as [name = ?]
    compares them. *)
Definition collate_eq (s t : string) : Prop :=
  collate_le s t ∧ collate_le t s.

(** [SELECT id FROM families WHERE name = ?] *)
Definition select_family_by_name (db : DB) (name : string) : list Z :=
  Family.id <$> filter (λ f, collate_eq (Family.name f) name) (families db).

(** [router.post('/', familyMemberMiddleware, ...)] of the family routes;
    answers status 201 with [families[0]]. *)
Definition createFamily (tb : Tables) (user : option User.t)
    (value : CreateFamilyRequest.t)
    : Routed (Result (Tables * option (Family.t * option string * option string))) :=
  match familyMemberMiddleware user with
  | Answered status error => Answered status error
  | Next u =>
      Next
        (let existingFamilies :=
           select_family_by_name (tables_db tb) (CreateFamilyRequest.name value) in
         if decide (0 < length existingFamilies)%nat then
           Throw (createValidationError "name"
                    "Family with this name already exists")
         else
           '(tb1, insertId) ←
             insert_family tb (CreateFamilyRequest.name value)
               (CreateFamilyRequest.description value)
               (CreateFamilyRequest.is_public value) (User.id u);
           st2 ← insert_permission (tables_store tb1) (User.id u) insertId
                   PermissionLevel.admin;
           Ok (mkTables st2 (families_auto_increment tb1),
               nth0 (select_family_row (store_db st2) insertId)))
  end.

End FamilyCreation.

(** [families.id] is [AUTO_INCREMENT]: every stored id lies below the
    counter. *)
Definition families_id_fresh (tb : Tables) : Prop :=
  Forall (λ f, Family.id f < families_auto_increment tb)
         (families (tables_db tb)).

(** The foreign key of [user_family_permissions] into [families]. *)
Definition permissions_fk (db : DB) : Prop :=
  Forall (λ g, UserFamilyPermission.family_id g ∈ Family.id <$> families db)
         (user_family_permissions db).

(** ** More schema invariants *)

(** [relationships.id] is [AUTO_INCREMENT]: every stored id lies below the
    counter. *)
Definition relationships_id_fresh (db : DB) : Prop :=
  Forall (λ r, Relationship.id r < relationships_auto_increment db)
         (relationships db).

(** [relationships.id] is a primary key. *)
Definition relationships_pk (db : DB) : Prop :=
  NoDup (Relationship.id <$> relationships db).

(** [family_db] with a second, private family on which nobody holds a
    grant. *)
Definition two_families_db : DB :=
  mkDB (users family_db)
    (families family_db ++ [Family.mk 2 "Krasniqi Family" None false (Some 1)])
    (persons family_db) (relationships family_db)
    (relationships_auto_increment family_db)
    (user_family_permissions family_db).

(** A body that only moves the person into family 2. *)
Definition move_to_family_2 : UpdatePersonRequest.t :=
  UpdatePersonRequest.mk None None None None None None None None None
    (Some 2) None.

(** [family_db] with the counter of its grant table. *)
Definition family_store : Store := mkStore family_db 2.

(** ... and with the counter of its family table. *)
Definition family_tables : Tables := mkTables family_store 2.

(** * Properties *)

(** ** The permission resolver *)

Lemma checkFamilyPermission_no_grant db userId familyId requiredLevel :
  select_permission_level db userId familyId = [] →
  checkFamilyPermission db userId familyId requiredLevel = false.
Proof. unfold checkFamilyPermission. by intros ->. Qed.

Lemma checkFamilyPermission_grant db userId familyId requiredLevel granted rest :
  select_permission_level db userId familyId = granted :: rest →
  checkFamilyPermission db userId familyId requiredLevel = true
  ↔ permissionLevels granted >= permissionLevels requiredLevel.
Proof.
  unfold checkFamilyPermission. intros ->. simpl.
  by rewrite bool_decide_eq_true.
Qed.

(** C2.  A global admin is always authorized; any other actor is refused
    without a grant row for the family and, with one, is authorized exactly
    when the granted level is at least the required one in the order
    view(1) < edit(2) < admin(3).  An [edit] grant therefore covers [view]
    and [edit] but not [admin]. *)
Theorem hasPermission_decision db actorId actorRole familyId requiredLevel :
  (actorRole = UserRole.admin →
     hasPermission db actorId actorRole familyId requiredLevel = true)
  ∧ (actorRole ≠ UserRole.admin →
     select_permission_level db actorId familyId = [] →
     hasPermission db actorId actorRole familyId requiredLevel = false)
  ∧ (actorRole ≠ UserRole.admin →
     ∀ granted rest,
       select_permission_level db actorId familyId = granted :: rest →
       (hasPermission db actorId actorRole familyId requiredLevel = true
        ↔ permissionLevels granted >= permissionLevels requiredLevel)
       ∧ (granted = PermissionLevel.edit →
          hasPermission db actorId actorRole familyId requiredLevel
          = match requiredLevel with
            | PermissionLevel.view | PermissionLevel.edit => true
            | PermissionLevel.admin => false
            end))
  ∧ permissionLevels PermissionLevel.view = 1
  ∧ permissionLevels PermissionLevel.edit = 2
  ∧ permissionLevels PermissionLevel.admin = 3.
Proof.
  unfold hasPermission. split; [|split; [|split]].
  - intros ->. by rewrite decide_True.
  - intros Hrole Hnone. rewrite decide_False by done.
    by apply checkFamilyPermission_no_grant.
  - intros Hrole granted rest Hrow. rewrite decide_False by done. split.
    + by apply (checkFamilyPermission_grant _ _ _ _ _ rest).
    + intros ->. unfold checkFamilyPermission. rewrite Hrow.
      by destruct requiredLevel.
  - done.
Qed.

Lemma hasPermission_decision_witness :
  hasPermission family_db 1 UserRole.admin 1 PermissionLevel.admin = true
  ∧ hasPermission family_db 2 UserRole.family_member 1 PermissionLevel.view = false
  ∧ hasPermission family_db 3 UserRole.family_member 1 PermissionLevel.view = true
  ∧ hasPermission family_db 3 UserRole.family_member 1 PermissionLevel.edit = true
  ∧ hasPermission family_db 3 UserRole.family_member 1 PermissionLevel.admin = false.
Proof.
  split.
  { apply (hasPermission_decision family_db 1 UserRole.admin 1
             PermissionLevel.admin). reflexivity. }
  split.
  { apply (hasPermission_decision family_db 2 UserRole.family_member 1
             PermissionLevel.view); [discriminate | reflexivity]. }
  assert (Hgrant : select_permission_level family_db 3 1
                   = [PermissionLevel.edit]) by reflexivity.
  assert (Hrole : UserRole.family_member ≠ UserRole.admin) by discriminate.
  split; [|split].
  - destruct (hasPermission_decision family_db 3 UserRole.family_member 1
                PermissionLevel.view) as (_ & _ & Hc & _).
    exact (proj2 (Hc Hrole _ _ Hgrant) eq_refl).
  - destruct (hasPermission_decision family_db 3 UserRole.family_member 1
                PermissionLevel.edit) as (_ & _ & Hc & _).
    exact (proj2 (Hc Hrole _ _ Hgrant) eq_refl).
  - destruct (hasPermission_decision family_db 3 UserRole.family_member 1
                PermissionLevel.admin) as (_ & _ & Hc & _).
    exact (proj2 (Hc Hrole _ _ Hgrant) eq_refl).
Defined.

Lemma hasPermission_grant_based db db' actorId actorRole familyId requiredLevel :
  user_family_permissions db' = user_family_permissions db →
  hasPermission db' actorId actorRole familyId requiredLevel
  = hasPermission db actorId actorRole familyId requiredLevel.
Proof.
  intros Hperm.
  unfold hasPermission, checkFamilyPermission, select_permission_level.
  by rewrite Hperm.
Qed.

(** The read route of a family lets a user in exactly when the resolver
    does or the family is public. *)
Lemma getFamilyById_access db u familyId family rest :
  select_family db familyId = family :: rest →
  getFamilyById db (Some u) familyId
  = if hasPermission db (User.id u) (User.role u) familyId PermissionLevel.view
       || Family.is_public family
    then Ok family
    else Throw (createForbiddenError "Access denied to this family").
Proof.
  intros Hfam. unfold getFamilyById, hasPermission. simpl. rewrite Hfam.
  destruct (decide (User.role u = UserRole.admin)) as [Hadmin|Hother].
  - by rewrite decide_False by (by intros []).
  - rewrite decide_True by done.
    by destruct (checkFamilyPermission _ _ _ _), (Family.is_public family).
Qed.

(** C5.  For a user without a grant on a public family, the resolver
    answers [false] for [view]: it reads only the grant table, so the
    family's [is_public] flag cannot influence it.  The read route's own
    combined check (resolver result or [is_public]) still lets the user
    in. *)
Theorem public_family_resolver_split db u family rest :
  User.role u ≠ UserRole.admin →
  select_permission_level db (User.id u) (Family.id family) = [] →
  select_family db (Family.id family) = family :: rest →
  Family.is_public family = true →
  hasPermission db (User.id u) (User.role u) (Family.id family)
    PermissionLevel.view = false
  ∧ (hasPermission db (User.id u) (User.role u) (Family.id family)
       PermissionLevel.view || Family.is_public family) = true
  ∧ getFamilyById db (Some u) (Family.id family) = Ok family
  ∧ (∀ db', user_family_permissions db' = user_family_permissions db →
       hasPermission db' (User.id u) (User.role u) (Family.id family)
         PermissionLevel.view = false).
Proof.
  intros Hrole Hnone Hfam Hpub.
  assert (Hres : hasPermission db (User.id u) (User.role u) (Family.id family)
                   PermissionLevel.view = false).
  { unfold hasPermission. rewrite decide_False by done.
    by apply checkFamilyPermission_no_grant. }
  split; [done|]. split; [by rewrite Hpub, orb_true_r|]. split.
  - by rewrite (getFamilyById_access db u _ family rest), Hpub, orb_true_r.
  - intros db' Hperm. by rewrite (hasPermission_grant_based db db').
Qed.

Lemma public_family_resolver_split_witness :
  hasPermission family_db 2 UserRole.family_member 1 PermissionLevel.view = false
  ∧ getFamilyById family_db (Some member_user) 1
    = Ok (Family.mk 1 "Zhupani Family" None true (Some 1)).
Proof.
  destruct (public_family_resolver_split family_db member_user
              (Family.mk 1 "Zhupani Family" None true (Some 1)) [])
    as (Hres & _ & Hget & _);
    [discriminate | reflexivity | reflexivity | reflexivity |].
  split; [exact Hres | exact Hget].
Defined.

(** ** Primary keys *)

Lemma filter_none {A} (P : A → Prop) `{!∀ x, Decision (P x)} (l : list A) :
  (∀ x, x ∈ l → ¬ P x) → filter P l = [].
Proof.
  intros Hno. destruct (filter P l) as [|y k] eqn:Hf; [done|].
  assert (Hy : y ∈ filter P l) by (rewrite Hf; left).
  apply list_elem_of_filter in Hy as [HP Hy]. by destruct (Hno y).
Qed.

Lemma filter_key_length {A} (f : A → Z) (a : Z) (l : list A) :
  NoDup (f <$> l) → (length (filter (λ x, f x = a) l) ≤ 1)%nat.
Proof.
  induction l as [|x l IH]; simpl; [lia|].
  rewrite NoDup_cons. intros [Hx Hl]. rewrite filter_cons.
  destruct (decide (f x = a)) as [<-|]; [|by apply IH].
  rewrite filter_none; [simpl; lia|].
  intros y Hy Heq. apply Hx. rewrite <- Heq. by apply list_elem_of_fmap_2.
Qed.

(** ** Single-edge creation *)

(** C10.  With [persons.id] a primary key, a request whose two endpoints
    are the same person is always answered [NotFound]: the lookup
    [WHERE id IN (a, a)] yields at most one row where exactly two are
    required.  Nothing is inserted, as the handler throws. *)
Theorem createEdge_self_loop_NotFound db u value :
  persons_pk db →
  CreateRelationshipRequest.person1_id value
  = CreateRelationshipRequest.person2_id value →
  ∃ e, createEdge db (Some u) value = Throw e ∧ NotFound e.
Proof.
  intros Hpk Hself. exists (createNotFoundError "One or both persons not found").
  split; [|by eexists].
  unfold createEdge. simpl. rewrite decide_True; [done|].
  unfold select_persons_in. rewrite length_fmap, <- Hself.
  set (a := CreateRelationshipRequest.person1_id value).
  rewrite (list_filter_iff _ (λ p, Person.id p = a)).
  - pose proof (filter_key_length Person.id a (persons db) Hpk). lia.
  - intros p. rewrite !elem_of_cons, elem_of_nil. tauto.
Qed.

Lemma createEdge_self_loop_NotFound_witness :
  ∃ e, createEdge family_db (Some admin_user)
         (request 1 1 RelationshipType.spouse RelationshipSubtype.husband)
       = Throw e ∧ NotFound e.
Proof.
  apply (createEdge_self_loop_NotFound family_db admin_user
           (request 1 1 RelationshipType.spouse RelationshipSubtype.husband)).
  - apply (bool_decide_unpack _). vm_compute. exact I.
  - reflexivity.
Defined.

(** ** Derived views: membership *)

Lemma elem_of_merge_sort {A} (R : relation A) `{!RelDecision R} (l : list A) x :
  x ∈ merge_sort R l ↔ x ∈ l.
Proof. by rewrite merge_sort_Permutation. Qed.

Lemma elem_of_inner_join {A B} (l : list A) (r : list B) (on : A * B → Prop)
    `{!∀ x, Decision (on x)} (x : A * B) :
  x ∈ inner_join l r on ↔ on x ∧ x.1 ∈ l ∧ x.2 ∈ r.
Proof. unfold inner_join. by rewrite list_elem_of_filter, list_elem_of_cprod. Qed.

Lemma elem_of_ids db (a : Z) :
  a ∈ Person.id <$> persons db ↔ ∃ p, p ∈ persons db ∧ Person.id p = a.
Proof. rewrite list_elem_of_fmap. split; intros (p & ? & ?); by exists p. Qed.

Section DeriveFacts.
Context `{Collation}.

Lemma elem_of_deriveChildren db a p :
  p ∈ deriveChildren db a ↔ p ∈ persons db ∧ parent_edge db a (Person.id p).
Proof.
  unfold deriveChildren, parent_edge.
  rewrite elem_of_merge_sort, list_elem_of_fmap. split.
  - intros ([p' r] & -> & Hin).
    apply list_elem_of_filter in Hin as [[H1 Hty] Hj].
    apply elem_of_inner_join in Hj as (Hon & Hp & Hr). simpl in *.
    split; [done|]. by exists r.
  - intros (Hp & r & Hr & H1 & H2 & Hty). exists (p, r). split; [done|].
    apply list_elem_of_filter. split; [done|].
    by apply elem_of_inner_join.
Qed.

Lemma elem_of_deriveParents db c p :
  p ∈ deriveParents db c ↔ p ∈ persons db ∧ parent_edge db (Person.id p) c.
Proof.
  unfold deriveParents, parent_edge. rewrite list_elem_of_fmap. split.
  - intros ([p' r] & -> & Hin). apply elem_of_merge_sort in Hin.
    apply list_elem_of_filter in Hin as [[H2 Hty] Hj].
    apply elem_of_inner_join in Hj as (Hon & Hp & Hr). simpl in *.
    split; [done|]. by exists r.
  - intros (Hp & r & Hr & H1 & H2 & Hty). exists (p, r). split; [done|].
    apply elem_of_merge_sort, list_elem_of_filter. split; [done|].
    by apply elem_of_inner_join.
Qed.

Lemma elem_of_deriveSiblings db a p :
  p ∈ deriveSiblings db a
  ↔ p ∈ persons db ∧ Person.id p ≠ a
    ∧ ∃ q, parent_edge db q (Person.id p) ∧ parent_edge db q a.
Proof.
  unfold deriveSiblings, parent_edge.
  rewrite elem_of_merge_sort, elem_of_remove_dups, list_elem_of_fmap. split.
  - intros ([[p' r1] r2] & -> & Hin).
    apply list_elem_of_filter in Hin as [(H2 & Hty1 & Hty2 & Hne) Hj].
    apply elem_of_inner_join in Hj as (Hon2 & Hj & Hr2).
    apply elem_of_inner_join in Hj as (Hon1 & Hp & Hr1). simpl in *.
    split; [done|]. split; [done|]. exists (Relationship.person1_id r1).
    split; [by exists r1 | by exists r2].
  - intros (Hp & Hne & q & (r1 & Hr1 & H11 & H12 & Hty1)
              & (r2 & Hr2 & H21 & H22 & Hty2)).
    exists (p, r1, r2). split; [done|].
    apply list_elem_of_filter. split; [done|].
    apply elem_of_inner_join. split; [simpl; congruence|]. split; [|done].
    by apply elem_of_inner_join.
Qed.

Lemma elem_of_deriveSpouses db a (row : SpouseRow) :
  row ∈ deriveSpouses db a
  ↔ ∃ r, r ∈ relationships db ∧ spouse row ∈ persons db
       ∧ row = mkSpouseRow (spouse row) (Relationship.relationship_subtype r)
                 (Relationship.marriage_date r) (Relationship.divorce_date r)
       ∧ (Person.id (spouse row) = Relationship.person1_id r
          ∨ Person.id (spouse row) = Relationship.person2_id r)
       ∧ (Relationship.person1_id r = a ∨ Relationship.person2_id r = a)
       ∧ Relationship.relationship_type r = RelationshipType.spouse
       ∧ Person.id (spouse row) ≠ a.
Proof.
  unfold deriveSpouses. rewrite list_elem_of_fmap. split.
  - intros ([p r] & -> & Hin). apply elem_of_merge_sort in Hin.
    apply list_elem_of_filter in Hin as [(Ha & Hty & Hne) Hj].
    apply elem_of_inner_join in Hj as (Hon & Hp & Hr). simpl in *.
    by exists r.
  - intros (r & Hr & Hp & Hrow & Hon & Ha & Hty & Hne).
    exists (spouse row, r). split; [done|].
    apply elem_of_merge_sort, list_elem_of_filter. split; [done|].
    by apply elem_of_inner_join.
Qed.

(** C8.  For stored persons [p] and [c], [c] is among the children of [p]
    exactly when [p] is among the parents of [c]: both views read the same
    [parent_child] edges, with the parent as [person1_id]. *)
Theorem deriveChildren_deriveParents_inverse db p c :
  p ∈ Person.id <$> persons db →
  c ∈ Person.id <$> persons db →
  c ∈ Person.id <$> deriveChildren db p
  ↔ p ∈ Person.id <$> deriveParents db c.
Proof.
  intros (pp & Hpp & <-)%elem_of_ids (pc & Hpc & <-)%elem_of_ids.
  rewrite !list_elem_of_fmap. split.
  - intros (x & Hid & Hx). apply elem_of_deriveChildren in Hx as [_ Hedge].
    exists pp. split; [done|]. apply elem_of_deriveParents.
    split; [done|]. by rewrite Hid.
  - intros (x & Hid & Hx). apply elem_of_deriveParents in Hx as [_ Hedge].
    exists pc. split; [done|]. apply elem_of_deriveChildren.
    split; [done|]. by rewrite Hid.
Qed.

Lemma pk_inj db p q :
  persons_pk db → p ∈ persons db → q ∈ persons db →
  Person.id p = Person.id q → p = q.
Proof.
  unfold persons_pk. induction (persons db) as [|x l IH]; [by intros _ ?%elem_of_nil|].
  rewrite fmap_cons, NoDup_cons, !elem_of_cons.
  intros [Hx Hl] [->|Hp] [->|Hq] Hid; [done| | |by apply IH].
  - destruct Hx. rewrite Hid. by apply list_elem_of_fmap_2.
  - destruct Hx. rewrite <- Hid. by apply list_elem_of_fmap_2.
Qed.

Lemma NoDup_ids_deriveSiblings db a :
  persons_pk db → NoDup (Person.id <$> deriveSiblings db a).
Proof.
  intros Hpk. apply NoDup_fmap_2_strong.
  - intros p q Hp%elem_of_deriveSiblings Hq%elem_of_deriveSiblings.
    apply (pk_inj db); [done|apply Hp|apply Hq].
  - unfold deriveSiblings. rewrite merge_sort_Permutation.
    apply NoDup_remove_dups.
Qed.

Lemma occurrences_le_1 (b : Z) (l : list Person.t) :
  NoDup (Person.id <$> l) → (occurrences b l ≤ 1)%nat.
Proof. apply filter_key_length. Qed.

Lemma occurrences_pos (b : Z) (l : list Person.t) :
  (0 < occurrences b l)%nat ↔ b ∈ Person.id <$> l.
Proof.
  unfold occurrences. rewrite list_elem_of_fmap. split.
  - destruct (filter _ l) as [|p k] eqn:Hf; simpl; [lia|]. intros _.
    assert (Hp : p ∈ filter (λ p, Person.id p = b) l) by (rewrite Hf; left).
    apply list_elem_of_filter in Hp as [Hid Hp]. by exists p.
  - intros (p & -> & Hp).
    assert (Hin : p ∈ filter (λ q, Person.id q = Person.id p) l)
      by by apply list_elem_of_filter.
    destruct (filter _ l); [by apply elem_of_nil in Hin | simpl; lia].
Qed.

Lemma ids_deriveSiblings db a b :
  relationships_fk db →
  b ∈ Person.id <$> deriveSiblings db a ↔ b ≠ a ∧ common_parent db a b.
Proof.
  intros Hfk. unfold relationships_fk in Hfk. rewrite Forall_forall in Hfk.
  rewrite list_elem_of_fmap. split.
  - intros (p & -> & (Hp & Hne & q & Hqb & Hqa)%elem_of_deriveSiblings).
    split; [done|]. exists q. split; [|done].
    destruct Hqa as (r & Hr & <- & _). by apply Hfk.
  - intros (Hne & q & _ & Hqa & Hqb).
    assert (Hb : b ∈ Person.id <$> persons db).
    { destruct Hqb as (r & Hr & _ & <- & _). by apply Hfk. }
    apply elem_of_ids in Hb as (p & Hp & <-). exists p. split; [done|].
    apply elem_of_deriveSiblings. split; [done|]. split; [done|]. by exists q.
Qed.

Lemma common_parent_sym db a b : common_parent db a b → common_parent db b a.
Proof. intros (q & Hq & Ha & Hb). by exists q. Qed.

(** C6.  With the schema's primary and foreign keys in force and [a ≠ b]:
    [b] occurs in the siblings of [a] exactly once if and only if some stored
    person is a parent of both; it never occurs more than once, however many
    parents are shared; [a] does not occur among its own siblings; and
    membership is symmetric. *)
Theorem deriveSiblings_common_parent db a b :
  persons_pk db → relationships_fk db → a ≠ b →
  (occurrences b (deriveSiblings db a) = 1%nat ↔ common_parent db a b)
  ∧ (occurrences b (deriveSiblings db a) ≤ 1)%nat
  ∧ occurrences a (deriveSiblings db a) = 0%nat
  ∧ (b ∈ Person.id <$> deriveSiblings db a
     ↔ a ∈ Person.id <$> deriveSiblings db b).
Proof.
  intros Hpk Hfk Hab.
  pose proof (occurrences_le_1 b _ (NoDup_ids_deriveSiblings db a Hpk)) as Hle.
  pose proof (occurrences_pos b (deriveSiblings db a)) as Hpos.
  rewrite (ids_deriveSiblings db a b Hfk) in Hpos.
  split; [|split; [done|split]].
  - split.
    + intros Hone. apply Hpos. lia.
    + intros Hcp. assert (0 < occurrences b (deriveSiblings db a))%nat; [|lia].
      apply Hpos. by split.
  - pose proof (occurrences_pos a (deriveSiblings db a)) as Ha.
    rewrite (ids_deriveSiblings db a a Hfk) in Ha.
    destruct (occurrences a (deriveSiblings db a)); [done|].
    destruct Ha as [Ha _]. by destruct Ha; [lia|].
  - rewrite !ids_deriveSiblings by done. split.
    + intros [_ Hcp]. split; [done|]. by apply common_parent_sym.
    + intros [_ Hcp]. split; [done|]. by apply common_parent_sym.
Qed.

End DeriveFacts.

Lemma family_db_pk : persons_pk family_db.
Proof. apply (bool_decide_unpack _). vm_compute. exact I. Qed.

Lemma family_db_fk : relationships_fk family_db.
Proof. apply (bool_decide_unpack _). vm_compute. exact I. Qed.

Lemma deriveChildren_deriveParents_inverse_witness :
  3 ∈ Person.id <$> deriveChildren family_db 1
  ↔ 1 ∈ Person.id <$> deriveParents family_db 3.
Proof.
  apply (deriveChildren_deriveParents_inverse family_db 1 3).
  - apply (bool_decide_unpack _). vm_compute. exact I.
  - apply (bool_decide_unpack _). vm_compute. exact I.
Defined.

Lemma deriveSiblings_common_parent_witness :
  (occurrences 4 (deriveSiblings family_db 3) = 1%nat ↔ common_parent family_db 3 4)
  ∧ (occurrences 4 (deriveSiblings family_db 3) ≤ 1)%nat
  ∧ occurrences 3 (deriveSiblings family_db 3) = 0%nat
  ∧ (4 ∈ Person.id <$> deriveSiblings family_db 3
     ↔ 3 ∈ Person.id <$> deriveSiblings family_db 4).
Proof.
  apply (deriveSiblings_common_parent family_db 3 4).
  - apply (bool_decide_unpack _). vm_compute. exact I.
  - apply (bool_decide_unpack _). vm_compute. exact I.
  - discriminate.
Defined.

(** ** Edge insertion *)

Lemma insert_relationship_Ok db rel db' insertId :
  insert_relationship db rel = Ok (db', insertId) →
  select_existing db (CreateRelationshipRequest.person1_id rel)
    (CreateRelationshipRequest.person2_id rel)
    (CreateRelationshipRequest.relationship_type rel) = []
  ∧ CreateRelationshipRequest.person1_id rel ∈ Person.id <$> persons db
  ∧ CreateRelationshipRequest.person2_id rel ∈ Person.id <$> persons db
  ∧ insertId = relationships_auto_increment db
  ∧ persons db' = persons db
  ∧ user_family_permissions db' = user_family_permissions db
  ∧ relationships db'
    = (relationships db ++
       [Relationship.mk insertId
          (CreateRelationshipRequest.person1_id rel)
          (CreateRelationshipRequest.person2_id rel)
          (CreateRelationshipRequest.relationship_type rel)
          (CreateRelationshipRequest.relationship_subtype rel)
          (CreateRelationshipRequest.marriage_date rel)
          (CreateRelationshipRequest.divorce_date rel) true])%list.
Proof.
  unfold insert_relationship.
  destruct (decide (select_existing _ _ _ _ ≠ [])) as [|Hnone]; [done|].
  destruct (decide (_ ∧ _)) as [[H1 H2]|]; [|done].
  intros [= <- <-]. apply dec_stable in Hnone. done.
Qed.

Lemma insert_relationship_succeeds db rel :
  select_existing db (CreateRelationshipRequest.person1_id rel)
    (CreateRelationshipRequest.person2_id rel)
    (CreateRelationshipRequest.relationship_type rel) = [] →
  CreateRelationshipRequest.person1_id rel ∈ Person.id <$> persons db →
  CreateRelationshipRequest.person2_id rel ∈ Person.id <$> persons db →
  ∃ db', insert_relationship db rel = Ok (db', relationships_auto_increment db).
Proof.
  intros Hnone H1 H2. unfold insert_relationship.
  rewrite decide_False by (by rewrite Hnone; intros []).
  rewrite decide_True by done. by eexists.
Qed.

(** An insert keeps the primary key of [persons] and the foreign keys of
    [relationships] in force. *)
Lemma insert_relationship_schema db rel db' insertId :
  insert_relationship db rel = Ok (db', insertId) →
  (persons_pk db → persons_pk db')
  ∧ (relationships_fk db → relationships_fk db').
Proof.
  intros (_ & H1 & H2 & _ & Hpersons & _ & Hrels)%insert_relationship_Ok.
  unfold persons_pk, relationships_fk. rewrite Hpersons, Hrels.
  split; [done|]. intros Hfk. apply Forall_app. split; [done|].
  by apply Forall_singleton.
Qed.

Lemma bind_Ok {A B} (m : Result A) (f : A → Result B) b :
  m ≫= f = Ok b → ∃ a, m = Ok a ∧ f a = Ok b.
Proof. destruct m as [a|e]; [by exists a | done]. Qed.

(** What a successful single create has gone through. *)
Lemma createEdge_Ok db user value db' resp :
  createEdge db user value = Ok (db', resp) →
  ∃ u, user = Some u
    ∧ length (select_persons_in db
        [CreateRelationshipRequest.person1_id value;
         CreateRelationshipRequest.person2_id value]) = 2%nat
    ∧ validate_relationship_logic
        (CreateRelationshipRequest.relationship_type value)
        (CreateRelationshipRequest.relationship_subtype value) = Ok ()
    ∧ insert_relationship db value = Ok (db', relationships_auto_increment db).
Proof.
  unfold createEdge. intros (u & Hu & Hrest)%bind_Ok. exists u.
  destruct user as [u'|]; [|done]. injection Hu as ->. split; [done|].
  destruct (decide (length _ ≠ 2%nat)) as [|Hlen]; [done|].
  apply dec_stable in Hlen. split; [done|].
  apply bind_Ok in Hrest as (_ & _ & Hrest).
  destruct (decide (0 < length _)%nat); [done|].
  apply bind_Ok in Hrest as ([] & Hval & Hrest). split; [done|].
  apply bind_Ok in Hrest as ([db1 i] & Hins & Hok).
  injection Hok as <- _.
  by destruct (insert_relationship_Ok _ _ _ _ Hins) as (_ & _ & _ & -> & _).
Qed.

Lemma select_persons_in_distinct db a b :
  persons_pk db → length (select_persons_in db [a; b]) = 2%nat → a ≠ b.
Proof.
  intros Hpk Hlen ->. unfold select_persons_in in Hlen.
  rewrite length_fmap in Hlen.
  rewrite (list_filter_iff _ (λ p, Person.id p = b)) in Hlen.
  - pose proof (filter_key_length Person.id b (persons db) Hpk). lia.
  - intros p. rewrite !elem_of_cons, elem_of_nil. tauto.
Qed.

(** ** Spouses *)

Section SpouseFacts.
Context `{Collation}.

(** A stored spouse edge between two distinct stored persons makes each of
    them a spouse of the other, whichever of the two is [person1_id]. *)
Lemma deriveSpouses_stored db r :
  r ∈ relationships db →
  Relationship.relationship_type r = RelationshipType.spouse →
  Relationship.person1_id r ≠ Relationship.person2_id r →
  Relationship.person1_id r ∈ Person.id <$> persons db →
  Relationship.person2_id r ∈ Person.id <$> persons db →
  Relationship.person2_id r
    ∈ (λ row, Person.id (spouse row)) <$> deriveSpouses db (Relationship.person1_id r)
  ∧ Relationship.person1_id r
    ∈ (λ row, Person.id (spouse row)) <$> deriveSpouses db (Relationship.person2_id r).
Proof.
  intros Hr Hty Hne (p1 & Hp1 & Hid1)%elem_of_ids (p2 & Hp2 & Hid2)%elem_of_ids.
  split.
  - apply list_elem_of_fmap.
    exists (mkSpouseRow p2 (Relationship.relationship_subtype r)
              (Relationship.marriage_date r) (Relationship.divorce_date r)).
    split; [done|]. apply elem_of_deriveSpouses. exists r. simpl.
    repeat split; auto. congruence.
  - apply list_elem_of_fmap.
    exists (mkSpouseRow p1 (Relationship.relationship_subtype r)
              (Relationship.marriage_date r) (Relationship.divorce_date r)).
    split; [done|]. apply elem_of_deriveSpouses. exists r. simpl.
    repeat split; auto. congruence.
Qed.

(** C7.  Once [createEdge] has stored a spouse edge from [a] to [b], the
    spouses of [a] include [b] and the spouses of [b] include [a].  The
    lookup does not depend on the storage direction: any stored spouse edge
    between two distinct stored persons shows each among the other's
    spouses. *)
Theorem deriveSpouses_after_createEdge db user value db' resp :
  persons_pk db →
  CreateRelationshipRequest.relationship_type value = RelationshipType.spouse →
  createEdge db user value = Ok (db', resp) →
  let a := CreateRelationshipRequest.person1_id value in
  let b := CreateRelationshipRequest.person2_id value in
  (b ∈ (λ row, Person.id (spouse row)) <$> deriveSpouses db' a
   ∧ a ∈ (λ row, Person.id (spouse row)) <$> deriveSpouses db' b)
  ∧ (∀ r, r ∈ relationships db' →
       Relationship.relationship_type r = RelationshipType.spouse →
       (Relationship.person1_id r = a ∧ Relationship.person2_id r = b)
       ∨ (Relationship.person1_id r = b ∧ Relationship.person2_id r = a) →
       b ∈ (λ row, Person.id (spouse row)) <$> deriveSpouses db' a
       ∧ a ∈ (λ row, Person.id (spouse row)) <$> deriveSpouses db' b).
Proof.
  intros Hpk Hty (u & _ & Hlen & _ & Hins)%createEdge_Ok a b.
  apply select_persons_in_distinct in Hlen; [|done].
  apply insert_relationship_Ok in Hins
    as (_ & Ha & Hb & _ & Hpersons & _ & Hrels).
  fold a in Ha, Hlen. fold b in Hb, Hlen. rewrite <- Hpersons in Ha, Hb.
  assert (Hany : ∀ r, r ∈ relationships db' →
       Relationship.relationship_type r = RelationshipType.spouse →
       (Relationship.person1_id r = a ∧ Relationship.person2_id r = b)
       ∨ (Relationship.person1_id r = b ∧ Relationship.person2_id r = a) →
       b ∈ (λ row, Person.id (spouse row)) <$> deriveSpouses db' a
       ∧ a ∈ (λ row, Person.id (spouse row)) <$> deriveSpouses db' b).
  { intros r Hr Hrty [[H1 H2]|[H1 H2]].
    - destruct (deriveSpouses_stored db' r) as [Hab Hba];
        rewrite ?H1, ?H2; try done.
      by rewrite H1, H2 in Hab, Hba.
    - destruct (deriveSpouses_stored db' r) as [Hab Hba];
        rewrite ?H1, ?H2; try done.
      by rewrite H1, H2 in Hab, Hba. }
  split; [|done].
  eapply Hany; [rewrite Hrels; apply elem_of_app; right; left | done | by left].
Qed.

End SpouseFacts.

Lemma deriveSpouses_after_createEdge_witness :
  4 ∈ (λ row, Person.id (spouse row)) <$> deriveSpouses family_db_married 5
  ∧ 5 ∈ (λ row, Person.id (spouse row)) <$> deriveSpouses family_db_married 4.
Proof.
  assert (∃ resp, createEdge family_db (Some admin_user)
            (request 5 4 RelationshipType.spouse RelationshipSubtype.husband)
          = Ok (family_db_married, resp)) as [resp Hcreated]
    by (eexists; reflexivity).
  apply (deriveSpouses_after_createEdge family_db (Some admin_user)
           (request 5 4 RelationshipType.spouse RelationshipSubtype.husband)
           family_db_married resp).
  - exact family_db_pk.
  - reflexivity.
  - exact Hcreated.
Defined.

(** ** Ordering of children *)

Lemma date_asc_lt_trichotomy a b :
  date_asc_lt a b ∨ a = b ∨ date_asc_lt b a.
Proof.
  destruct a as [x|], b as [y|]; simpl; auto.
  destruct (Z.lt_trichotomy x y) as [?|[->|?]]; auto.
Qed.

Lemma date_asc_lt_trans a b c :
  date_asc_lt a b → date_asc_lt b c → date_asc_lt a c.
Proof. destruct a, b, c; simpl; try done. lia. Qed.

Lemma date_asc_lt_irrefl a : ¬ date_asc_lt a a.
Proof. destruct a; simpl; [lia | tauto]. Qed.

Section ChildrenOrder.
Context `{Collation}.

#[local] Instance birth_order_total : Total birth_order.
Proof.
  intros p q. unfold birth_order.
  destruct (date_asc_lt_trichotomy (Person.birth_date p) (Person.birth_date q))
    as [?|[Heq|?]]; auto.
  destruct (total collate_le (Person.first_name p) (Person.first_name q)); auto.
Qed.

#[local] Instance birth_order_trans : Transitive birth_order.
Proof.
  intros p q r. unfold birth_order.
  intros [Hpq|[Hpq Hn1]] [Hqr|[Hqr Hn2]].
  - left. by eapply date_asc_lt_trans.
  - left. by rewrite <- Hqr.
  - left. by rewrite Hpq.
  - right. split; [congruence|]. by etrans.
Qed.

(** C9, as the code has it.  The children come back sorted by birth date
    ascending, then first name, where a child without a birth date sorts
    before every child with one: of two children in the result, the later
    one has no birth date only if the earlier one has none either; two
    recorded birth dates are in ascending order; and children with equal
    birth dates are in collation order of their first names. *)
Theorem deriveChildren_sorted db personId :
  StronglySorted birth_order (deriveChildren db personId)
  ∧ ∀ l1 x l2 y,
      deriveChildren db personId = (l1 ++ x :: l2)%list → y ∈ l2 →
      (Person.birth_date y = None → Person.birth_date x = None)
      ∧ (∀ dx dy, Person.birth_date x = Some dx →
                  Person.birth_date y = Some dy → (dx ≤ dy)%Z)
      ∧ (Person.birth_date x = Person.birth_date y →
         collate_le (Person.first_name x) (Person.first_name y)).
Proof.
  assert (Hs : StronglySorted birth_order (deriveChildren db personId)).
  { unfold deriveChildren. apply (StronglySorted_merge_sort _). }
  split; [done|]. intros l1 x l2 y Heq Hy. rewrite Heq in Hs.
  assert (Hxy : birth_order x y).
  { apply StronglySorted_app_1_r, StronglySorted_cons in Hs as [Hall _].
    rewrite Forall_forall in Hall. by apply Hall. }
  unfold birth_order in Hxy. split; [|split].
  - intros Hy0. destruct Hxy as [Hlt|[Hsame _]]; [|congruence].
    rewrite Hy0 in Hlt. by destruct (Person.birth_date x).
  - intros dx dy Hx0 Hy0. rewrite Hx0, Hy0 in Hxy.
    destruct Hxy as [Hlt|[[= ->] _]]; simpl in *; lia.
  - intros Hsame. destruct Hxy as [Hlt|[_ Hname]]; [|done].
    rewrite Hsame in Hlt. by apply date_asc_lt_irrefl in Hlt.
Qed.

End ChildrenOrder.

Lemma deriveChildren_sorted_witness :
  StronglySorted birth_order (deriveChildren family_db 2)
  ∧ (Person.birth_date (person 4 "Dita" "Zhupani" Gender.female (Some 17000) (Some 1))
     = None →
     Person.birth_date (person 3 "Cen" "Zhupani" Gender.male None (Some 1))
     = None).
Proof.
  destruct (deriveChildren_sorted family_db 2) as [Hsorted Hpairs].
  split; [exact Hsorted|].
  apply (Hpairs [] (person 3 "Cen" "Zhupani" Gender.male None (Some 1))
           [person 4 "Dita" "Zhupani" Gender.female (Some 17000) (Some 1)]
           (person 4 "Dita" "Zhupani" Gender.female (Some 17000) (Some 1))).
  - by vm_compute.
  - by left.
Defined.

(** C9, as the specification words it, fails: Cen has no birth date on
    record and is listed before Dita, who has one. *)
Lemma deriveChildren_nulls_last_counterexample :
  Person.id <$> deriveChildren family_db 1 = [3; 4]
  ∧ Person.birth_date <$> deriveChildren family_db 1 = [None; Some 17000]
  ∧ ¬ Sorted birth_order_nulls_last (deriveChildren family_db 1).
Proof.
  split; [by vm_compute|]. split; [by vm_compute|].
  assert (deriveChildren family_db 1
          = [person 3 "Cen" "Zhupani" Gender.male None (Some 1);
             person 4 "Dita" "Zhupani" Gender.female (Some 17000) (Some 1)])
    as -> by by vm_compute.
  intros Hs. apply Sorted_inv in Hs as [_ Hhd]. apply HdRel_inv in Hhd.
  by destruct Hhd as [[]|[? _]].
Qed.

(** ** Uniqueness of edges *)

Lemma select_existing_nil db a b t :
  select_existing db a b t = [] ↔ (a, b, t) ∉ edge_key <$> relationships db.
Proof.
  unfold select_existing. split.
  - intros Hnil (r & Hk & Hr)%list_elem_of_fmap.
    apply (filter_nil_not_elem_of _ _ r Hnil); [|done].
    unfold edge_key in Hk. by injection Hk as -> -> ->.
  - intros Hnot. apply filter_none. intros r Hr (<- & <- & <-).
    apply Hnot. by apply (list_elem_of_fmap_2 edge_key).
Qed.

Lemma insert_relationship_unique db rel db' insertId :
  insert_relationship db rel = Ok (db', insertId) →
  unique_relationship db → unique_relationship db'.
Proof.
  intros (Hnone & _ & _ & _ & _ & _ & Hrels)%insert_relationship_Ok Huniq.
  unfold unique_relationship. rewrite Hrels, fmap_app. apply NoDup_app.
  split; [done|]. split; [|apply NoDup_singleton].
  intros k Hk ->%list_elem_of_singleton.
  by apply select_existing_nil in Hnone.
Qed.

Lemma bulk_insert_unique rels : ∀ db created db' created',
  bulk_insert db rels created = Ok (db', created') →
  unique_relationship db → unique_relationship db'.
Proof.
  induction rels as [|rel rels IH]; intros db created db' created'; simpl.
  - by intros [= <- _].
  - destruct (decide (length _ = 0%nat)); [|by apply IH].
    destruct (insert_relationship db rel) as [[db1 i]|] eqn:Hins; [|done].
    intros Hrest Huniq. eapply IH; [done|].
    by eapply insert_relationship_unique.
Qed.

Lemma createBulkEdges_Ok db user batch db' resp :
  createBulkEdges db user batch = Ok (db', resp) →
  ∃ createdRelationships,
    bulk_insert db batch [] = Ok (db', createdRelationships)
    ∧ resp = mkResponse 201
               [("relationships", JsRelationships createdRelationships);
                ("message", JsString ("Created "
                   ++ string_of_nat (length createdRelationships)
                   ++ " new relationships"))].
Proof.
  unfold createBulkEdges. intros (u & _ & Hrest)%bind_Ok.
  destruct (decide (length batch = 0%nat)); [done|].
  destruct (decide (length _ ≠ length _)); [done|].
  apply bind_Ok in Hrest as (_ & _ & Hrest).
  apply bind_Ok in Hrest as ([db1 created] & Hins & Hok).
  injection Hok as <- <-. by exists created.
Qed.

Lemma check_edit_access_Throw db u person message e :
  check_edit_access db u person message = Throw e →
  e = TypeError ∨ e = createForbiddenError message.
Proof.
  unfold check_edit_access. destruct person as [[i f]|]; [|intros [= <-]; by left].
  destruct (truthy f); [|done].
  simpl. intros [= <-]. by left.
Qed.

Lemma check_permissions_Throw db u person1 person2 e :
  check_permissions db u person1 person2 = Throw e →
  e = TypeError ∨ ∃ message, e = createForbiddenError message.
Proof.
  unfold check_permissions. destruct (decide _); [|done].
  destruct (check_edit_access db u person1 _) as [[]|e1] eqn:H1; simpl.
  - intros [-> | ->]%check_edit_access_Throw; [by left | right; by eexists].
  - intros [= <-].
    apply check_edit_access_Throw in H1 as [-> | ->]; [by left | right; by eexists].
Qed.

Lemma validate_relationship_logic_Throw ty sub e :
  validate_relationship_logic ty sub = Throw e → InvalidSubtype e.
Proof.
  unfold validate_relationship_logic.
  destruct ty; destruct (decide _); try done; intros [= <-]; by eexists.
Qed.

(** No other error of the handlers is the duplicate error. *)
Ltac not_duplicate H :=
  unfold DuplicateRelationship, createValidationError, createForbiddenError,
    createNotFoundError in H;
  simpl in H; discriminate H.

(** C1, as the code has it.  Uniqueness is per ordered triple
    [(person1_id, person2_id, relationship_type)]: both create routes keep
    the stored edges free of repeated ordered triples; a single create whose
    ordered triple is already stored never succeeds, and is answered
    [DuplicateRelationship] as soon as the person lookup and the permission
    check let it through; and [DuplicateRelationship] is only ever raised
    against a stored edge with the same ordered triple, so an edge stored
    with the endpoints swapped does not count. *)
Theorem createEdge_unique_ordered db user value :
  let a := CreateRelationshipRequest.person1_id value in
  let b := CreateRelationshipRequest.person2_id value in
  let t := CreateRelationshipRequest.relationship_type value in
  (unique_relationship db →
     (∀ db' resp, createEdge db user value = Ok (db', resp) →
        unique_relationship db')
     ∧ (∀ batch db' resp, createBulkEdges db user batch = Ok (db', resp) →
        unique_relationship db'))
  ∧ (select_existing db a b t ≠ [] →
     is_Ok (createEdge db user value) = false
     ∧ ∀ u persons,
         user = Some u →
         persons = select_persons_in db [a; b] →
         length persons = 2%nat →
         check_permissions db u (find (λ p, p.1 = a) persons)
           (find (λ p, p.1 = b) persons) = Ok () →
         ∃ e, createEdge db user value = Throw e ∧ DuplicateRelationship e)
  ∧ (∀ e, createEdge db user value = Throw e → DuplicateRelationship e →
       select_existing db a b t ≠ []).
Proof.
  intros a b t. split; [|split].
  - intros Huniq. split.
    + intros db' resp (u & _ & _ & _ & Hins)%createEdge_Ok.
      by eapply insert_relationship_unique.
    + intros batch db' resp (created & Hins & _)%createBulkEdges_Ok.
      by eapply bulk_insert_unique.
  - intros Hdup.
    assert (Hpos : (0 < length (select_existing db a b t))%nat).
    { destruct (select_existing db a b t); [done | simpl; lia]. }
    split.
    + destruct (createEdge db user value) as [[db' resp]|] eqn:Hc; [|done].
      apply createEdge_Ok in Hc as (_ & _ & _ & _ & Hins).
      by apply insert_relationship_Ok in Hins as [Hnone _].
    + intros u persons -> -> Hlen Hperm. eexists. split; [|done].
      unfold createEdge. simpl. fold a b t.
      rewrite decide_False by (intros Hne; by apply Hne).
      rewrite Hperm. simpl. by rewrite decide_True.
  - intros e Hthrow Hdup. unfold createEdge in Hthrow. fold a b t in Hthrow.
    destruct user as [u|]; simpl in Hthrow;
      [|injection Hthrow as <-; not_duplicate Hdup].
    destruct (decide (length _ ≠ 2%nat));
      [injection Hthrow as <-; not_duplicate Hdup|].
    destruct (check_permissions db u _ _) as [[]|e1] eqn:Hperm;
      simpl in Hthrow.
    + destruct (decide (0 < length _)%nat) as [Hpos|].
      { intros Hnil. rewrite Hnil in Hpos. simpl in Hpos. lia. }
      destruct (validate_relationship_logic _ _) as [[]|e2] eqn:Hval;
        simpl in Hthrow.
      * destruct (insert_relationship db value) as [[db1 i]|e3] eqn:Hins;
          simpl in Hthrow; [done|].
        injection Hthrow as <-. unfold insert_relationship in Hins.
        repeat destruct (decide _); try done;
          injection Hins as <-; not_duplicate Hdup.
      * injection Hthrow as <-.
        apply validate_relationship_logic_Throw in Hval as [m ->].
        not_duplicate Hdup.
    + injection Hthrow as <-.
      apply check_permissions_Throw in Hperm as [-> | [m ->]];
        not_duplicate Hdup.
Qed.

Lemma createEdge_unique_ordered_witness :
  (∃ e, createEdge family_db (Some admin_user)
          (request 1 2 RelationshipType.spouse RelationshipSubtype.wife)
        = Throw e ∧ DuplicateRelationship e)
  ∧ (∀ db' resp,
       createEdge family_db (Some admin_user)
         (request 1 2 RelationshipType.spouse RelationshipSubtype.wife)
       = Ok (db', resp) → unique_relationship db').
Proof.
  destruct (createEdge_unique_ordered family_db (Some admin_user)
              (request 1 2 RelationshipType.spouse RelationshipSubtype.wife))
    as (Hinv & Hdup & _).
  split.
  - destruct Hdup as [_ Hdup]; [by vm_compute|].
    apply (Hdup admin_user _ eq_refl eq_refl); reflexivity.
  - apply Hinv. apply (bool_decide_unpack _). vm_compute. exact I.
Defined.

(** C1, as the specification words it, fails: with [(1, 2, spouse,
    husband)] stored, a create for the swapped pair [(2, 1, spouse, wife)]
    succeeds, and the two persons are then connected by two spouse edges. *)
Lemma createEdge_swapped_pair_counterexample :
  edge 1 1 2 RelationshipType.spouse RelationshipSubtype.husband
    ∈ relationships family_db
  ∧ unique_unordered family_db
  ∧ ∃ db' resp,
      createEdge family_db (Some admin_user)
        (request 2 1 RelationshipType.spouse RelationshipSubtype.wife)
      = Ok (db', resp)
      ∧ edge 1 1 2 RelationshipType.spouse RelationshipSubtype.husband
          ∈ relationships db'
      ∧ edge 6 2 1 RelationshipType.spouse RelationshipSubtype.wife
          ∈ relationships db'
      ∧ ¬ unique_unordered db'.
Proof.
  split; [by left|].
  split; [apply (bool_decide_unpack _); vm_compute; exact I|].
  eexists _, _. split; [reflexivity|]. simpl.
  split; [by left|].
  split; [apply (bool_decide_unpack _); vm_compute; exact I|].
  apply (bool_decide_unpack _). vm_compute. exact I.
Qed.

(** ** Bulk creation *)

Lemma family_db_fresh : relationships_id_fresh family_db.
Proof. apply (bool_decide_unpack _). vm_compute. exact I. Qed.


Lemma head_all_eq {A} (l : list A) x :
  x ∈ l → (∀ y, y ∈ l → y = x) → head l = Some x.
Proof.
  destruct l as [|y l]; [by intros ?%elem_of_nil|].
  intros _ Hall. simpl. f_equal. apply Hall. left.
Qed.

Lemma head_fmap {A B} (f : A → B) (l : list A) : head (f <$> l) = f <$> head l.
Proof. by destruct l. Qed.

Lemma insert_relationship_db db rel db' insertId :
  insert_relationship db rel = Ok (db', insertId) →
  db' = mkDB (users db) (families db) (persons db)
          (relationships db ++
             [Relationship.mk (relationships_auto_increment db)
                (CreateRelationshipRequest.person1_id rel)
                (CreateRelationshipRequest.person2_id rel)
                (CreateRelationshipRequest.relationship_type rel)
                (CreateRelationshipRequest.relationship_subtype rel)
                (CreateRelationshipRequest.marriage_date rel)
                (CreateRelationshipRequest.divorce_date rel) true])
          (relationships_auto_increment db + 1)
          (user_family_permissions db).
Proof.
  unfold insert_relationship. repeat destruct (decide _); try done.
  by intros [= <- _].
Qed.

(** The detail row of an edge: under the primary keys it is the edge with
    the names of its two persons. *)
Lemma select_relationship_row_head db r pa pb :
  persons_pk db →
  r ∈ relationships db →
  (∀ r', r' ∈ relationships db → Relationship.id r' = Relationship.id r → r' = r) →
  pa ∈ persons db → Person.id pa = Relationship.person1_id r →
  pb ∈ persons db → Person.id pb = Relationship.person2_id r →
  nth0 (select_relationship_row db (Relationship.id r))
  = Some (mkRelationshipRow r (Person.first_name pa) (Person.last_name pa)
            (Person.first_name pb) (Person.last_name pb)).
Proof.
  intros Hpk Hr Huniq Hpa Ha Hpb Hb.
  unfold nth0, select_relationship_row. rewrite head_fmap.
  rewrite (head_all_eq _ (r, pa, pb)); [done| |].
  - apply list_elem_of_filter. split; [done|].
    apply elem_of_inner_join. split; [done|]. split; [|done].
    by apply elem_of_inner_join.
  - intros [[r' p1] p2] [Hid Hin]%list_elem_of_filter.
    apply elem_of_inner_join in Hin as (H2 & Hin & Hp2).
    apply elem_of_inner_join in Hin as (H1 & Hr' & Hp1). simpl in *.
    assert (r' = r) as -> by by apply Huniq.
    assert (p1 = pa) as -> by (apply (pk_inj db); congruence).
    assert (p2 = pb) as -> by (apply (pk_inj db); congruence).
    done.
Qed.


Lemma set_values_NoDup `{EqDecision A} (l : list A) : NoDup (set_values l).
Proof.
  unfold set_values. rewrite reverse_Permutation. apply NoDup_remove_dups.
Qed.

Lemma elem_of_set_values `{EqDecision A} (l : list A) x :
  x ∈ set_values l ↔ x ∈ l.
Proof.
  unfold set_values.
  by rewrite elem_of_reverse, elem_of_remove_dups, elem_of_reverse.
Qed.

(** When the lookup [WHERE id IN (ids)] returns as many rows as there are
    distinct ids, every one of them is a stored person. *)
Lemma select_persons_in_all db ids :
  persons_pk db → NoDup ids →
  length (select_persons_in db ids) = length ids →
  ∀ i, i ∈ ids → i ∈ Person.id <$> persons db.
Proof.
  intros Hpk Hids Hlen i Hi. unfold select_persons_in in Hlen.
  rewrite length_fmap in Hlen.
  set (found := filter (λ p, Person.id p ∈ ids) (persons db)) in *.
  assert (Hsub : sublist (Person.id <$> found) (Person.id <$> persons db)).
  { apply fmap_sublist, sublist_filter. }
  assert (Hperm : Person.id <$> found ≡ₚ ids).
  { apply submseteq_length_Permutation; [|by rewrite length_fmap, Hlen].
    apply NoDup_submseteq; [by apply (sublist_NoDup _ _ Hpk)|].
    intros j (p & -> & Hp)%list_elem_of_fmap.
    by apply list_elem_of_filter in Hp as [? _]. }
  rewrite <- Hperm in Hi. by eapply elem_of_sublist.
Qed.

Lemma fresh_requests_keys rels : ∀ seen id,
  edge_key <$> stored_edges id (fresh_requests seen rels)
  = fresh_keys seen (request_key <$> rels).
Proof.
  induction rels as [|rel rels IH]; intros seen id; simpl; [done|].
  destruct (decide (request_key rel ∈ seen)); [apply IH|].
  simpl. by rewrite IH.
Qed.

(** The insertion loop, row by row: with both endpoints of every request
    stored, it appends the rows of the fresh requests, numbered from the
    counter, and reports each of them with the names of its persons. *)
Lemma bulk_insert_rows rels : ∀ db created,
  persons_pk db →
  (∀ rel, rel ∈ rels →
     CreateRelationshipRequest.person1_id rel ∈ Person.id <$> persons db
     ∧ CreateRelationshipRequest.person2_id rel ∈ Person.id <$> persons db) →
  ∃ db' new,
    bulk_insert db rels created = Ok (db', (created ++ new)%list)
    ∧ users db' = users db ∧ families db' = families db
    ∧ persons db' = persons db
    ∧ user_family_permissions db' = user_family_permissions db
    ∧ relationships db'
      = (relationships db ++
           stored_edges (relationships_auto_increment db)
             (fresh_requests (edge_key <$> relationships db) rels))%list
    ∧ length new
      = length (fresh_requests (edge_key <$> relationships db) rels)
    ∧ (relationships_id_fresh db →
       Forall2 (reported_as db) new
         (stored_edges (relationships_auto_increment db)
            (fresh_requests (edge_key <$> relationships db) rels))).
Proof.
  induction rels as [|rel rels IH]; intros db created Hpk Hfk; simpl.
  - exists db, []. rewrite !app_nil_r. repeat split; try done.
  - assert (Hrel : rel ∈ rel :: rels) by left.
    assert (Hrest : ∀ r, r ∈ rels → r ∈ rel :: rels) by (intros; by right).
    destruct (decide (length _ = 0%nat)) as [Hnone|Hsome].
    + apply length_zero_iff_nil in Hnone.
      destruct (insert_relationship_succeeds db rel) as [db1 Hins];
        [done|by apply Hfk..|].
      rewrite Hins. apply insert_relationship_db in Hins.
      fold (stored_edge (relationships_auto_increment db) rel) in Hins.
      set (e := stored_edge (relationships_auto_increment db) rel) in *.
      destruct (Hfk rel Hrel)
        as [(pa & Hpa & Ha)%elem_of_ids (pb & Hpb & Hb)%elem_of_ids].
      assert (Hpk1 : persons_pk db1) by (by rewrite Hins).
      destruct (IH db1 (created ++ [nth0 (select_relationship_row db1
                  (relationships_auto_increment db))])%list Hpk1)
        as (db' & new & Hloop & Hu' & Hf' & Hp' & Hg' & Hr' & Hlen & Hrows).
      { intros r Hr. rewrite Hins. simpl. by apply Hfk, Hrest. }
      rewrite Hins in Hu', Hf', Hp', Hg', Hr', Hlen, Hrows.
      simpl in Hu', Hf', Hp', Hg', Hr', Hlen, Hrows.
      rewrite fmap_app in Hr', Hlen, Hrows. simpl in Hr', Hlen, Hrows.
      rewrite decide_False by (by apply select_existing_nil).
      exists db', (nth0 (select_relationship_row db1
                           (relationships_auto_increment db)) :: new).
      rewrite Hloop, <- (assoc_L (++)).
      split; [done|]. split; [done|]. split; [done|]. split; [done|].
      split; [done|]. split.
      { simpl. rewrite Hr', <- (assoc_L (++)). done. }
      split; [simpl; by rewrite Hlen|].
      intros Hfresh. simpl. constructor.
      * exists pa, pb. split; [done|]. split; [done|]. split; [done|].
        split; [done|].
        change (relationships_auto_increment db) with (Relationship.id e).
        apply select_relationship_row_head; try done; rewrite Hins; simpl;
          try done.
        -- apply elem_of_app. right. left.
        -- intros r' [Hold | ->%list_elem_of_singleton]%elem_of_app Hid;
             [|done].
           unfold relationships_id_fresh in Hfresh.
           rewrite Forall_forall in Hfresh. specialize (Hfresh r' Hold).
           simpl in Hid. lia.
      * assert (Hfresh1 : relationships_id_fresh
                  (mkDB (users db) (families db) (persons db)
                     (relationships db ++ [e])
                     (relationships_auto_increment db + 1)
                     (user_family_permissions db))).
        { unfold relationships_id_fresh in *. simpl.
          rewrite Forall_forall in Hfresh. rewrite Forall_forall.
          intros r' [Hold | ->%list_elem_of_singleton]%elem_of_app.
          - specialize (Hfresh r' Hold). lia.
          - simpl. lia. }
        specialize (Hrows Hfresh1).
        eapply Forall2_impl; [exact Hrows|].
        intros c r (qa & qb & ? & ? & ? & ? & ?). by exists qa, qb.
    + destruct (IH db created Hpk)
        as (db' & new & Hloop & Hu' & Hf' & Hp' & Hg' & Hr' & Hlen & Hrows).
      { intros r Hr. by apply Hfk, Hrest. }
      exists db', new. rewrite decide_True; [done|].
      destruct (decide (request_key rel ∈ edge_key <$> relationships db))
        as [|Hnot]; [done|].
      apply select_existing_nil in Hnot. unfold request_key in *.
      by rewrite Hnot in Hsome.
Qed.

Lemma fresh_requests_length seen rels :
  (length (fresh_requests seen rels) ≤ length rels)%nat.
Proof.
  revert seen. induction rels as [|rel rels IH]; intros seen; simpl; [lia|].
  destruct (decide _); simpl;
    [specialize (IH seen) | specialize (IH (seen ++ [request_key rel])%list)];
    lia.
Qed.

Lemma stored_edges_length rels : ∀ id, length (stored_edges id rels) = length rels.
Proof. induction rels as [|rel rels IH]; intros id; simpl; [done|]. by rewrite IH. Qed.

(** C4, as the code has it.  Once the batch-wide checks pass, the bulk
    create answers 201 with exactly two fields: [relationships], the rows
    created, and [message], which spells out their number.  The edges
    created are, in batch order, the requests whose ordered triple was
    neither stored beforehand nor requested earlier in the batch: each is
    stored with the columns of its request, active, under consecutive ids
    from the counter on, after all the edges stored before; and with the
    counter above every stored id the rows reported are these very edges,
    each with the names of its two persons.  Every other request is passed
    over without an error and without being reported: the answer has no
    [skipped] field. *)
Theorem createBulkEdges_response db u batch :
  let personIds :=
    set_values (batch ≫= λ r, [CreateRelationshipRequest.person1_id r;
                               CreateRelationshipRequest.person2_id r]) in
  persons_pk db →
  batch ≠ [] →
  length (select_persons_in db personIds) = length personIds →
  bulk_check_permissions db u (select_persons_in db personIds) = Ok () →
  ∃ db' created rows,
    createBulkEdges db (Some u) batch
    = Ok (db', mkResponse 201
                 [("relationships", JsRelationships created);
                  ("message", JsString ("Created "
                     ++ string_of_nat (length created)
                     ++ " new relationships"))])
    ∧ relationships db' = (relationships db ++ rows)%list
    ∧ rows = stored_edges (relationships_auto_increment db)
               (fresh_requests (edge_key <$> relationships db) batch)
    ∧ (relationships_id_fresh db → Forall2 (reported_as db) created rows)
    ∧ (users db' = users db ∧ families db' = families db
       ∧ persons db' = persons db
       ∧ user_family_permissions db' = user_family_permissions db)
    ∧ length rows = length created
    ∧ edge_key <$> rows
      = fresh_keys (edge_key <$> relationships db) (request_key <$> batch)
    ∧ (length created ≤ length batch)%nat
    ∧ field "skipped"
        [("relationships", JsRelationships created);
         ("message", JsString ("Created "
            ++ string_of_nat (length created)
            ++ " new relationships"))] = None.
Proof.
  intros personIds Hpk Hne Hlen Hperm.
  destruct (bulk_insert_rows batch db [] Hpk)
    as (db' & new & Hins & Hu' & Hf' & Hp' & Hg' & Hrels & Hnew & Hrows).
  { intros rel Hrel.
    split; apply (select_persons_in_all db personIds Hpk);
      try done; try apply set_values_NoDup;
      apply elem_of_set_values, list_elem_of_bind; exists rel;
      (split; [|done]); [left | right; left]. }
  simpl in Hins. eexists db', new, _.
  split; [|split; [exact Hrels|]].
  - unfold createBulkEdges. simpl.
    rewrite decide_False by (by destruct batch).
    fold personIds. rewrite decide_False by (intros Hx; by apply Hx).
    rewrite Hperm. simpl. by rewrite Hins.
  - split; [done|]. split; [done|]. split; [done|].
    split; [by rewrite stored_edges_length|].
    split; [apply fresh_requests_keys|].
    split; [|done]. rewrite Hnew. apply fresh_requests_length.
Qed.

Lemma createBulkEdges_response_witness :
  ∃ db',
    createBulkEdges family_db (Some admin_user)
      [request 1 2 RelationshipType.spouse RelationshipSubtype.husband;
       request 1 2 RelationshipType.spouse RelationshipSubtype.husband;
       request 3 4 RelationshipType.sibling RelationshipSubtype.brother]
    = Ok (db', mkResponse 201
                 [("relationships",
                   JsRelationships
                     [Some (mkRelationshipRow
                              (edge 6 3 4 RelationshipType.sibling
                                 RelationshipSubtype.brother)
                              "Cen" "Zhupani" "Dita" "Zhupani")]);
                  ("message", JsString "Created 1 new relationships")])
    ∧ relationships db'
      = (relationships family_db
         ++ [edge 6 3 4 RelationshipType.sibling RelationshipSubtype.brother])%list.
Proof.
  destruct (createBulkEdges_response family_db admin_user
      [request 1 2 RelationshipType.spouse RelationshipSubtype.husband;
       request 1 2 RelationshipType.spouse RelationshipSubtype.husband;
       request 3 4 RelationshipType.sibling RelationshipSubtype.brother])
    as (db' & created & rows & Hcreated & Hrels & Hrows & _).
  - exact family_db_pk.
  - discriminate.
  - reflexivity.
  - reflexivity.
  - exists db'. rewrite Hrows in Hrels. split; [|exact Hrels].
    rewrite Hcreated. pose proof Hcreated as Hrun. vm_compute in Hrun.
    injection Hrun as _ <- _. reflexivity.
Defined.

(** C4, as the specification words it, fails: for the batch [A, A, B], with
    [A] already stored and [B] new, the answer carries the one created row
    and the message, but no [skipped] field and no number: the two passed
    over requests are not counted anywhere. *)
Lemma createBulkEdges_skipped_count_counterexample :
  select_existing family_db 1 2 RelationshipType.spouse ≠ []
  ∧ select_existing family_db 3 4 RelationshipType.sibling = []
  ∧ ∃ db' resp,
      createBulkEdges family_db (Some admin_user)
        [request 1 2 RelationshipType.spouse RelationshipSubtype.husband;
         request 1 2 RelationshipType.spouse RelationshipSubtype.husband;
         request 3 4 RelationshipType.sibling RelationshipSubtype.brother]
      = Ok (db', resp)
      ∧ field "relationships" (body resp)
        = Some (JsRelationships
                  [Some (mkRelationshipRow
                           (edge 6 3 4 RelationshipType.sibling
                              RelationshipSubtype.brother)
                           "Cen" "Zhupani" "Dita" "Zhupani")])
      ∧ field "message" (body resp)
        = Some (JsString "Created 1 new relationships")
      ∧ fst <$> body resp = ["relationships"; "message"]
      ∧ field "skipped" (body resp) = None
      ∧ ∀ key, field key (body resp) ≠ Some (JsNumber 2).
Proof.
  split; [by vm_compute|]. split; [by vm_compute|].
  eexists _, _. split; [by vm_compute|]. simpl.
  repeat (split; [reflexivity|]).
  intros key. unfold field, find. rewrite !filter_cons, filter_nil.
  repeat case_decide; by simpl.
Qed.

(** ** Subtype validation on the two create routes *)

(** The single create stores an edge only if its subtype belongs to its
    type. *)
Lemma createEdge_validates_subtype db user value db' resp :
  createEdge db user value = Ok (db', resp) →
  validate_relationship_logic
    (CreateRelationshipRequest.relationship_type value)
    (CreateRelationshipRequest.relationship_subtype value) = Ok ().
Proof. by intros (_ & _ & _ & Hval & _)%createEdge_Ok. Qed.

(** C3 at the request [(3, 4, parent_child, brother)] of a global admin:
    the single create answers [InvalidSubtype] and stores nothing, but the
    same request sent as a one-item batch is stored by the bulk create,
    which runs the schema validation only and never the type/subtype
    check. *)
Theorem createBulkEdges_accepts_invalid_subtype :
  (∃ e, validate_relationship_logic RelationshipType.parent_child
          RelationshipSubtype.brother = Throw e ∧ InvalidSubtype e)
  ∧ (∃ e, createEdge family_db (Some admin_user)
            (request 3 4 RelationshipType.parent_child RelationshipSubtype.brother)
          = Throw e ∧ InvalidSubtype e)
  ∧ ∃ db' resp,
      createBulkEdges family_db (Some admin_user)
        [request 3 4 RelationshipType.parent_child RelationshipSubtype.brother]
      = Ok (db', resp)
      ∧ edge 6 3 4 RelationshipType.parent_child RelationshipSubtype.brother
          ∈ relationships db'
      ∧ field "message" (body resp)
        = Some (JsString "Created 1 new relationships").
Proof.
  split; [eexists; split; [reflexivity | by eexists]|].
  split; [eexists; split; [by vm_compute | by eexists]|].
  eexists _, _. split; [by vm_compute|]. simpl.
  split; [|reflexivity]. apply (bool_decide_unpack _). vm_compute. exact I.
Qed.

(** ** The sample family, evaluated *)

Example family_db_parents : Person.id <$> deriveParents family_db 3 = [1; 2].
Proof. by vm_compute. Qed.

Example family_db_children : Person.id <$> deriveChildren family_db 2 = [3; 4].
Proof. by vm_compute. Qed.

Example family_db_siblings : Person.id <$> deriveSiblings family_db 3 = [4].
Proof. by vm_compute. Qed.

Example family_db_spouses :
  (λ row, Person.id (spouse row)) <$> deriveSpouses family_db 2 = [1].
Proof. by vm_compute. Qed.

Example family_db_duplicate_same_direction :
  createEdge family_db (Some admin_user)
    (request 1 3 RelationshipType.parent_child RelationshipSubtype.father)
  = Throw (createValidationError "relationship" "This relationship already exists").
Proof. by vm_compute. Qed.

Example family_db_non_admin :
  createEdge family_db (Some member_user)
    (request 3 4 RelationshipType.sibling RelationshipSubtype.brother)
  = Throw TypeError.
Proof. by vm_compute. Qed.

(** * Properties of the further routes *)

(** ** Single create, continued *)

Lemma select_persons_in_persons db db' ids :
  persons db' = persons db → select_persons_in db' ids = select_persons_in db ids.
Proof. unfold select_persons_in. by intros ->. Qed.

Lemma check_edit_access_grants db db' u person message :
  user_family_permissions db' = user_family_permissions db →
  check_edit_access db' u person message = check_edit_access db u person message.
Proof.
  intros Hg. unfold check_edit_access. destruct person as [[i f]|]; [|done].
  by destruct (truthy f).
Qed.

Lemma check_permissions_grants db db' u person1 person2 :
  user_family_permissions db' = user_family_permissions db →
  check_permissions db' u person1 person2 = check_permissions db u person1 person2.
Proof.
  intros Hg. unfold check_permissions.
  by rewrite !(check_edit_access_grants db db').
Qed.

(** The single create, step by step, once a user is authenticated. *)
Lemma createEdge_steps db u value :
  let a := CreateRelationshipRequest.person1_id value in
  let b := CreateRelationshipRequest.person2_id value in
  let t := CreateRelationshipRequest.relationship_type value in
  let persons := select_persons_in db [a; b] in
  createEdge db (Some u) value
  = if decide (length persons ≠ 2%nat) then
      Throw (createNotFoundError "One or both persons not found")
    else
      match check_permissions db u (find (λ p, p.1 = a) persons)
              (find (λ p, p.1 = b) persons) with
      | Throw e => Throw e
      | Ok _ =>
          if decide (0 < length (select_existing db a b t))%nat then
            Throw (createValidationError "relationship"
                     "This relationship already exists")
          else
            match validate_relationship_logic t
                    (CreateRelationshipRequest.relationship_subtype value) with
            | Throw e => Throw e
            | Ok _ =>
                match insert_relationship db value with
                | Throw e => Throw e
                | Ok (db', insertId) =>
                    Ok (db', mkResponse 201
                               [("relationship",
                                 of_row (nth0 (select_relationship_row db' insertId)))])
                end
            end
      end.
Proof.
  intros a b t persons. unfold createEdge. simpl. fold a b t persons.
  destruct (decide (length persons ≠ 2%nat)); [done|].
  destruct (check_permissions _ _ _ _) as [[]|]; simpl; [|done].
  destruct (decide _); [done|].
  destruct (validate_relationship_logic _ _) as [[]|]; simpl; [|done].
  by destruct (insert_relationship db value) as [[db' i]|].
Qed.

Lemma find_row_pk db ids p :
  persons_pk db → p ∈ persons db → Person.id p ∈ ids →
  find (λ q, q.1 = Person.id p) (select_persons_in db ids)
  = Some (Person.id p, Person.family_id p).
Proof.
  intros Hpk Hp Hid. unfold find. apply head_all_eq.
  - apply list_elem_of_filter. split; [done|].
    unfold select_persons_in.
    apply (list_elem_of_fmap_2 (λ p, (Person.id p, Person.family_id p))).
    by apply list_elem_of_filter.
  - intros y [Hy Hin]%list_elem_of_filter.
    unfold select_persons_in in Hin.
    apply list_elem_of_fmap in Hin as (q & -> & [_ Hq]%list_elem_of_filter).
    simpl in Hy. by rewrite (pk_inj db q p).
Qed.

Lemma select_persons_in_two db a b :
  persons_pk db → length (select_persons_in db [a; b]) = 2%nat →
  a ≠ b
  ∧ (∃ pa, pa ∈ persons db ∧ Person.id pa = a)
  ∧ (∃ pb, pb ∈ persons db ∧ Person.id pb = b).
Proof.
  intros Hpk Hlen.
  pose proof (select_persons_in_distinct db a b Hpk Hlen) as Hne.
  assert (Hnd : NoDup [a; b]).
  { apply NoDup_cons. split; [by intros ->%list_elem_of_singleton|].
    apply NoDup_singleton. }
  pose proof (select_persons_in_all db [a; b] Hpk Hnd Hlen) as Hall.
  split; [done|].
  split; apply elem_of_ids, Hall; [left | right; left].
Qed.

(** The permission check on a found person never reaches a decision: for a
    person with a family the call of the imported helper throws, and for a
    person without family nothing is checked. *)
Lemma check_edit_access_found db u i f message :
  check_edit_access db u (Some (i, f)) message
  = match truthy f with
    | Some _ => Throw TypeError
    | None => Ok ()
    end.
Proof. unfold check_edit_access. by destruct (truthy f). Qed.

Lemma select_persons_in_pair db pa pb :
  persons_pk db → pa ∈ persons db → pb ∈ persons db →
  Person.id pa ≠ Person.id pb →
  length (select_persons_in db [Person.id pa; Person.id pb]) = 2%nat.
Proof.
  intros Hpk Hpa Hpb Hne. unfold select_persons_in. rewrite length_fmap.
  assert (Hperm : filter (λ p, Person.id p ∈ [Person.id pa; Person.id pb])
                    (persons db) ≡ₚ [pa; pb]).
  { apply NoDup_Permutation.
    - apply NoDup_filter. by apply (NoDup_fmap_1 Person.id).
    - apply NoDup_cons. split; [|apply NoDup_singleton].
      intros ->%list_elem_of_singleton. done.
    - intros x. rewrite list_elem_of_filter, !elem_of_cons, !elem_of_nil.
      split.
      + intros [[Hx|[Hx|[]]] Hin]; [left | right; left];
          by apply (pk_inj db).
      + intros [->|[->|[]]]; (split; [|done]); [by left | right; by left]. }
  by rewrite Hperm.
Qed.

Lemma createEdge_db db user value db' resp :
  createEdge db user value = Ok (db', resp) →
  db' = mkDB (users db) (families db) (persons db)
          (relationships db ++
             [Relationship.mk (relationships_auto_increment db)
                (CreateRelationshipRequest.person1_id value)
                (CreateRelationshipRequest.person2_id value)
                (CreateRelationshipRequest.relationship_type value)
                (CreateRelationshipRequest.relationship_subtype value)
                (CreateRelationshipRequest.marriage_date value)
                (CreateRelationshipRequest.divorce_date value) true])
          (relationships_auto_increment db + 1)
          (user_family_permissions db).
Proof.
  intros (_ & _ & _ & _ & Hins)%createEdge_Ok.
  by apply insert_relationship_db in Hins.
Qed.

(** X1.  With the primary key on persons and the auto-increment counter
    above every stored edge id, a successful single create appends exactly
    the requested edge, active and numbered by the counter, leaves every
    other table alone, and answers 201 with that edge and the names of its
    two persons. *)
Theorem createEdge_created db user value db' resp :
  persons_pk db → relationships_id_fresh db →
  createEdge db user value = Ok (db', resp) →
  let new :=
    Relationship.mk (relationships_auto_increment db)
      (CreateRelationshipRequest.person1_id value)
      (CreateRelationshipRequest.person2_id value)
      (CreateRelationshipRequest.relationship_type value)
      (CreateRelationshipRequest.relationship_subtype value)
      (CreateRelationshipRequest.marriage_date value)
      (CreateRelationshipRequest.divorce_date value) true in
  db' = mkDB (users db) (families db) (persons db)
          (relationships db ++ [new])
          (relationships_auto_increment db + 1) (user_family_permissions db)
  ∧ ∃ pa pb,
      pa ∈ persons db
      ∧ Person.id pa = CreateRelationshipRequest.person1_id value
      ∧ pb ∈ persons db
      ∧ Person.id pb = CreateRelationshipRequest.person2_id value
      ∧ resp = mkResponse 201
                 [("relationship",
                   JsRelationship
                     (mkRelationshipRow new
                        (Person.first_name pa) (Person.last_name pa)
                        (Person.first_name pb) (Person.last_name pb)))].
Proof.
  intros Hpk Hfresh Hok new.
  destruct user as [u|]; [|done]. rewrite createEdge_steps in Hok.
  destruct (decide (length _ ≠ 2%nat)) as [|Hlen]; [done|].
  apply dec_stable in Hlen.
  destruct (check_permissions _ _ _ _) as [[]|]; [|done].
  destruct (decide _); [done|].
  destruct (validate_relationship_logic _ _) as [[]|]; [|done].
  destruct (insert_relationship db value) as [[db1 i]|] eqn:Hins; [|done].
  injection Hok as -> <-.
  pose proof (insert_relationship_db _ _ _ _ Hins) as Hdb.
  apply insert_relationship_Ok in Hins as (_ & _ & _ & -> & _).
  split; [done|].
  apply select_persons_in_two in Hlen as (_ & (pa & Hpa & Ha) & (pb & Hpb & Hb));
    [|done].
  exists pa, pb. repeat (split; [done|]). do 3 f_equal.
  fold new in Hdb.
  change (relationships_auto_increment db) with (Relationship.id new).
  rewrite (select_relationship_row_head db' new pa pb); try done;
    rewrite Hdb; simpl; try done.
  - apply elem_of_app. right. left.
  - intros r' [Hold | ->%list_elem_of_singleton]%elem_of_app Hid; [|done].
    unfold relationships_id_fresh in Hfresh. rewrite Forall_forall in Hfresh.
    specialize (Hfresh r' Hold). lia.
Qed.

Lemma createEdge_created_witness :
  ∃ db' resp,
    createEdge family_db (Some admin_user)
      (request 5 4 RelationshipType.spouse RelationshipSubtype.husband)
    = Ok (db', resp)
    ∧ db' = family_db_married.
Proof.
  assert (∃ db' resp, createEdge family_db (Some admin_user)
            (request 5 4 RelationshipType.spouse RelationshipSubtype.husband)
          = Ok (db', resp)) as (db' & resp & Hcreated)
    by (eexists _, _; reflexivity).
  exists db', resp. split; [exact Hcreated|].
  destruct (createEdge_created family_db (Some admin_user)
              (request 5 4 RelationshipType.spouse RelationshipSubtype.husband)
              db' resp family_db_pk family_db_fresh Hcreated) as [-> _].
  reflexivity.
Defined.

(** X2.  A create that succeeded cannot be repeated: the same user asking
    again for an edge with the same endpoints in the same order and the same
    type, whatever the subtype and dates, is answered
    [DuplicateRelationship]. *)
Theorem createEdge_repeat_rejected db u value db' resp value' :
  createEdge db (Some u) value = Ok (db', resp) →
  request_key value' = request_key value →
  ∃ e, createEdge db' (Some u) value' = Throw e ∧ DuplicateRelationship e.
Proof.
  intros Hok [= Ha Hb Ht]. rewrite createEdge_steps in Hok.
  destruct (decide (length _ ≠ 2%nat)) as [|Hlen]; [done|].
  destruct (check_permissions _ _ _ _) as [[]|] eqn:Hperm; [|done].
  destruct (decide _); [done|].
  destruct (validate_relationship_logic _ _) as [[]|]; [|done].
  destruct (insert_relationship db value) as [[db1 i]|] eqn:Hins; [|done].
  injection Hok as -> <-.
  apply insert_relationship_Ok in Hins
    as (_ & _ & _ & _ & Hpersons & Hgrants & Hrels).
  eexists. split; [|done]. rewrite createEdge_steps.
  rewrite Ha, Hb, Ht, (select_persons_in_persons db db') by done.
  rewrite decide_False by done.
  rewrite (check_permissions_grants db db'), Hperm by done.
  rewrite decide_True; [done|].
  unfold select_existing. rewrite Hrels, filter_app, length_app.
  rewrite filter_cons_True by done. simpl. lia.
Qed.

Lemma createEdge_repeat_rejected_witness :
  ∃ e, createEdge family_db_married (Some admin_user)
         (request 5 4 RelationshipType.spouse RelationshipSubtype.ex_husband)
       = Throw e ∧ DuplicateRelationship e.
Proof.
  assert (∃ resp, createEdge family_db (Some admin_user)
            (request 5 4 RelationshipType.spouse RelationshipSubtype.husband)
          = Ok (family_db_married, resp)) as [resp Hcreated]
    by (eexists; reflexivity).
  apply (createEdge_repeat_rejected family_db admin_user
           (request 5 4 RelationshipType.spouse RelationshipSubtype.husband)
           family_db_married resp
           (request 5 4 RelationshipType.spouse RelationshipSubtype.ex_husband)
           Hcreated).
  reflexivity.
Defined.

Lemma bind_Throw {A B} (m : Result A) (f : A → Result B) e :
  m ≫= f = Throw e → m = Throw e ∨ ∃ a, m = Ok a ∧ f a = Throw e.
Proof.
  destruct m as [a|e']; [right; by exists a|].
  intros [= <-]. by left.
Qed.

(** X3.  How the single create fails.  With the primary key on persons
    it fails only with "Authentication required" (no user), [NotFound],
    [DuplicateRelationship], [InvalidSubtype] or a [TypeError]; it never
    answers "Edit access required ..." and never runs into an error of the
    database, as its checks make the insert safe.  The [TypeError] is that
    of calling the helper which [families.ts] does not export, and it is
    thrown exactly when a user who is not a global admin names two distinct
    stored persons of whom one has a family: such a user can only ever
    connect persons without family. *)
Theorem createEdge_failures db user value :
  persons_pk db →
  (∀ e, createEdge db user value = Throw e →
     (user = None ∧ e = createForbiddenError "Authentication required")
     ∨ NotFound e ∨ DuplicateRelationship e ∨ InvalidSubtype e
     ∨ e = TypeError)
  ∧ (createEdge db user value = Throw TypeError
     ↔ ∃ u pa pb,
         user = Some u ∧ User.role u ≠ UserRole.admin
         ∧ pa ∈ persons db
         ∧ Person.id pa = CreateRelationshipRequest.person1_id value
         ∧ pb ∈ persons db
         ∧ Person.id pb = CreateRelationshipRequest.person2_id value
         ∧ Person.id pa ≠ Person.id pb
         ∧ (truthy (Person.family_id pa) ≠ None
            ∨ truthy (Person.family_id pb) ≠ None)).
Proof.
  intros Hpk.
  assert (Hcases : ∀ u e, user = Some u →
    createEdge db user value = Throw e →
    NotFound e ∨ DuplicateRelationship e ∨ InvalidSubtype e
    ∨ (e = TypeError
       ∧ ∃ pa pb,
           User.role u ≠ UserRole.admin
           ∧ pa ∈ persons db
           ∧ Person.id pa = CreateRelationshipRequest.person1_id value
           ∧ pb ∈ persons db
           ∧ Person.id pb = CreateRelationshipRequest.person2_id value
           ∧ Person.id pa ≠ Person.id pb
           ∧ (truthy (Person.family_id pa) ≠ None
              ∨ truthy (Person.family_id pb) ≠ None))).
  { intros u e -> Hthrow. rewrite createEdge_steps in Hthrow.
    destruct (decide (length _ ≠ 2%nat)) as [|Hlen];
      [injection Hthrow as <-; left; by eexists|].
    apply dec_stable in Hlen.
    destruct (select_persons_in_two _ _ _ Hpk Hlen)
      as (Hne & (pa & Hpa & Ha) & (pb & Hpb & Hb)).
    pose proof (find_row_pk db
      [CreateRelationshipRequest.person1_id value;
       CreateRelationshipRequest.person2_id value] pa Hpk Hpa) as Hfa.
    pose proof (find_row_pk db
      [CreateRelationshipRequest.person1_id value;
       CreateRelationshipRequest.person2_id value] pb Hpk Hpb) as Hfb.
    rewrite Ha in Hfa. rewrite Hb in Hfb.
    rewrite Hfa, Hfb in Hthrow by (try left; right; left).
    destruct (check_permissions _ _ _ _) as [[]|e1] eqn:Hperm.
    - destruct (decide _);
        [injection Hthrow as <-; right; by left|].
      destruct (validate_relationship_logic _ _) as [[]|e2] eqn:Hval.
      + destruct (insert_relationship_succeeds db value) as [db1 Hins].
        * destruct (select_existing _ _ _ _); [done | simpl in *; lia].
        * apply elem_of_ids. by exists pa.
        * apply elem_of_ids. by exists pb.
        * by rewrite Hins in Hthrow.
      + injection Hthrow as <-. right. right. left.
        by eapply validate_relationship_logic_Throw.
    - injection Hthrow as <-. right. right. right.
      unfold check_permissions in Hperm.
      destruct (decide (User.role u ≠ _)) as [Hrole|]; [|done].
      rewrite !check_edit_access_found in Hperm.
      assert (Hids : Person.id pa ≠ Person.id pb) by congruence.
      destruct (truthy (Person.family_id pa)) as [fa|] eqn:Hta.
      + injection Hperm as <-. split; [done|]. exists pa, pb.
        repeat (split; [done|]). left. congruence.
      + destruct (truthy (Person.family_id pb)) as [fb|] eqn:Htb; [|done].
        injection Hperm as <-. split; [done|]. exists pa, pb.
        repeat (split; [done|]). right. congruence. }
  split.
  - intros e Hthrow. destruct user as [u|].
    + destruct (Hcases u e eq_refl Hthrow) as [?|[?|[?|[? _]]]]; auto.
    + injection Hthrow as <-. by left.
  - split.
    + intros Hthrow. destruct user as [u|]; [|done].
      destruct (Hcases u _ eq_refl Hthrow)
        as [[m Hm]|[Hd|[[m Hm]|[_ (pa & pb & ?)]]]]; [done|done|done|].
      by exists u, pa, pb.
    + intros (u & pa & pb & -> & Hrole & Hpa & Ha & Hpb & Hb & Hne & Hfam).
      rewrite createEdge_steps, <- Ha, <- Hb.
      rewrite decide_False
        by (intros Hx; apply Hx; by apply select_persons_in_pair).
      rewrite !find_row_pk by (try done; try left; right; left).
      unfold check_permissions. rewrite decide_True by done.
      rewrite !check_edit_access_found.
      destruct (truthy (Person.family_id pa)); [done|].
      destruct (truthy (Person.family_id pb)); [done|]. by destruct Hfam.
Qed.

Lemma createEdge_failures_witness :
  createEdge family_db (Some member_user)
    (request 3 4 RelationshipType.sibling RelationshipSubtype.brother)
  = Throw TypeError.
Proof.
  apply (createEdge_failures family_db (Some member_user)
           (request 3 4 RelationshipType.sibling RelationshipSubtype.brother)
           family_db_pk).
  exists member_user,
    (person 3 "Cen" "Zhupani" Gender.male None (Some 1)),
    (person 4 "Dita" "Zhupani" Gender.female (Some 17000) (Some 1)).
  split; [reflexivity|]. split; [discriminate|].
  split; [by apply (bool_decide_unpack _)|]. split; [reflexivity|].
  split; [by apply (bool_decide_unpack _)|]. split; [reflexivity|].
  split; [discriminate|]. left. discriminate.
Defined.

(** ** Bulk create, continued *)

(** X4.  The bulk create is all-or-nothing on missing persons: with the
    primary key on persons in force, if any request of the batch names a
    person that is not stored, the whole batch is answered [NotFound] and
    nothing is written, whatever else the batch contains. *)
Theorem createBulkEdges_missing_person db u batch rel :
  persons_pk db →
  rel ∈ batch →
  CreateRelationshipRequest.person1_id rel ∉ Person.id <$> persons db
  ∨ CreateRelationshipRequest.person2_id rel ∉ Person.id <$> persons db →
  createBulkEdges db (Some u) batch
  = Throw (createNotFoundError "One or more persons not found").
Proof.
  intros Hpk Hrel Hmissing. unfold createBulkEdges. simpl.
  rewrite decide_False by (by destruct batch; [apply elem_of_nil in Hrel|]).
  rewrite decide_True; [done|]. intros Hlen.
  pose proof (select_persons_in_all db _ Hpk (set_values_NoDup _) Hlen) as Hall.
  destruct Hmissing as [Hm | Hm]; apply Hm, Hall, elem_of_set_values,
    list_elem_of_bind; exists rel; (split; [|done]); [left | right; left].
Qed.

Lemma createBulkEdges_missing_person_witness :
  createBulkEdges family_db (Some admin_user)
    [request 3 4 RelationshipType.sibling RelationshipSubtype.brother;
     request 1 9 RelationshipType.parent_child RelationshipSubtype.father]
  = Throw (createNotFoundError "One or more persons not found").
Proof.
  apply (createBulkEdges_missing_person family_db admin_user _
           (request 1 9 RelationshipType.parent_child RelationshipSubtype.father)).
  - exact family_db_pk.
  - right. left.
  - right. apply (bool_decide_unpack _). vm_compute. exact I.
Defined.

Lemma bulk_insert_db rels : ∀ db created db' created',
  bulk_insert db rels created = Ok (db', created') →
  users db' = users db ∧ families db' = families db
  ∧ persons db' = persons db
  ∧ user_family_permissions db' = user_family_permissions db
  ∧ (∀ k, k ∈ edge_key <$> relationships db → k ∈ edge_key <$> relationships db')
  ∧ (∀ rel, rel ∈ rels → request_key rel ∈ edge_key <$> relationships db').
Proof.
  induction rels as [|rel rels IH]; intros db created db' created'; simpl.
  - intros [= <- _]. repeat split; try done. by intros rel ?%elem_of_nil.
  - assert (Hkey : select_existing db (CreateRelationshipRequest.person1_id rel)
                     (CreateRelationshipRequest.person2_id rel)
                     (CreateRelationshipRequest.relationship_type rel) ≠ [] →
                   request_key rel ∈ edge_key <$> relationships db).
    { intros Hne. destruct (decide (request_key rel ∈ edge_key <$> relationships db))
        as [|Hnot]; [done|]. by apply select_existing_nil in Hnot. }
    destruct (decide (length _ = 0%nat)) as [Hnone|Hsome].
    + destruct (insert_relationship db rel) as [[db1 i]|] eqn:Hins; [|done].
      intros (Hu & Hf & Hp & Hg & Hmono & Hall)%IH.
      pose proof (insert_relationship_db _ _ _ _ Hins) as Hdb.
      assert (Hmono1 : ∀ k, k ∈ edge_key <$> relationships db →
                            k ∈ edge_key <$> relationships db').
      { intros k Hk. apply Hmono. rewrite Hdb. simpl.
        rewrite fmap_app. apply elem_of_app. by left. }
      rewrite Hdb in Hu, Hf, Hp, Hg. simpl in *. repeat split; try done.
      intros r [->|Hr]%elem_of_cons; [|by apply Hall].
      apply Hmono. rewrite Hdb. simpl. rewrite fmap_app.
      apply elem_of_app. right. left.
    + intros (Hu & Hf & Hp & Hg & Hmono & Hall)%IH. repeat split; try done.
      intros r [->|Hr]%elem_of_cons; [|by apply Hall].
      apply Hmono, Hkey. intros Hnil. by rewrite Hnil in Hsome.
Qed.

Lemma bulk_insert_nothing_new rels : ∀ db created,
  (∀ rel, rel ∈ rels → request_key rel ∈ edge_key <$> relationships db) →
  bulk_insert db rels created = Ok (db, created).
Proof.
  induction rels as [|rel rels IH]; intros db created Hall; simpl; [done|].
  rewrite decide_False.
  - apply IH. intros r Hr. apply Hall. by right.
  - intros Hnone%length_zero_iff_nil. apply select_existing_nil in Hnone.
    apply Hnone, (Hall rel). left.
Qed.

Lemma bulk_check_edit_access_grants db db' u persons :
  user_family_permissions db' = user_family_permissions db →
  bulk_check_edit_access db' u persons = bulk_check_edit_access db u persons.
Proof.
  intros Hg. induction persons as [|person rest IH]; [done|].
  cbn [bulk_check_edit_access].
  by rewrite (check_edit_access_grants db db'), IH.
Qed.

(** X5.  The bulk create is idempotent: once a batch has gone through, the
    same user sending the same batch again gets 201 with no created rows
    and the message for zero, and the database is left as it is. *)
Theorem createBulkEdges_idempotent db u batch db' resp :
  createBulkEdges db (Some u) batch = Ok (db', resp) →
  createBulkEdges db' (Some u) batch
  = Ok (db', mkResponse 201
               [("relationships", JsRelationships []);
                ("message", JsString "Created 0 new relationships")]).
Proof.
  unfold createBulkEdges. simpl.
  destruct (decide (length batch = 0%nat)); [done|].
  destruct (decide (length _ ≠ length _)) as [|Hlen]; [done|].
  destruct (bulk_check_permissions _ _ _) as [[]|] eqn:Hperm; [|done]. simpl.
  destruct (bulk_insert db batch []) as [[db1 created]|] eqn:Hins; [|done].
  simpl. intros [= <- _].
  apply bulk_insert_db in Hins as (_ & _ & Hp & Hg & _ & Hall).
  rewrite (select_persons_in_persons db db1) by done.
  rewrite decide_False by done.
  assert (bulk_check_permissions db1 u
            (select_persons_in db
               (set_values (batch ≫= λ r,
                  [CreateRelationshipRequest.person1_id r;
                   CreateRelationshipRequest.person2_id r])))
          = Ok ()) as ->.
  { rewrite <- Hperm. unfold bulk_check_permissions.
    destruct (decide _); [|done]. by apply bulk_check_edit_access_grants. }
  simpl. by rewrite bulk_insert_nothing_new.
Qed.

Lemma createBulkEdges_idempotent_witness :
  ∃ db',
    createBulkEdges db' (Some admin_user)
      [request 1 2 RelationshipType.spouse RelationshipSubtype.husband;
       request 3 4 RelationshipType.sibling RelationshipSubtype.brother]
    = Ok (db', mkResponse 201
                 [("relationships", JsRelationships []);
                  ("message", JsString "Created 0 new relationships")])
    ∧ length (relationships db') = 6%nat.
Proof.
  assert (∃ db' resp, createBulkEdges family_db (Some admin_user)
      [request 1 2 RelationshipType.spouse RelationshipSubtype.husband;
       request 3 4 RelationshipType.sibling RelationshipSubtype.brother]
    = Ok (db', resp) ∧ length (relationships db') = 6%nat)
    as (db' & resp & Hfirst & Hlen)
    by (eexists _, _; split; reflexivity).
  exists db'. split; [|exact Hlen].
  exact (createBulkEdges_idempotent family_db admin_user _ db' resp Hfirst).
Defined.

(** ** The derived views read only the persons and the edge keys *)

Lemma parent_edge_key db q c :
  parent_edge db q c
  ↔ (q, c, RelationshipType.parent_child) ∈ edge_key <$> relationships db.
Proof.
  unfold parent_edge. rewrite list_elem_of_fmap. split.
  - intros (r & Hr & <- & <- & <-). by exists r.
  - intros (r & [= -> -> Ht] & Hr). by exists r.
Qed.

Lemma relationships_fk_keys db :
  relationships_fk db
  ↔ ∀ k, k ∈ edge_key <$> relationships db →
         k.1.1 ∈ Person.id <$> persons db ∧ k.1.2 ∈ Person.id <$> persons db.
Proof.
  unfold relationships_fk. rewrite Forall_forall. split.
  - intros Hfk k (r & -> & Hr)%list_elem_of_fmap. by apply Hfk.
  - intros Hk r Hr. apply (Hk (edge_key r)). by apply list_elem_of_fmap_2.
Qed.

Section ViewsKeys.
Context `{Collation}.

Lemma ids_deriveSpouses db a b :
  b ∈ (λ row, Person.id (spouse row)) <$> deriveSpouses db a
  ↔ b ≠ a ∧ b ∈ Person.id <$> persons db
    ∧ ∃ x y, (x, y, RelationshipType.spouse) ∈ edge_key <$> relationships db
             ∧ (b = x ∨ b = y) ∧ (x = a ∨ y = a).
Proof.
  rewrite list_elem_of_fmap. split.
  - intros (row & -> & (r & Hr & Hp & _ & Hon & Ha & Hty & Hne)%elem_of_deriveSpouses).
    split; [done|]. split; [by apply list_elem_of_fmap_2|].
    exists (Relationship.person1_id r), (Relationship.person2_id r).
    split; [|done]. rewrite <- Hty. by apply (list_elem_of_fmap_2 edge_key).
  - intros (Hne & (p & Hp & <-)%elem_of_ids & x & y
              & (r & [= -> -> Hty] & Hr)%list_elem_of_fmap & Hon & Ha).
    exists (mkSpouseRow p (Relationship.relationship_subtype r)
              (Relationship.marriage_date r) (Relationship.divorce_date r)).
    split; [done|]. apply elem_of_deriveSpouses. by exists r.
Qed.

(** Two databases with the same persons and the same set of edge keys have
    the same parents, children and siblings for everybody, and the same
    spouses up to the edge columns shown with them. *)
Lemma derived_views_keys db db' :
  persons db' = persons db →
  (∀ k, k ∈ edge_key <$> relationships db' ↔ k ∈ edge_key <$> relationships db) →
  ∀ a,
    (∀ p, p ∈ deriveParents db' a ↔ p ∈ deriveParents db a)
    ∧ (∀ p, p ∈ deriveChildren db' a ↔ p ∈ deriveChildren db a)
    ∧ (∀ p, p ∈ deriveSiblings db' a ↔ p ∈ deriveSiblings db a)
    ∧ (∀ b, b ∈ (λ row, Person.id (spouse row)) <$> deriveSpouses db' a
            ↔ b ∈ (λ row, Person.id (spouse row)) <$> deriveSpouses db a).
Proof.
  intros Hp Hk a.
  assert (Hedge : ∀ q c, parent_edge db' q c ↔ parent_edge db q c).
  { intros q c. by rewrite !parent_edge_key, Hk. }
  split; [|split; [|split]].
  - intros p. by rewrite !elem_of_deriveParents, Hp, Hedge.
  - intros p. by rewrite !elem_of_deriveChildren, Hp, Hedge.
  - intros p. rewrite !elem_of_deriveSiblings, Hp.
    by setoid_rewrite Hedge.
  - intros b. rewrite !ids_deriveSpouses, Hp. by setoid_rewrite Hk.
Qed.

End ViewsKeys.

(** ** Updating and deleting an edge *)

Lemma updateRelationship_Ok db user relationshipId value db' resp :
  updateRelationship db user relationshipId value = Ok (db', resp) →
  select_relationship db relationshipId ≠ []
  ∧ ¬ no_update_fields value
  ∧ db' = update_relationship db relationshipId value.
Proof.
  unfold updateRelationship. intros (u & _ & Hrest)%bind_Ok.
  destruct (select_relationship db relationshipId) as [|r rs]; [done|].
  split; [done|]. apply bind_Ok in Hrest as (_ & _ & Hrest).
  destruct (decide (no_update_fields value)); [done|].
  by injection Hrest as <- _.
Qed.

Lemma update_relationship_keys db relationshipId value :
  edge_key <$> relationships (update_relationship db relationshipId value)
  = edge_key <$> relationships db
  ∧ Relationship.id <$> relationships (update_relationship db relationshipId value)
    = Relationship.id <$> relationships db.
Proof.
  simpl. rewrite <- !list_fmap_compose.
  split; apply list_fmap_ext; intros i r _; simpl; by destruct (decide _).
Qed.

Section UpdateFacts.
Context `{Collation}.

(** X6.  An update never touches the graph: after a successful update the
    persons, the grants, and the id, endpoints and type of every edge are as
    before, so the schema's constraints still hold and everybody has the
    same parents, children, siblings and spouses (only the order of parents
    and the columns shown with a spouse can change). *)
Theorem updateRelationship_keeps_graph db user relationshipId value db' resp :
  updateRelationship db user relationshipId value = Ok (db', resp) →
  persons db' = persons db
  ∧ user_family_permissions db' = user_family_permissions db
  ∧ Relationship.id <$> relationships db' = Relationship.id <$> relationships db
  ∧ edge_key <$> relationships db' = edge_key <$> relationships db
  ∧ (unique_relationship db → unique_relationship db')
  ∧ (relationships_fk db → relationships_fk db')
  ∧ ∀ a,
      (∀ p, p ∈ deriveParents db' a ↔ p ∈ deriveParents db a)
      ∧ (∀ p, p ∈ deriveChildren db' a ↔ p ∈ deriveChildren db a)
      ∧ (∀ p, p ∈ deriveSiblings db' a ↔ p ∈ deriveSiblings db a)
      ∧ (∀ b, b ∈ (λ row, Person.id (spouse row)) <$> deriveSpouses db' a
              ↔ b ∈ (λ row, Person.id (spouse row)) <$> deriveSpouses db a).
Proof.
  intros (_ & _ & ->)%updateRelationship_Ok.
  destruct (update_relationship_keys db relationshipId value) as [Hkeys Hids].
  split; [done|]. split; [done|]. split; [done|]. split; [done|].
  split; [|split].
  - unfold unique_relationship. by rewrite Hkeys.
  - rewrite !relationships_fk_keys. by rewrite Hkeys.
  - apply derived_views_keys; [done|]. intros k. by rewrite Hkeys.
Qed.

End UpdateFacts.

Lemma updateRelationship_keeps_graph_witness :
  ∃ db',
    select_relationship db' 2
    = [edge 2 1 3 RelationshipType.parent_child RelationshipSubtype.mother]
    ∧ ∀ p, p ∈ deriveParents db' 3 ↔ p ∈ deriveParents family_db 3.
Proof.
  assert (∃ db' resp,
            updateRelationship family_db (Some admin_user) 2
              (UpdateRelationshipRequest.mk (Some RelationshipSubtype.mother)
                 None None None) = Ok (db', resp)
            ∧ select_relationship db' 2
              = [edge 2 1 3 RelationshipType.parent_child
                   RelationshipSubtype.mother])
    as (db' & resp & Hupdated & Hrow)
    by (eexists _, _; split; reflexivity).
  exists db'. split; [exact Hrow|].
  destruct (updateRelationship_keeps_graph family_db (Some admin_user) 2
              (UpdateRelationshipRequest.mk (Some RelationshipSubtype.mother)
                 None None None) db' resp Hupdated)
    as (_ & _ & _ & _ & _ & _ & Hviews).
  apply (Hviews 3).
Defined.

Lemma check_edit_access_message db u person message message' :
  check_edit_access db u person message = Ok () →
  check_edit_access db u person message' = Ok ().
Proof.
  unfold check_edit_access. destruct person as [[i f]|]; [|done].
  by destruct (truthy f).
Qed.

Lemma check_edit_access_each_Ok db u persons message :
  (∀ row, row ∈ persons → check_edit_access db u (Some row) message = Ok ()) →
  check_edit_access_each db u persons message = Ok ().
Proof.
  induction persons as [|row rest IH]; [done|]. intros Hall.
  cbn [check_edit_access_each]. rewrite (Hall row) by left. simpl.
  apply IH. intros r Hr. apply Hall. by right.
Qed.

Lemma check_edit_access_each_inv db u persons message :
  check_edit_access_each db u persons message = Ok () →
  ∀ row, row ∈ persons → check_edit_access db u (Some row) message = Ok ().
Proof.
  induction persons as [|x l IH]; [by intros _ ? ?%elem_of_nil|].
  cbn [check_edit_access_each]. intros ([] & Hx & Hl)%bind_Ok.
  intros row [->|Hrow]%elem_of_cons; [done | by apply IH].
Qed.

(** Under the primary key, the permission block of the single create
    covers every row of its person lookup. *)
Lemma check_permissions_each db u a b message :
  persons_pk db →
  check_permissions db u (find (λ p, p.1 = a) (select_persons_in db [a; b]))
    (find (λ p, p.1 = b) (select_persons_in db [a; b])) = Ok () →
  User.role u ≠ UserRole.admin →
  check_edit_access_each db u (select_persons_in db [a; b]) message = Ok ().
Proof.
  intros Hpk Hperm Hrole. apply check_edit_access_each_Ok. intros row Hrow.
  unfold check_permissions in Hperm. rewrite decide_True in Hperm by done.
  apply bind_Ok in Hperm as ([] & H1 & H2).
  unfold select_persons_in in Hrow.
  apply list_elem_of_fmap in Hrow as (p & -> & [Hid Hp]%list_elem_of_filter).
  apply elem_of_cons in Hid as [Hid | Hid%list_elem_of_singleton].
  - rewrite <- Hid, find_row_pk in H1 by (try done; rewrite Hid; left).
    by eapply check_edit_access_message.
  - rewrite <- Hid, find_row_pk in H2 by (try done; rewrite Hid; right; left).
    by eapply check_edit_access_message.
Qed.

Lemma fresh_filter_new db (new : Relationship.t) :
  relationships_id_fresh db →
  Relationship.id new = relationships_auto_increment db →
  filter (λ r, Relationship.id r = relationships_auto_increment db)
    (relationships db ++ [new])%list = [new]
  ∧ filter (λ r, Relationship.id r ≠ relationships_auto_increment db)
      (relationships db ++ [new])%list = relationships db.
Proof.
  unfold relationships_id_fresh. rewrite Forall_forall. intros Hfresh Hnew.
  rewrite !filter_app, filter_cons_True, filter_cons_False, !filter_nil
    by (rewrite ?Hnew; tauto).
  rewrite app_nil_r. split.
  - rewrite filter_none; [done|]. intros r Hr Hid. specialize (Hfresh r Hr). lia.
  - clear Hnew. induction (relationships db) as [|r l IH]; [done|].
    rewrite filter_cons_True.
    + f_equal. apply IH. intros x Hx. apply Hfresh. by right.
    + assert (Hr : r ∈ r :: l) by left. specialize (Hfresh r Hr). lia.
Qed.

(** X7.  Create and delete are inverse on the edge table: with the primary
    key on persons and the counter above every stored id, the user who
    created an edge can delete it under the returned id, and doing so gives
    back the stored edges exactly as they were before the create, the
    persons and grants being untouched throughout. *)
Theorem createEdge_deleteRelationship db u value db1 resp :
  persons_pk db → relationships_id_fresh db →
  createEdge db (Some u) value = Ok (db1, resp) →
  ∃ db2,
    deleteRelationship db1 (Some u) (relationships_auto_increment db)
    = Ok (db2, mkResponse 200
                 [("message", JsString "Relationship deleted successfully")])
    ∧ relationships db2 = relationships db
    ∧ persons db2 = persons db
    ∧ user_family_permissions db2 = user_family_permissions db.
Proof.
  intros Hpk Hfresh Hok.
  pose proof (createEdge_db db (Some u) value db1 resp Hok) as Hdb.
  rewrite createEdge_steps in Hok.
  destruct (decide (length _ ≠ 2%nat)); [done|].
  destruct (check_permissions _ _ _ _) as [[]|] eqn:Hperm; [|done]. clear Hok.
  set (new := Relationship.mk _ _ _ _ _ _ _ _) in Hdb.
  destruct (fresh_filter_new db new Hfresh eq_refl) as [Hsel Hdel].
  exists (delete_relationship db1 (relationships_auto_increment db)).
  split; [|by rewrite Hdb; simpl].
  unfold deleteRelationship, select_relationship. simpl.
  rewrite Hdb at 1. simpl. rewrite Hsel. simpl.
  rewrite (select_persons_in_persons db db1) by by rewrite Hdb.
  destruct (decide (User.role u ≠ UserRole.admin)); [|done].
  rewrite (check_edit_access_each_Ok db1); [done|]. intros row Hrow.
  rewrite (check_edit_access_grants db db1) by by rewrite Hdb.
  apply (check_edit_access_each_inv db u
           (select_persons_in db
              [CreateRelationshipRequest.person1_id value;
               CreateRelationshipRequest.person2_id value])); [|done].
  by apply check_permissions_each.
Qed.

Lemma createEdge_deleteRelationship_witness :
  ∃ db2,
    deleteRelationship family_db_married (Some admin_user) 6
    = Ok (db2, mkResponse 200
                 [("message", JsString "Relationship deleted successfully")])
    ∧ relationships db2 = relationships family_db.
Proof.
  assert (∃ resp, createEdge family_db (Some admin_user)
            (request 5 4 RelationshipType.spouse RelationshipSubtype.husband)
          = Ok (family_db_married, resp)) as [resp Hcreated]
    by (eexists; reflexivity).
  destruct (createEdge_deleteRelationship family_db admin_user _ _ resp
              family_db_pk family_db_fresh Hcreated) as (db2 & Hdel & Hrels & _).
  by exists db2.
Defined.

Section DeleteFacts.
Context `{Collation}.

(** X8.  A successful delete removes the edges with the given id and
    nothing else: all other edges, the persons and the grants stay, the
    uniqueness and foreign-key constraints still hold, nobody gains a
    parent or a child, and deleting the same id once more is answered
    [NotFound]. *)
Theorem deleteRelationship_removes db user relationshipId db' resp :
  deleteRelationship db user relationshipId = Ok (db', resp) →
  relationships db'
  = filter (λ r, Relationship.id r ≠ relationshipId) (relationships db)
  ∧ persons db' = persons db
  ∧ user_family_permissions db' = user_family_permissions db
  ∧ (unique_relationship db → unique_relationship db')
  ∧ (relationships_fk db → relationships_fk db')
  ∧ (∀ a p, (p ∈ deriveParents db' a → p ∈ deriveParents db a)
            ∧ (p ∈ deriveChildren db' a → p ∈ deriveChildren db a))
  ∧ deleteRelationship db' user relationshipId
    = Throw (createNotFoundError "Relationship").
Proof.
  unfold deleteRelationship at 1. intros (u & Hu & Hrest)%bind_Ok.
  destruct user as [u'|]; [|done]. injection Hu as ->.
  destruct (select_relationship db relationshipId) as [|r rs]; [done|].
  apply bind_Ok in Hrest as (_ & _ & [= <- _]). simpl.
  assert (Hsub : ∀ x, x ∈ filter (λ r, Relationship.id r ≠ relationshipId)
                        (relationships db) → x ∈ relationships db).
  { by intros x [_ ?]%list_elem_of_filter. }
  assert (Hedge : ∀ q c, parent_edge (delete_relationship db relationshipId) q c
                         → parent_edge db q c).
  { intros q c (x & Hx & Hrest). exists x. split; [by apply Hsub | done]. }
  repeat split; try done.
  - unfold unique_relationship. simpl. intros Hu.
    apply (sublist_NoDup _ (edge_key <$> relationships db)); [done|].
    apply fmap_sublist, sublist_filter.
  - unfold relationships_fk. simpl. rewrite !Forall_forall.
    intros Hfk x Hx. by apply Hfk, Hsub.
  - rewrite !elem_of_deriveParents. simpl. intros [Hp Hpe]. split; [done|].
    by apply Hedge.
  - rewrite !elem_of_deriveChildren. simpl. intros [Hp Hpe]. split; [done|].
    by apply Hedge.
  - unfold deleteRelationship, select_relationship. simpl.
    rewrite filter_none; [done|]. by intros x [Hne _]%list_elem_of_filter.
Qed.

End DeleteFacts.

Lemma deleteRelationship_removes_witness :
  ∃ db',
    Relationship.id <$> relationships db' = [1; 2; 4; 5]
    ∧ deleteRelationship db' (Some admin_user) 3
      = Throw (createNotFoundError "Relationship").
Proof.
  assert (∃ db' resp, deleteRelationship family_db (Some admin_user) 3
                      = Ok (db', resp))
    as (db' & resp & Hdeleted) by (eexists _, _; reflexivity).
  destruct (deleteRelationship_removes family_db (Some admin_user) 3 db' resp
              Hdeleted) as (Hrels & _ & _ & _ & _ & _ & Hagain).
  exists db'. split; [by rewrite Hrels | exact Hagain].
Defined.

(** ** Listing relationships *)

#[local] Instance type_order_total {A} : Total (@type_order A).
Proof. intros x y. unfold type_order. lia. Qed.

(** X9.  What [GET /api/relationships] shows: the rows come sorted by
    relationship type; a row is listed exactly when its edge is stored with
    both its persons, it passes the filters given in the query, and, for
    anybody but a global admin, each of the two persons belongs to a family
    on which the user holds a grant or which is public.  An edge touching a
    person without family is therefore never shown to a non-admin. *)
Theorem listRelationships_visible db u query rows :
  listRelationships db (Some u) query = Ok rows →
  Sorted type_order rows
  ∧ (∀ r p1 p2,
       (r, (p1, p2)) ∈ rows
       ↔ (r ∈ relationships db ∧ p1 ∈ persons db ∧ p2 ∈ persons db
          ∧ Relationship.person1_id r = Person.id p1
          ∧ Relationship.person2_id r = Person.id p2)
         ∧ (User.role u ≠ UserRole.admin →
            family_listed db (User.id u) (Person.family_id p1)
            ∧ family_listed db (User.id u) (Person.family_id p2))
         ∧ when_given (RelationshipQuery.person_id query)
             (λ person_id, Relationship.person1_id r = person_id
                           ∨ Relationship.person2_id r = person_id)
         ∧ when_given (RelationshipQuery.family_id query)
             (λ family_id, Person.family_id p1 = Some family_id
                           ∧ Person.family_id p2 = Some family_id)
         ∧ when_given (RelationshipQuery.type query)
             (λ type, Relationship.relationship_type r = type))
  ∧ (User.role u ≠ UserRole.admin →
     ∀ r p1 p2, (r, (p1, p2)) ∈ rows →
       Person.family_id p1 ≠ None ∧ Person.family_id p2 ≠ None).
Proof.
  unfold listRelationships. simpl. intros [= <-].
  split; [apply Sorted_merge_sort, _|].
  assert (Hiff : ∀ r p1 p2,
    (r, (p1, p2)) ∈ (λ '(r, p1, p2), (r, (p1, p2))) <$>
       inner_join
         (inner_join (relationships db) (persons db)
            (λ '(r, p1), Relationship.person1_id r = Person.id p1))
         (persons db)
         (λ '(r, p1, p2), Relationship.person2_id r = Person.id p2)
    ↔ r ∈ relationships db ∧ p1 ∈ persons db ∧ p2 ∈ persons db
      ∧ Relationship.person1_id r = Person.id p1
      ∧ Relationship.person2_id r = Person.id p2).
  { intros r p1 p2. rewrite list_elem_of_fmap. split.
    - intros ([[r' q1] q2] & [= -> -> ->] & Hin).
      apply elem_of_inner_join in Hin as (H2 & Hin & Hq2).
      by apply elem_of_inner_join in Hin as (H1 & Hr & Hq1).
    - intros (Hr & Hp1 & Hp2 & H1 & H2). exists (r, p1, p2). split; [done|].
      apply elem_of_inner_join. split; [done|]. split; [|done].
      by apply elem_of_inner_join. }
  split.
  - intros r p1 p2. rewrite elem_of_merge_sort, list_elem_of_filter, Hiff.
    simpl. tauto.
  - intros Hrole r p1 p2.
    rewrite elem_of_merge_sort, list_elem_of_filter. simpl.
    intros [(Hvis & _) _]. destruct (Hvis Hrole) as [V1 V2].
    by destruct (Person.family_id p1), (Person.family_id p2).
Qed.

Lemma listRelationships_visible_witness :
  ∃ rows,
    listRelationships family_db (Some member_user)
      (RelationshipQuery.mk (Some 4) None None) = Ok rows
    ∧ (λ row, Relationship.id row.1) <$> rows = [4; 5]
    ∧ Sorted type_order rows.
Proof.
  assert (∃ rows,
    listRelationships family_db (Some member_user)
      (RelationshipQuery.mk (Some 4) None None) = Ok rows
    ∧ (λ row, Relationship.id row.1) <$> rows = [4; 5])
    as (rows & Hrows & Hids) by (eexists; split; reflexivity).
  exists rows. split; [exact Hrows|]. split; [exact Hids|].
  apply (listRelationships_visible family_db member_user
           (RelationshipQuery.mk (Some 4) None None) rows Hrows).
Defined.

(** ** Family members *)

Lemma require_family_admin_Ok db u familyId message :
  require_family_admin db u familyId message = Ok () →
  hasPermission db (User.id u) (User.role u) familyId PermissionLevel.admin = true.
Proof.
  unfold require_family_admin, hasPermission.
  destruct (decide (User.role u ≠ _)) as [Hrole|Hadmin].
  - rewrite decide_False by done.
    by destruct (checkFamilyPermission _ _ _ _).
  - apply dec_stable in Hadmin. by rewrite decide_True.
Qed.

Lemma require_family_admin_hasPermission db u familyId message :
  hasPermission db (User.id u) (User.role u) familyId PermissionLevel.admin = true →
  require_family_admin db u familyId message = Ok ().
Proof.
  unfold require_family_admin, hasPermission.
  destruct (decide (User.role u ≠ _)) as [Hrole|Hadmin]; [|done].
  rewrite decide_False by done. by intros ->.
Qed.

Lemma insert_permission_Ok st user_id familyId level st' :
  insert_permission st user_id familyId level = Ok st' →
  select_membership (store_db st) user_id familyId = []
  ∧ st' = mkStore
            (mkDB (users (store_db st)) (families (store_db st))
               (persons (store_db st)) (relationships (store_db st))
               (relationships_auto_increment (store_db st))
               (user_family_permissions (store_db st) ++
                  [UserFamilyPermission.mk
                     (user_family_permissions_auto_increment st)
                     user_id familyId level]))
            (user_family_permissions_auto_increment st + 1).
Proof.
  unfold insert_permission.
  destruct (decide (select_membership _ _ _ ≠ [])) as [|Hnone]; [done|].
  destruct (decide (_ ∧ _)); [|done]. intros [= <-].
  by apply dec_stable in Hnone.
Qed.

Lemma addMember_Ok st user familyId value st' resp :
  addMember st user familyId value = Ok (st', resp) →
  ∃ u, user = Some u
    ∧ require_family_admin (store_db st) u familyId
        "Admin access required to add members" = Ok ()
    ∧ select_family (store_db st) familyId ≠ []
    ∧ select_active_user (store_db st) (AddMemberRequest.user_id value) ≠ []
    ∧ insert_permission st (AddMemberRequest.user_id value) familyId
        (AddMemberRequest.permission_level value) = Ok st'
    ∧ member_id resp = AddMemberRequest.user_id value
    ∧ member_permission_level resp = AddMemberRequest.permission_level value.
Proof.
  unfold addMember. intros (u & Hu & Hrest)%bind_Ok. exists u.
  destruct user as [u'|]; [|done]. injection Hu as ->. split; [done|].
  destruct (decide (length _ = 0%nat)) as [|Hfam]; [done|].
  apply bind_Ok in Hrest as ([] & Hadmin & Hrest). split; [done|].
  split; [by intros Hnil; rewrite Hnil in Hfam|].
  destruct (select_active_user _ _) as [|[[i fn] ln] rest] eqn:Huser; [done|].
  split; [done|].
  destruct (decide (0 < length _)%nat); [done|].
  apply bind_Ok in Hrest as (st1 & Hins & [= <- <-]).
  split; [done|]. split; [|done]. simpl.
  assert (Hin : (i, fn, ln) ∈ select_active_user (store_db st)
                                (AddMemberRequest.user_id value))
    by (rewrite Huser; left).
  unfold select_active_user in Hin.
  by apply list_elem_of_fmap in Hin
    as (x & [= -> _ _] & [[Hid _] _]%list_elem_of_filter).
Qed.

Lemma select_permission_level_membership db userId familyId :
  select_permission_level db userId familyId
  = UserFamilyPermission.permission_level <$> select_membership db userId familyId.
Proof. done. Qed.

(** X10.  Adding a member takes effect and nothing else: afterwards the new
    member is authorized on that family exactly up to the level granted,
    every other user/family pair is resolved as before, the grant table
    still has at most one row per pair, and persons and edges are
    untouched. *)
Theorem addMember_grants st user familyId value st' resp :
  addMember st user familyId value = Ok (st', resp) →
  (∀ required,
     checkFamilyPermission (store_db st') (AddMemberRequest.user_id value)
       familyId required
     = bool_decide (permissionLevels (AddMemberRequest.permission_level value)
                    >= permissionLevels required))
  ∧ (∀ userId familyId' required,
       (userId, familyId') ≠ (AddMemberRequest.user_id value, familyId) →
       checkFamilyPermission (store_db st') userId familyId' required
       = checkFamilyPermission (store_db st) userId familyId' required)
  ∧ (unique_user_family (store_db st) → unique_user_family (store_db st'))
  ∧ persons (store_db st') = persons (store_db st)
  ∧ relationships (store_db st') = relationships (store_db st).
Proof.
  intros (u & _ & _ & _ & _ & Hins & _)%addMember_Ok.
  apply insert_permission_Ok in Hins as [Hnone ->]. simpl.
  split; [|split; [|split]]; [| | |done].
  - intros required. unfold checkFamilyPermission.
    rewrite select_permission_level_membership. unfold select_membership in *.
    simpl. rewrite filter_app, Hnone, filter_cons_True by done. done.
  - intros userId familyId' required Hne. unfold checkFamilyPermission.
    rewrite !select_permission_level_membership. unfold select_membership.
    simpl. rewrite filter_app, filter_cons_False, filter_nil, app_nil_r; [done|].
    simpl. intros [Hu Hf]. apply Hne. by rewrite Hu, Hf.
  - unfold unique_user_family. simpl. rewrite fmap_app. intros Huniq.
    apply NoDup_app. split; [done|]. split; [|apply NoDup_singleton].
    intros k (g & -> & Hg)%list_elem_of_fmap Hk%list_elem_of_singleton.
    injection Hk as Hu Hf.
    apply (filter_nil_not_elem_of _ _ g Hnone); [|done]. done.
Qed.

Lemma addMember_grants_witness :
  ∃ st',
    checkFamilyPermission (store_db st') 2 1 PermissionLevel.view = true
    ∧ checkFamilyPermission (store_db st') 2 1 PermissionLevel.edit = false.
Proof.
  assert (∃ st' resp, addMember family_store (Some admin_user) 1
                        (AddMemberRequest.mk 2 PermissionLevel.view)
                      = Ok (st', resp))
    as (st' & resp & Hadded) by (eexists _, _; reflexivity).
  destruct (addMember_grants family_store (Some admin_user) 1
              (AddMemberRequest.mk 2 PermissionLevel.view) st' resp Hadded)
    as (Hlevel & _).
  exists st'. by rewrite !Hlevel.
Defined.

Lemma checkFamilyPermission_more_grants db db' userId familyId required more :
  user_family_permissions db'
  = (user_family_permissions db ++ more)%list →
  checkFamilyPermission db userId familyId required = true →
  checkFamilyPermission db' userId familyId required = true.
Proof.
  unfold checkFamilyPermission, select_permission_level. intros ->.
  rewrite filter_app, fmap_app.
  by destruct (UserFamilyPermission.permission_level <$> filter _ _).
Qed.

(** X11.  Nobody is added twice: once a user has been added to a family,
    the same actor adding that user to that family again, at whatever
    level, is refused with "User is already a member of this family". *)
Theorem addMember_repeat_rejected st u familyId value st' resp value' :
  addMember st (Some u) familyId value = Ok (st', resp) →
  AddMemberRequest.user_id value' = AddMemberRequest.user_id value →
  addMember st' (Some u) familyId value'
  = Throw (createValidationError "user_id"
             "User is already a member of this family").
Proof.
  intros (u' & [= <-] & Hadmin & Hfam & Huser & Hins & _)%addMember_Ok Hsame.
  apply insert_permission_Ok in Hins as [Hnone ->].
  unfold addMember. simpl. rewrite Hsame.
  change (select_family (mkDB _ _ _ _ _ _) familyId)
    with (select_family (store_db st) familyId).
  change (select_active_user (mkDB _ _ _ _ _ _) (AddMemberRequest.user_id value))
    with (select_active_user (store_db st) (AddMemberRequest.user_id value)).
  rewrite decide_False
    by (destruct (select_family (store_db st) familyId); simpl; [done | lia]).
  rewrite (require_family_admin_hasPermission _ u familyId).
  - simpl. destruct (select_active_user _ _) as [|[[i fn] ln] rest]; [done|].
    rewrite decide_True; [done|].
    unfold select_membership. simpl.
    rewrite filter_app, length_app, filter_cons_True by done. simpl. lia.
  - apply require_family_admin_Ok in Hadmin. unfold hasPermission in *.
    destruct (decide _); [done|].
    by eapply checkFamilyPermission_more_grants.
Qed.

Lemma addMember_repeat_rejected_witness :
  ∃ st',
    addMember st' (Some admin_user) 1 (AddMemberRequest.mk 2 PermissionLevel.admin)
    = Throw (createValidationError "user_id"
               "User is already a member of this family").
Proof.
  assert (∃ st' resp, addMember family_store (Some admin_user) 1
                        (AddMemberRequest.mk 2 PermissionLevel.view)
                      = Ok (st', resp))
    as (st' & resp & Hadded) by (eexists _, _; reflexivity).
  exists st'.
  apply (addMember_repeat_rejected family_store admin_user 1
           (AddMemberRequest.mk 2 PermissionLevel.view) st' resp
           (AddMemberRequest.mk 2 PermissionLevel.admin) Hadded).
  reflexivity.
Defined.

Lemma removeMember_Ok db user familyId userId db' message :
  removeMember db user familyId userId = Ok (db', message) →
  ∃ u, user = Some u
    ∧ require_family_admin db u familyId
        "Admin access required to remove members" = Ok ()
    ∧ db' = delete_permission db userId familyId.
Proof.
  unfold removeMember. intros (u & Hu & Hrest)%bind_Ok. exists u.
  destruct user as [u'|]; [|done]. injection Hu as ->. split; [done|].
  by apply bind_Ok in Hrest as ([] & Hadmin & [= <- _]).
Qed.

(** X12.  Removing a member revokes exactly that grant: afterwards the
    removed user is not authorized on the family at any level, every other
    user/family pair is resolved as before, and the grant table keeps at
    most one row per pair.  Removing a member who was just added gives back
    the grant table as it was before the add. *)
Theorem removeMember_revokes db user familyId userId db' message :
  removeMember db user familyId userId = Ok (db', message) →
  (∀ required, checkFamilyPermission db' userId familyId required = false)
  ∧ (∀ userId' familyId' required,
       (userId', familyId') ≠ (userId, familyId) →
       checkFamilyPermission db' userId' familyId' required
       = checkFamilyPermission db userId' familyId' required)
  ∧ (unique_user_family db → unique_user_family db')
  ∧ (∀ st0 actor value st1 resp,
       addMember st0 actor familyId value = Ok (st1, resp) →
       store_db st1 = db →
       AddMemberRequest.user_id value = userId →
       user_family_permissions db' = user_family_permissions (store_db st0)).
Proof.
  intros (u & _ & _ & ->)%removeMember_Ok.
  split; [|split; [|split]].
  - intros required. unfold checkFamilyPermission, select_permission_level.
    simpl. rewrite list_filter_filter, filter_none; [done|]. tauto.
  - intros userId' familyId' required Hne.
    unfold checkFamilyPermission, select_permission_level. simpl.
    rewrite list_filter_filter.
    rewrite (list_filter_iff _
               (λ g, UserFamilyPermission.user_id g = userId'
                     ∧ UserFamilyPermission.family_id g = familyId')); [done|].
    intros g. split; [tauto|].
    intros [Hu Hf]. split; [done|]. intros [Hu' Hf']. apply Hne. congruence.
  - unfold unique_user_family. simpl. intros Huniq.
    apply (sublist_NoDup _ _ Huniq), fmap_sublist, sublist_filter.
  - intros st0 actor value st1 resp
      (_ & _ & _ & _ & _ & Hins & _)%addMember_Ok Hdb Huid.
    apply insert_permission_Ok in Hins as [Hnone ->]. simpl in Hdb.
    rewrite <- Hdb. simpl.
    rewrite filter_app, filter_cons_False, filter_nil, app_nil_r
      by (simpl; rewrite Huid; tauto).
    clear Hdb. unfold select_membership in Hnone. rewrite Huid in Hnone.
    induction (user_family_permissions (store_db st0)) as [|g l IH]; [done|].
    rewrite filter_cons in Hnone. destruct (decide _) as [|Hg]; [done|].
    rewrite filter_cons_True by done. f_equal. by apply IH.
Qed.

Lemma removeMember_revokes_witness :
  ∃ db',
    checkFamilyPermission db' 3 1 PermissionLevel.view = false
    ∧ checkFamilyPermission family_db 3 1 PermissionLevel.view = true.
Proof.
  assert (∃ db' message, removeMember family_db (Some admin_user) 1 3
                         = Ok (db', message))
    as (db' & message & Hremoved) by (eexists _, _; reflexivity).
  destruct (removeMember_revokes family_db (Some admin_user) 1 3 db' message
              Hremoved) as (Hnone & _).
  exists db'. split; [apply Hnone | reflexivity].
Defined.

Lemma updatePermission_Ok db user familyId userId level db' message :
  updatePermission db user familyId userId level = Ok (db', message) →
  ∃ u, user = Some u
    ∧ require_family_admin db u familyId
        "Admin access required to update permissions" = Ok ()
    ∧ db' = update_permission db level userId familyId.
Proof.
  unfold updatePermission. intros (u & Hu & Hrest)%bind_Ok. exists u.
  destruct user as [u'|]; [|done]. injection Hu as ->. split; [done|].
  by apply bind_Ok in Hrest as ([] & Hadmin & [= <- _]).
Qed.

Lemma filter_fmap_commute {A} (P : A → Prop) `{!∀ x, Decision (P x)}
    (f : A → A) (l : list A) :
  (∀ x, P (f x) ↔ P x) → filter P (f <$> l) = f <$> filter P l.
Proof.
  intros Hf. induction l as [|x l IH]; [done|].
  rewrite fmap_cons, !filter_cons.
  destruct (decide (P x)) as [Hx|Hx].
  - rewrite decide_True by by apply Hf. by rewrite fmap_cons, IH.
  - rewrite decide_False by by rewrite Hf. done.
Qed.

(** X13.  Setting a member's level changes that member's level and nothing
    else: a user who holds a grant on the family is afterwards authorized
    exactly up to the new level; for a user without a grant the route still
    answers with success but the grant table is left as it was (no grant is
    created); every other user/family pair is resolved as before. *)
Theorem updatePermission_sets_level db user familyId userId level db' message :
  updatePermission db user familyId userId level = Ok (db', message) →
  (select_membership db userId familyId ≠ [] →
     ∀ required,
       checkFamilyPermission db' userId familyId required
       = bool_decide (permissionLevels level >= permissionLevels required))
  ∧ (select_membership db userId familyId = [] →
     user_family_permissions db' = user_family_permissions db)
  ∧ (∀ userId' familyId' required,
       (userId', familyId') ≠ (userId, familyId) →
       checkFamilyPermission db' userId' familyId' required
       = checkFamilyPermission db userId' familyId' required)
  ∧ (unique_user_family db → unique_user_family db').
Proof.
  intros (u & _ & _ & ->)%updatePermission_Ok.
  set (set_level := λ g : UserFamilyPermission.t,
         if decide (UserFamilyPermission.user_id g = userId
                    ∧ UserFamilyPermission.family_id g = familyId)
         then UserFamilyPermission.mk (UserFamilyPermission.id g)
                (UserFamilyPermission.user_id g)
                (UserFamilyPermission.family_id g) level
         else g).
  assert (Hkeys : ∀ g,
            UserFamilyPermission.user_id (set_level g) = UserFamilyPermission.user_id g
            ∧ UserFamilyPermission.family_id (set_level g)
              = UserFamilyPermission.family_id g).
  { intros g. unfold set_level. by destruct (decide _). }
  assert (Hsel : ∀ a b,
            select_membership (update_permission db level userId familyId) a b
            = set_level <$> select_membership db a b).
  { intros a b. unfold select_membership. simpl. fold set_level.
    apply filter_fmap_commute. intros g.
    destruct (Hkeys g) as [-> ->]. done. }
  split; [|split; [|split]].
  - intros Hsome required. unfold checkFamilyPermission.
    rewrite select_permission_level_membership, Hsel.
    destruct (select_membership db userId familyId) as [|g l] eqn:Hm; [done|].
    assert (Hg : g ∈ g :: l) by left. rewrite <- Hm in Hg.
    unfold select_membership in Hg.
    apply list_elem_of_filter in Hg as [Hg _].
    assert (UserFamilyPermission.permission_level (set_level g) = level) as Hl
      by (unfold set_level; by rewrite decide_True).
    rewrite !fmap_cons. by rewrite Hl.
  - intros Hnone. simpl. fold set_level.
    unfold select_membership in Hnone.
    induction (user_family_permissions db) as [|g l IH]; [done|].
    rewrite filter_cons in Hnone. destruct (decide _) as [|Hg]; [done|].
    rewrite fmap_cons. unfold set_level at 1. rewrite decide_False by done.
    f_equal. by apply IH.
  - intros userId' familyId' required Hne. unfold checkFamilyPermission.
    rewrite !select_permission_level_membership, Hsel.
    rewrite <- list_fmap_compose.
    rewrite (list_fmap_ext _ UserFamilyPermission.permission_level
               (select_membership db userId' familyId')); [done|].
    intros i g Hg%list_elem_of_lookup_2. unfold select_membership in Hg.
    apply list_elem_of_filter in Hg as [[Hu Hf] _].
    simpl. unfold set_level. rewrite decide_False; [done|].
    intros [Hu' Hf']. apply Hne. congruence.
  - unfold unique_user_family. simpl. fold set_level.
    rewrite <- list_fmap_compose. intros Huniq.
    rewrite (list_fmap_ext _
               (λ g, (UserFamilyPermission.user_id g,
                      UserFamilyPermission.family_id g))
               (user_family_permissions db)); [done|].
    intros i g _. simpl. by destruct (Hkeys g) as [-> ->].
Qed.

Lemma updatePermission_sets_level_witness :
  ∃ db',
    checkFamilyPermission db' 3 1 PermissionLevel.admin = true
    ∧ checkFamilyPermission family_db 3 1 PermissionLevel.admin = false.
Proof.
  assert (∃ db' message,
            updatePermission family_db (Some admin_user) 1 3 PermissionLevel.admin
            = Ok (db', message))
    as (db' & message & Hupdated) by (eexists _, _; reflexivity).
  destruct (updatePermission_sets_level family_db (Some admin_user) 1 3
              PermissionLevel.admin db' message Hupdated) as (Hlevel & _).
  exists db'. split; [|reflexivity].
  rewrite Hlevel; [reflexivity|]. by vm_compute.
Defined.

Lemma deleteFamily_Ok db user familyId db' message :
  deleteFamily db user familyId = Ok (db', message) →
  ∃ u, user = Some u
    ∧ select_family db familyId ≠ []
    ∧ require_family_admin db u familyId
        "Admin access required to delete family" = Ok ()
    ∧ db' = delete_family db familyId.
Proof.
  unfold deleteFamily. intros (u & Hu & Hrest)%bind_Ok. exists u.
  destruct user as [u'|]; [|done]. injection Hu as ->. split; [done|].
  destruct (decide (length _ = 0%nat)) as [|Hfam]; [done|].
  split; [by intros Hnil; rewrite Hnil in Hfam|].
  by apply bind_Ok in Hrest as ([] & Hadmin & [= <- _]).
Qed.

(** X14.  Managing a family takes admin rights on it: adding a member,
    removing a member, setting a member's level and deleting the family
    succeed only for an actor who is a global admin or holds an
    [admin]-level grant on that family; for removing a member and setting a
    level that is also all it takes. *)
Theorem family_management_needs_admin db u familyId :
  (∀ st value st' resp,
     store_db st = db →
     addMember st (Some u) familyId value = Ok (st', resp) →
     hasPermission db (User.id u) (User.role u) familyId PermissionLevel.admin
     = true)
  ∧ (∀ userId,
       is_Ok (removeMember db (Some u) familyId userId)
       = hasPermission db (User.id u) (User.role u) familyId PermissionLevel.admin)
  ∧ (∀ userId level,
       is_Ok (updatePermission db (Some u) familyId userId level)
       = hasPermission db (User.id u) (User.role u) familyId PermissionLevel.admin)
  ∧ (∀ db' message,
       deleteFamily db (Some u) familyId = Ok (db', message) →
       hasPermission db (User.id u) (User.role u) familyId PermissionLevel.admin
       = true).
Proof.
  assert (Hguard : ∀ message,
    is_Ok (require_family_admin db u familyId message)
    = hasPermission db (User.id u) (User.role u) familyId PermissionLevel.admin).
  { intros message. unfold require_family_admin, hasPermission.
    destruct (decide (User.role u ≠ _)) as [Hrole|Hadmin].
    - rewrite decide_False by done.
      by destruct (checkFamilyPermission _ _ _ _).
    - apply dec_stable in Hadmin. by rewrite decide_True. }
  split; [|split; [|split]].
  - intros st value st' resp <- (u' & [= <-] & Hadmin & _)%addMember_Ok.
    by eapply require_family_admin_Ok.
  - intros userId. rewrite <- (Hguard "Admin access required to remove members").
    unfold removeMember. simpl.
    by destruct (require_family_admin _ _ _ _) as [[]|].
  - intros userId level.
    rewrite <- (Hguard "Admin access required to update permissions").
    unfold updatePermission. simpl.
    by destruct (require_family_admin _ _ _ _) as [[]|].
  - intros db' message (u' & [= <-] & _ & Hadmin & _)%deleteFamily_Ok.
    by eapply require_family_admin_Ok.
Qed.

Lemma family_management_needs_admin_witness :
  is_Ok (removeMember family_db (Some editor_user) 1 3) = false
  ∧ hasPermission family_db 1 UserRole.admin 1 PermissionLevel.admin = true.
Proof.
  destruct (family_management_needs_admin family_db editor_user 1)
    as (_ & Hremove & _).
  destruct (family_management_needs_admin family_db admin_user 1)
    as (_ & _ & _ & Hdelete).
  split; [by rewrite Hremove|].
  apply (Hdelete (delete_family family_db 1) "Family deleted successfully").
  reflexivity.
Defined.

(** ** Deleting a family *)

Lemma delete_family_ids db familyId :
  Person.id <$> persons (delete_family db familyId) = Person.id <$> persons db.
Proof.
  simpl. rewrite <- list_fmap_compose. apply list_fmap_ext.
  intros i p _. simpl. by destruct (decide _).
Qed.

(** X15.  Deleting a family cascades as the schema says and no further:
    the family and every grant on it are gone, grants on other families are
    resolved as before, every person is still stored under the same id, the
    former members have lost their family and everybody else is unchanged,
    and no edge is touched.  With the primary key on persons, any
    authenticated user then passes the permission check of a single create
    between two former members, while only a global admin can still delete
    such a person. *)
Theorem deleteFamily_cascade db user familyId db' message :
  deleteFamily db user familyId = Ok (db', message) →
  select_family db' familyId = []
  ∧ (∀ userId required,
       checkFamilyPermission db' userId familyId required = false)
  ∧ (∀ userId familyId' required, familyId' ≠ familyId →
       checkFamilyPermission db' userId familyId' required
       = checkFamilyPermission db userId familyId' required)
  ∧ Person.id <$> persons db' = Person.id <$> persons db
  ∧ relationships db' = relationships db
  ∧ (∀ p, p ∈ persons db →
       (if decide (Person.family_id p = Some familyId)
        then clear_family p else p) ∈ persons db')
  ∧ (∀ p', p' ∈ persons db' → Person.family_id p' ≠ Some familyId)
  ∧ (persons_pk db →
     ∀ u pa pb,
       pa ∈ persons db → Person.family_id pa = Some familyId →
       pb ∈ persons db → Person.family_id pb = Some familyId →
       check_permissions db' u
         (find (λ p, p.1 = Person.id pa)
            (select_persons_in db' [Person.id pa; Person.id pb]))
         (find (λ p, p.1 = Person.id pb)
            (select_persons_in db' [Person.id pa; Person.id pb])) = Ok ()
       ∧ (User.role u ≠ UserRole.admin →
          deletePerson db' (Some u) (Person.id pa)
          = Throw (createForbiddenError
                     "Cannot delete person without family association"))).
Proof.
  intros (u0 & _ & _ & _ & ->)%deleteFamily_Ok.
  assert (Hcleared : ∀ p, p ∈ persons db →
            (if decide (Person.family_id p = Some familyId)
             then clear_family p else p) ∈ persons (delete_family db familyId)).
  { intros p Hp. simpl. apply list_elem_of_fmap. by exists p. }
  split; [|split; [|split; [|split; [|split; [|split; [|split]]]]]].
  - unfold select_family. simpl. rewrite list_filter_filter.
    apply filter_none. tauto.
  - intros userId required. unfold checkFamilyPermission, select_permission_level.
    simpl. rewrite list_filter_filter, filter_none; [done|]. tauto.
  - intros userId familyId' required Hne.
    unfold checkFamilyPermission, select_permission_level. simpl.
    rewrite list_filter_filter.
    rewrite (list_filter_iff _
               (λ g, UserFamilyPermission.user_id g = userId
                     ∧ UserFamilyPermission.family_id g = familyId')); [done|].
    intros g. split; [tauto|]. intros [Hu Hf]. split; [done|]. congruence.
  - apply delete_family_ids.
  - done.
  - done.
  - simpl. intros p' (p & -> & Hp)%list_elem_of_fmap.
    by destruct (decide (Person.family_id p = Some familyId)).
  - intros Hpk u pa pb Hpa Ha Hpb Hb.
    assert (Hpk' : persons_pk (delete_family db familyId)).
    { unfold persons_pk. by rewrite delete_family_ids. }
    pose proof (Hcleared pa Hpa) as Hpa'. pose proof (Hcleared pb Hpb) as Hpb'.
    rewrite decide_True in Hpa' by done. rewrite decide_True in Hpb' by done.
    pose proof (find_row_pk _ [Person.id pa; Person.id pb] _ Hpk' Hpa') as Hfa.
    pose proof (find_row_pk _ [Person.id pa; Person.id pb] _ Hpk' Hpb') as Hfb.
    simpl in Hfa, Hfb. split.
    + rewrite Hfa, Hfb by (try left; right; left).
      unfold check_permissions. by destruct (decide _).
    + intros Hrole. unfold deletePerson. simpl.
      assert (Hsel : head (select_person (delete_family db familyId) (Person.id pa))
                     = Some (clear_family pa)).
      { apply head_all_eq.
        - by apply list_elem_of_filter.
        - intros q [Hid Hq]%list_elem_of_filter. by apply (pk_inj _ _ _ Hpk'). }
      destruct (select_person _ _) as [|q l]; [done|]. injection Hsel as ->.
      by rewrite decide_True.
Qed.

Lemma deleteFamily_cascade_witness :
  ∃ db',
    deleteFamily family_db (Some admin_user) 1
    = Ok (db', "Family deleted successfully")
    ∧ Person.family_id <$> persons db' = [None; None; None; None; None]
    ∧ relationships db' = relationships family_db.
Proof.
  assert (∃ db', deleteFamily family_db (Some admin_user) 1
                 = Ok (db', "Family deleted successfully")
                 ∧ Person.family_id <$> persons db' = [None; None; None; None; None])
    as (db' & Hdeleted & Hfamilies) by (eexists; split; reflexivity).
  exists db'. split; [exact Hdeleted|]. split; [exact Hfamilies|].
  apply (deleteFamily_cascade family_db (Some admin_user) 1 db'
           "Family deleted successfully" Hdeleted).
Defined.

(** ** Reading a person *)

Lemma elem_of_left_join {A B} (l : list A) (r : list B) (on : A * B → Prop)
    `{!∀ x, Decision (on x)} (a : A) (ob : option B) :
  (a, ob) ∈ left_join l r on
  ↔ a ∈ l ∧ match ob with
            | Some b => b ∈ r ∧ on (a, b)
            | None => ∀ b, b ∈ r → ¬ on (a, b)
            end.
Proof.
  unfold left_join. rewrite list_elem_of_bind. split.
  - intros (a' & Hin & Ha').
    destruct (filter (λ b, on (a', b)) r) as [|b0 bs] eqn:Hf.
    + apply list_elem_of_singleton in Hin as [= -> ->]. split; [done|].
      intros b Hb Hon. by apply (filter_nil_not_elem_of _ _ b Hf).
    + apply list_elem_of_fmap in Hin as (b & [= -> ->] & Hb).
      rewrite <- Hf in Hb. apply list_elem_of_filter in Hb as [Hon Hb].
      done.
  - intros [Ha Hob]. exists a. split; [|done].
    destruct (filter (λ b, on (a, b)) r) as [|b0 bs] eqn:Hf.
    + destruct ob as [b|]; [|left]. destruct Hob as [Hb Hon].
      by destruct (filter_nil_not_elem_of _ _ b Hf).
    + destruct ob as [b|].
      * destruct Hob as [Hb Hon]. apply list_elem_of_fmap. exists b.
        split; [done|]. rewrite <- Hf. by apply list_elem_of_filter.
      * destruct (Hob b0).
        -- assert (Hb0 : b0 ∈ filter (λ b, on (a, b)) r) by (rewrite Hf; left).
           by apply list_elem_of_filter in Hb0 as [_ ?].
        -- assert (Hb0 : b0 ∈ filter (λ b, on (a, b)) r) by (rewrite Hf; left).
           by apply list_elem_of_filter in Hb0 as [? _].
Qed.

Lemma left_join_covers {A B} (l : list A) (r : list B) (on : A * B → Prop)
    `{!∀ x, Decision (on x)} (a : A) :
  a ∈ l → ∃ ob, (a, ob) ∈ left_join l r on.
Proof.
  intros Ha. destruct (filter (λ b, on (a, b)) r) as [|b0 bs] eqn:Hf.
  - exists None. apply elem_of_left_join. split; [done|].
    intros b Hb Hon. by apply (filter_nil_not_elem_of _ _ b Hf).
  - exists (Some b0). apply elem_of_left_join. split; [done|].
    assert (Hb0 : b0 ∈ filter (λ b, on (a, b)) r) by (rewrite Hf; left).
    by apply list_elem_of_filter in Hb0 as [? ?].
Qed.

(** The rows the person routes read for an id: under the primary key they
    all carry the stored person, with a family row of that person's family
    when there is one. *)
Lemma select_person_row_spec db p :
  persons_pk db → p ∈ persons db →
  select_person_row db (Person.id p) ≠ []
  ∧ ∀ row, row ∈ select_person_row db (Person.id p) →
      row_person row = p
      ∧ (∀ f, Person.family_id p = Some f →
              (∃ fam, fam ∈ families db ∧ Family.id fam = f) →
              ∃ fam, fam ∈ families db ∧ Family.id fam = f
                     ∧ family_is_public row = Some (Family.is_public fam)).
Proof.
  intros Hpk Hp. unfold select_person_row. split.
  - destruct (left_join_covers (persons db) (families db)
                (λ '(p, f), Person.family_id p = Some (Family.id f)) p Hp)
      as [ofam Hofam].
    destruct (left_join_covers _ (users db)
                (λ '(p, f, u), Person.created_by p = Some (User.id u))
                (p, ofam) Hofam) as [ou Hou].
    intros Hnil%fmap_nil_inv.
    by apply (filter_nil_not_elem_of _ _ (p, ofam, ou) Hnil).
  - intros row ([[q ofam] ou] & -> & [Hid Hin]%list_elem_of_filter)%list_elem_of_fmap.
    apply elem_of_left_join in Hin as [Hin _].
    apply elem_of_left_join in Hin as [Hq Hofam]. simpl in *.
    assert (q = p) as -> by by apply (pk_inj db).
    split; [done|]. intros f Hf (fam & Hfam & Hfid).
    destruct ofam as [fam'|].
    + destruct Hofam as [Hfam' Hon]. exists fam'. split; [done|].
      split; [|done]. congruence.
    + destruct (Hofam fam Hfam). congruence.
Qed.

Lemma select_person_row_missing db personId :
  personId ∉ Person.id <$> persons db → select_person_row db personId = [].
Proof.
  intros Hno. unfold select_person_row.
  rewrite filter_none; [done|]. intros [[q ofam] ou] Hin Hid.
  apply elem_of_left_join in Hin as [Hin _].
  apply elem_of_left_join in Hin as [Hq _]. simpl in *.
  apply Hno. rewrite <- Hid. by apply list_elem_of_fmap_2.
Qed.

Section PersonFacts.
Context `{Collation}.

(** X16.  Who can read a person.  With the primary key on persons: an id
    that is not stored is answered [NotFound]; a stored person is shown
    exactly to the global admins and, when the person has no family, to
    everybody, and the answer then carries that person together with the
    derived parents, children, spouses and siblings.  For anybody else the
    route throws the [TypeError] of calling the helper which [families.ts]
    does not export: neither a grant nor a public family lets a user who is
    not a global admin read a person of a family, and "Access denied to
    this person" is never answered. *)
Theorem getPersonById_access db u p :
  persons_pk db → p ∈ persons db →
  (∀ personId, personId ∉ Person.id <$> persons db →
     getPersonById db (Some u) personId = Throw (createNotFoundError "Person"))
  ∧ (∀ details, getPersonById db (Some u) (Person.id p) = Ok details →
       row_person (details_person details) = p
       ∧ details_parents details = deriveParents db (Person.id p)
       ∧ details_children details = deriveChildren db (Person.id p)
       ∧ details_spouses details = deriveSpouses db (Person.id p)
       ∧ details_siblings details = deriveSiblings db (Person.id p))
  ∧ (is_Ok (getPersonById db (Some u) (Person.id p)) = true
     ↔ User.role u = UserRole.admin ∨ truthy (Person.family_id p) = None)
  ∧ (∀ e, getPersonById db (Some u) (Person.id p) = Throw e →
       e = TypeError
       ∧ User.role u ≠ UserRole.admin
       ∧ truthy (Person.family_id p) ≠ None).
Proof.
  intros Hpk Hp.
  destruct (select_person_row_spec db p Hpk Hp) as [Hsome Hrows].
  assert (Hcheck : ∀ pub,
    check_person_read_access db u (Person.family_id p) pub
    = if decide (User.role u ≠ UserRole.admin) then
        match truthy (Person.family_id p) with
        | Some _ => Throw TypeError
        | None => Ok ()
        end
      else Ok ()).
  { intros pub. unfold check_person_read_access.
    destruct (decide _); [|done]. by destruct (truthy _). }
  split; [|split; [|split]].
  - intros personId Hno. unfold getPersonById. simpl.
    by rewrite select_person_row_missing.
  - intros details. unfold getPersonById. simpl.
    destruct (select_person_row db (Person.id p)) as [|row rest]; [done|].
    destruct (Hrows row) as [Hrow _]; [left|].
    intros (_ & _ & [= <-])%bind_Ok. simpl. by rewrite Hrow.
  - unfold getPersonById. simpl.
    destruct (select_person_row db (Person.id p)) as [|row rest]; [done|].
    destruct (Hrows row) as [Hrow _]; [left|].
    rewrite Hrow, Hcheck.
    destruct (decide (User.role u ≠ _)) as [Hrole|Hadmin].
    + destruct (truthy (Person.family_id p)); simpl.
      * split; [done|]. by intros [?|?].
      * split; [|done]. intros _. by right.
    + simpl. apply dec_stable in Hadmin. split; [|done]. intros _. by left.
  - intros e. unfold getPersonById. simpl.
    destruct (select_person_row db (Person.id p)) as [|row rest]; [done|].
    destruct (Hrows row) as [Hrow _]; [left|].
    rewrite Hrow, Hcheck.
    destruct (decide (User.role u ≠ _)) as [Hrole|]; [|done].
    destruct (truthy (Person.family_id p)); simpl; [|done].
    by intros [= <-].
Qed.

End PersonFacts.

Lemma getPersonById_access_witness :
  is_Ok (getPersonById family_db (Some member_user) 5) = true
  ∧ getPersonById family_db (Some member_user) 3 = Throw TypeError.
Proof.
  destruct (getPersonById_access family_db member_user
              (person 5 "Edi" "Krasniqi" Gender.male (Some 16500) None))
    as (_ & _ & Hshown & _);
    [exact family_db_pk | by apply (bool_decide_unpack _) | ].
  split; [apply Hshown; by right|].
  destruct (getPersonById_access family_db member_user
              (person 3 "Cen" "Zhupani" Gender.male None (Some 1)))
    as (_ & _ & _ & Hrefused);
    [exact family_db_pk | by apply (bool_decide_unpack _) | ].
  destruct (getPersonById family_db (Some member_user) 3) as [details|e] eqn:Hget;
    [discriminate Hget|].
  by destruct (Hrefused e) as [-> _].
Defined.

(** ** Deleting a person *)

Lemma deletePerson_Ok db u personId db' message :
  deletePerson db (Some u) personId = Ok (db', message) →
  db' = delete_person db personId
  ∧ message = "Person deleted successfully"
  ∧ User.role u = UserRole.admin
  ∧ ∃ p, p ∈ persons db ∧ Person.id p = personId.
Proof.
  unfold deletePerson. simpl.
  destruct (select_person db personId) as [|p l] eqn:Hsel; [done|].
  assert (Hp : p ∈ select_person db personId) by (rewrite Hsel; left).
  apply list_elem_of_filter in Hp as [Hid Hp].
  intros ([] & Hcheck & [= <- <-])%bind_Ok.
  split; [done|]. split; [done|]. split; [|by exists p].
  destruct (decide (User.role u ≠ _)) as [Hrole|Hadmin];
    [|by apply dec_stable in Hadmin].
  by destruct (truthy (Person.family_id p)).
Qed.

Lemma elem_of_delete_person_relationships db personId r :
  r ∈ relationships (delete_person db personId)
  ↔ r ∈ relationships db
    ∧ Relationship.person1_id r ≠ personId
    ∧ Relationship.person2_id r ≠ personId.
Proof. simpl. rewrite list_elem_of_filter. tauto. Qed.

Lemma parent_edge_delete_person db personId q c :
  parent_edge (delete_person db personId) q c
  ↔ parent_edge db q c ∧ q ≠ personId ∧ c ≠ personId.
Proof.
  unfold parent_edge. split.
  - intros (r & (Hr & H1 & H2)%elem_of_delete_person_relationships
              & <- & <- & Hty).
    split; [by exists r | done].
  - intros ((r & Hr & <- & <- & Hty) & H1 & H2). exists r.
    split; [by apply elem_of_delete_person_relationships | done].
Qed.

Section DeletePersonFacts.
Context `{Collation}.

(** X17.  Deleting a person cascades as the schema says and no further.
    After a successful delete the person was stored before and is stored no
    longer, every other person is stored unchanged, exactly the edges that
    touched the person are gone, and users, families and grants are as
    before; the primary key, the unique key and both foreign keys of the edge
    table still hold.  In the derived views the person has disappeared from
    everybody's parents, children and spouses and has none itself, and two
    persons remain siblings only through a common parent other than the
    deleted one.  Whoever deleted without being a global admin holds an
    [admin] grant on the person's family. *)
Theorem deletePerson_cascade db u personId db' message :
  deletePerson db (Some u) personId = Ok (db', message) →
  personId ∈ Person.id <$> persons db
  ∧ (personId ∉ Person.id <$> persons db')
  ∧ (∀ p, p ∈ persons db' ↔ p ∈ persons db ∧ Person.id p ≠ personId)
  ∧ (∀ r, r ∈ relationships db'
          ↔ r ∈ relationships db
            ∧ Relationship.person1_id r ≠ personId
            ∧ Relationship.person2_id r ≠ personId)
  ∧ (users db' = users db ∧ families db' = families db
     ∧ user_family_permissions db' = user_family_permissions db)
  ∧ (persons_pk db → persons_pk db')
  ∧ (unique_relationship db → unique_relationship db')
  ∧ (relationships_fk db → relationships_fk db')
  ∧ (∀ a p, p ∈ deriveParents db' a
            ↔ p ∈ deriveParents db a ∧ Person.id p ≠ personId ∧ a ≠ personId)
  ∧ (∀ a p, p ∈ deriveChildren db' a
            ↔ p ∈ deriveChildren db a ∧ Person.id p ≠ personId ∧ a ≠ personId)
  ∧ (∀ a row, row ∈ deriveSpouses db' a
              ↔ row ∈ deriveSpouses db a
                ∧ Person.id (spouse row) ≠ personId ∧ a ≠ personId)
  ∧ (∀ a p, p ∈ deriveSiblings db' a
            ↔ p ∈ persons db ∧ Person.id p ≠ a
              ∧ Person.id p ≠ personId ∧ a ≠ personId
              ∧ ∃ q, q ≠ personId
                     ∧ parent_edge db q (Person.id p) ∧ parent_edge db q a)
  ∧ (User.role u ≠ UserRole.admin →
     ∃ p f, p ∈ persons db ∧ Person.id p = personId
            ∧ Person.family_id p = Some f
            ∧ checkFamilyPermission db (User.id u) f PermissionLevel.admin
              = true).
Proof.
  intros (-> & _ & Hadmin & p0 & Hp0 & Hid0)%deletePerson_Ok.
  assert (Hpers : ∀ p, p ∈ persons (delete_person db personId)
                       ↔ p ∈ persons db ∧ Person.id p ≠ personId).
  { intros p. simpl. rewrite list_elem_of_filter. tauto. }
  split; [rewrite <- Hid0; by apply list_elem_of_fmap_2|].
  split.
  { intros (p & Hid & Hp)%list_elem_of_fmap. apply Hpers in Hp as [_ Hne].
    by destruct Hne. }
  split; [done|].
  split; [apply elem_of_delete_person_relationships|].
  split; [done|].
  split.
  { unfold persons_pk. intros Hpk.
    apply (sublist_NoDup _ (Person.id <$> persons db)); [done|].
    simpl. apply fmap_sublist, sublist_filter. }
  split.
  { unfold unique_relationship. intros Huniq.
    apply (sublist_NoDup _ (edge_key <$> relationships db)); [done|].
    simpl. apply fmap_sublist, sublist_filter. }
  split.
  { unfold relationships_fk. rewrite !Forall_forall. intros Hfk r.
    intros (Hr & H1 & H2)%elem_of_delete_person_relationships.
    destruct (Hfk r Hr) as [(p1 & Hp1 & Hi1)%elem_of_ids (p2 & Hp2 & Hi2)%elem_of_ids].
    split; apply elem_of_ids; [exists p1 | exists p2];
      (split; [apply Hpers; split; [done|congruence] | done]). }
  split.
  { intros a p.
    rewrite !elem_of_deriveParents, Hpers, parent_edge_delete_person. tauto. }
  split.
  { intros a p.
    rewrite !elem_of_deriveChildren, Hpers, parent_edge_delete_person. tauto. }
  split.
  { intros a row. rewrite !elem_of_deriveSpouses. split.
    - intros (r & (Hr & H1 & H2)%elem_of_delete_person_relationships
                & [Hp Hne]%Hpers & Hrow & Hon & Ha & Hty & Hna).
      split; [by exists r|]. split; [done|].
      by destruct Ha as [<-|<-].
    - intros ((r & Hr & Hp & Hrow & Hon & Ha & Hty & Hna) & Hne & Hane).
      exists r. split.
      { apply elem_of_delete_person_relationships. split; [done|].
        destruct Hon as [Hon|Hon], Ha as [Ha|Ha]; split; congruence. }
      split; [by apply Hpers|]. done. }
  split.
  { intros a p. rewrite elem_of_deriveSiblings, Hpers. split.
    - intros ([Hp Hne] & Hna & q & [Hq1 [Hq Hc1]]%parent_edge_delete_person
                & [Hq2 [_ Hc2]]%parent_edge_delete_person).
      split; [done|]. split; [done|]. split; [done|]. split; [done|].
      by exists q.
    - intros (Hp & Hna & Hne & Hane & q & Hq & Hq1 & Hq2).
      split; [done|]. split; [done|]. exists q.
      by rewrite !parent_edge_delete_person. }
  intros Hrole. by destruct Hrole.
Qed.

End DeletePersonFacts.

Lemma deletePerson_cascade_witness :
  ∃ db',
    deletePerson family_db (Some admin_user) 1
    = Ok (db', "Person deleted successfully")
    ∧ Relationship.id <$> relationships db' = [3; 5]
    ∧ (1 ∉ Person.id <$> persons db').
Proof.
  assert (∃ db', deletePerson family_db (Some admin_user) 1
                 = Ok (db', "Person deleted successfully")
                 ∧ Relationship.id <$> relationships db' = [3; 5])
    as (db' & Hdeleted & Hedges) by (eexists; split; reflexivity).
  exists db'. split; [exact Hdeleted|]. split; [exact Hedges|].
  apply (deletePerson_cascade family_db admin_user 1 db'
           "Person deleted successfully" Hdeleted).
Defined.

(** ** The family tree around a person *)

Lemma elem_of_edges_with_persons db r p1 p2 :
  (r, (p1, p2)) ∈ (λ '(r, p1, p2), (r, (p1, p2))) <$>
     inner_join
       (inner_join (relationships db) (persons db)
          (λ '(r, p1), Relationship.person1_id r = Person.id p1))
       (persons db)
       (λ '(r, p1, p2), Relationship.person2_id r = Person.id p2)
  ↔ r ∈ relationships db ∧ p1 ∈ persons db ∧ p2 ∈ persons db
    ∧ Relationship.person1_id r = Person.id p1
    ∧ Relationship.person2_id r = Person.id p2.
Proof.
  rewrite list_elem_of_fmap. split.
  - intros ([[r' q1] q2] & [= -> -> ->] & Hin).
    apply elem_of_inner_join in Hin as (H2 & Hin & Hq2).
    by apply elem_of_inner_join in Hin as (H1 & Hr & Hq1).
  - intros (Hr & Hp1 & Hp2 & H1 & H2). exists (r, p1, p2). split; [done|].
    apply elem_of_inner_join. split; [done|]. split; [|done].
    by apply elem_of_inner_join.
Qed.

Lemma elem_of_select_tree_root db personId p name pub :
  (p, name, pub) ∈ select_tree_root db personId →
  p ∈ persons db ∧ Person.id p = personId
  ∧ (default false pub = true →
     ∃ fam, fam ∈ families db ∧ Person.family_id p = Some (Family.id fam)
            ∧ Family.is_public fam = true).
Proof.
  unfold select_tree_root.
  intros ([q ofam] & [= -> -> ->] & [Hid Hin]%list_elem_of_filter)%list_elem_of_fmap.
  apply elem_of_left_join in Hin as [Hq Hofam].
  split; [done|]. split; [done|].
  destruct ofam as [fam|]; [|done]. simpl. intros Hpub.
  destruct Hofam as [Hfam Hon]. by exists fam.
Qed.

#[local] Instance type_order_trans {A} : Transitive (@type_order A).
Proof. intros x y z. unfold type_order. lia. Qed.

Section TreeFacts.
Context `{Collation}.

(** X18.  What the tree route hands out.  The root is the stored person
    with the requested id.  The members are exactly the stored persons of
    the root's family, sorted by birth date (absent dates first) and then
    first name, and they include the root whenever it has a family; a root
    without family comes with no members and no relationships.  The
    relationships are exactly the stored edges with both ends among the
    members, sorted by type, so the tree never points outside itself.  A
    user who is not a global admin and holds no grant on the root's family
    gets the tree only if that family is stored as public; in fact, the
    helper behind that check not being exported by [families.ts], the tree
    is only ever handed to a global admin or for a root without family. *)
Theorem getPersonTree_family db u personId tree :
  getPersonTree db (Some u) personId = Ok tree →
  (root_person tree ∈ persons db ∧ Person.id (root_person tree) = personId)
  ∧ StronglySorted birth_order (familyMembers tree)
  ∧ (∀ p, p ∈ familyMembers tree
          ↔ p ∈ persons db
            ∧ ∃ f, Person.family_id (root_person tree) = Some f
                   ∧ Person.family_id p = Some f)
  ∧ (Person.family_id (root_person tree) ≠ None →
     root_person tree ∈ familyMembers tree)
  ∧ (Person.family_id (root_person tree) = None →
     familyMembers tree = [] ∧ tree_relationships tree = [])
  ∧ StronglySorted
      (λ r r', (type_index (Relationship.relationship_type r)
                ≤ type_index (Relationship.relationship_type r'))%Z)
      (tree_relationships tree)
  ∧ (∀ r, r ∈ tree_relationships tree
          ↔ r ∈ relationships db
            ∧ ∃ p1 p2, p1 ∈ familyMembers tree ∧ p2 ∈ familyMembers tree
                       ∧ Relationship.person1_id r = Person.id p1
                       ∧ Relationship.person2_id r = Person.id p2)
  ∧ (User.role u ≠ UserRole.admin →
     ∀ f, Person.family_id (root_person tree) = Some f → f ≠ 0 →
       checkFamilyPermission db (User.id u) f PermissionLevel.view = false →
       ∃ fam, fam ∈ families db ∧ Family.id fam = f
              ∧ Family.is_public fam = true)
  ∧ (User.role u = UserRole.admin
     ∨ truthy (Person.family_id (root_person tree)) = None).
Proof.
  unfold getPersonTree. simpl.
  destruct (select_tree_root db personId) as [|[[root name] pub] rest] eqn:Hsel;
    [done|].
  assert (Hroot : (root, name, pub) ∈ select_tree_root db personId)
    by (rewrite Hsel; left).
  apply elem_of_select_tree_root in Hroot as (Hstored & Hid & Hpublic).
  intros ([] & Hcheck & [= <-])%bind_Ok. unfold root_person. simpl.
  assert (Hmem : ∀ p, p ∈ select_family_members db (Person.family_id root)
                      ↔ p ∈ persons db
                        ∧ ∃ f, Person.family_id root = Some f
                               ∧ Person.family_id p = Some f).
  { intros p. unfold select_family_members.
    rewrite elem_of_merge_sort, list_elem_of_filter. split.
    - intros [[[f Hf] Hsame] Hp]. split; [done|]. exists f. by rewrite Hsame.
    - intros [Hp (f & Hf & Hsame)]. split; [|done]. split; [by exists f|].
      by rewrite Hf. }
  split; [done|].
  split.
  { unfold select_family_members.
    pose proof (@birth_order_total _) as Htotal.
    pose proof (@birth_order_trans _) as Htrans.
    apply (StronglySorted_merge_sort _). }
  split; [done|].
  split.
  { intros Hsome. apply Hmem. split; [done|].
    destruct (Person.family_id root) as [f|]; [by exists f | done]. }
  split.
  { intros Hnone. rewrite Hnone.
    unfold select_family_members, select_family_relationships.
    rewrite !filter_none; [done| |].
    - intros [r [p1 p2]] _ [[f Hf] _]. done.
    - intros p _ [[f Hf] _]. done. }
  split.
  { unfold select_family_relationships.
    apply (StronglySorted_fmap fst type_order); [by intros [r1 x] [r2 y]|].
    apply (StronglySorted_merge_sort _). }
  split.
  { intros r. unfold select_family_relationships.
    rewrite list_elem_of_fmap. split.
    - intros ([r' [p1 p2]] & -> & Hin). simpl.
      apply elem_of_merge_sort, list_elem_of_filter in Hin
        as [([f Hf] & Hf1 & Hf2) Hin].
      apply elem_of_edges_with_persons in Hin as (Hr & Hp1 & Hp2 & H1 & H2).
      split; [done|]. exists p1, p2.
      split; [apply Hmem; split; [done|]; exists f; by rewrite Hf1|].
      split; [apply Hmem; split; [done|]; exists f; by rewrite Hf2|].
      done.
    - intros (Hr & p1 & p2 & [Hp1 (f1 & Hr1 & Hf1)]%Hmem
                & [Hp2 (f2 & Hr2 & Hf2)]%Hmem & H1 & H2).
      exists (r, (p1, p2)). split; [done|].
      apply elem_of_merge_sort, list_elem_of_filter. split.
      + split; [by exists f1|]. split; congruence.
      + by apply elem_of_edges_with_persons. }
  unfold check_person_read_access in Hcheck.
  destruct (decide (User.role u ≠ _)) as [Hrole|Hadmin].
  - destruct (truthy (Person.family_id root)) eqn:Hfamily; [done|].
    split; [|by right]. intros _ f Hf Hnz _. rewrite Hf in Hfamily.
    simpl in Hfamily. by rewrite decide_False in Hfamily by done.
  - apply dec_stable in Hadmin. split; [done | by left].
Qed.

End TreeFacts.

Lemma getPersonTree_family_witness :
  ∃ tree,
    getPersonTree family_db (Some admin_user) 3 = Ok tree
    ∧ Person.id <$> familyMembers tree = [3; 1; 2; 4]
    ∧ root_person tree ∈ familyMembers tree.
Proof.
  assert (∃ tree, getPersonTree family_db (Some admin_user) 3 = Ok tree
                  ∧ Person.id <$> familyMembers tree = [3; 1; 2; 4]
                  ∧ Person.family_id (root_person tree) ≠ None)
    as (tree & Htree & Hmembers & Hfamily)
    by (eexists; split; [reflexivity|]; split; [reflexivity|discriminate]).
  exists tree. split; [exact Htree|]. split; [exact Hmembers|].
  by apply (getPersonTree_family family_db admin_user 3 tree Htree).
Defined.

(** ** Listing families *)

Lemma elem_of_families_with_creator db f :
  (∃ c, (f, c) ∈ families_with_creator db) ↔ f ∈ families db.
Proof.
  unfold families_with_creator. split.
  - intros (c & Hin). by apply elem_of_left_join in Hin as [? _].
  - apply left_join_covers.
Qed.

Section FamilyListFacts.
Context `{Collation}.

#[local] Instance name_order_total {A} : Total (@name_order _ A).
Proof. intros x y. unfold name_order. apply (total collate_le). Qed.

#[local] Instance name_order_trans {A} : Transitive (@name_order _ A).
Proof. intros x y z. unfold name_order. apply transitivity. Qed.

(** X19.  What the family list shows.  The rows come sorted by family name,
    each with the number of stored persons of its family.  A global admin
    sees exactly the stored families.  Anybody else sees a family once per
    grant stored on it, with that grant's level, provided the grant is the
    user's own or the family is public: the level shown with a public family
    can be another user's.  A public family on which nobody holds a grant is
    therefore missing from the list, although the same user can read it by
    id. *)
Theorem listFamilies_visible db u rows :
  listFamilies db (Some u) = Ok rows →
  StronglySorted
    (λ x y, collate_le (Family.name (row_family x)) (Family.name (row_family y)))
    rows
  ∧ (∀ row, row ∈ rows → member_count row = count_members db (row_family row))
  ∧ (User.role u = UserRole.admin →
     ∀ f, f ∈ row_family <$> rows ↔ f ∈ families db)
  ∧ (User.role u ≠ UserRole.admin →
     (∀ f level,
        (f, Some level)
          ∈ (λ row, (row_family row, row_permission_level row)) <$> rows
        ↔ f ∈ families db
          ∧ ∃ g, g ∈ user_family_permissions db
                 ∧ UserFamilyPermission.family_id g = Family.id f
                 ∧ UserFamilyPermission.permission_level g = level
                 ∧ (UserFamilyPermission.user_id g = User.id u
                    ∨ Family.is_public f = true))
     ∧ (∀ f rest,
          select_family db (Family.id f) = f :: rest →
          Family.is_public f = true →
          (∀ g, g ∈ user_family_permissions db →
                UserFamilyPermission.family_id g ≠ Family.id f) →
          (f ∉ row_family <$> rows)
          ∧ getFamilyById db (Some u) (Family.id f) = Ok f)).
Proof.
  unfold listFamilies. simpl.
  destruct (decide (User.role u = UserRole.admin)) as [Hadmin|Hother];
    intros [= <-].
  - split.
    { apply (StronglySorted_fmap _ name_order); [by intros [f1 c1] [f2 c2]|].
      apply (StronglySorted_merge_sort _). }
    split.
    { by intros row ([f c] & -> & _)%list_elem_of_fmap. }
    split; [|done]. intros _ f.
    rewrite <- elem_of_families_with_creator, <- list_fmap_compose,
      list_elem_of_fmap.
    split.
    + intros ([f' c] & -> & Hin%elem_of_merge_sort). by exists c.
    + intros (c & Hin). exists (f, c). split; [done|].
      by apply elem_of_merge_sort.
  - assert (Hrow : ∀ f c g,
      (f, (c, g)) ∈ merge_sort name_order
         (filter (λ '(f, (c, g)),
              UserFamilyPermission.user_id g = User.id u
              ∨ Family.is_public f = true)
            ((λ '(f, c, g), (f, (c, g))) <$>
               inner_join (families_with_creator db)
                 (user_family_permissions db)
                 (λ '(f, c, g),
                    Family.id f = UserFamilyPermission.family_id g)))
      ↔ (f, c) ∈ families_with_creator db
        ∧ g ∈ user_family_permissions db
        ∧ Family.id f = UserFamilyPermission.family_id g
        ∧ (UserFamilyPermission.user_id g = User.id u
           ∨ Family.is_public f = true)).
    { intros f c g.
      rewrite elem_of_merge_sort, list_elem_of_filter, list_elem_of_fmap.
      split.
      - intros [Hvis ([[f' c'] g'] & [= -> -> ->] & Hin)].
        apply elem_of_inner_join in Hin as (Hon & Hfc & Hg). done.
      - intros (Hfc & Hg & Hon & Hvis). split; [done|].
        exists (f, c, g). split; [done|]. by apply elem_of_inner_join. }
    split.
    { apply (StronglySorted_fmap _ name_order);
        [by intros [f1 [c1 g1]] [f2 [c2 g2]]|].
      apply (StronglySorted_merge_sort _). }
    split.
    { by intros row ([f [c g]] & -> & _)%list_elem_of_fmap. }
    split; [done|]. intros _. split.
    + intros f level. rewrite <- list_fmap_compose, list_elem_of_fmap.
      rewrite <- elem_of_families_with_creator. split.
      * intros ([f' [c g]] & [= -> ->] & (Hfc & Hg & Hon & Hvis)%Hrow).
        split; [by exists c|]. by exists g.
      * intros [(c & Hfc) (g & Hg & Hon & <- & Hvis)].
        exists (f, (c, g)). split; [done|]. by apply Hrow.
    + intros f rest Hsel Hpub Hnone. split.
      * rewrite <- list_fmap_compose.
        intros ([f' [c g]] & Hf & (Hfc & Hg & Hon & Hvis)%Hrow)%list_elem_of_fmap.
        simpl in Hf. subst f'. by destruct (Hnone g Hg).
      * by rewrite (getFamilyById_access db u _ f rest), Hpub, orb_true_r.
Qed.

End FamilyListFacts.

Lemma listFamilies_visible_witness :
  ∃ rows,
    listFamilies family_db (Some member_user) = Ok rows
    ∧ row_permission_level <$> rows = [Some PermissionLevel.edit]
    ∧ ∀ row, row ∈ rows
             → member_count row = count_members family_db (row_family row).
Proof.
  assert (∃ rows, listFamilies family_db (Some member_user) = Ok rows
                  ∧ row_permission_level <$> rows = [Some PermissionLevel.edit])
    as (rows & Hrows & Hlevels) by (eexists; split; reflexivity).
  exists rows. split; [exact Hrows|]. split; [exact Hlevels|].
  apply (listFamilies_visible family_db member_user rows Hrows).
Defined.

(** ** Updating a person *)

Lemma select_person_head db p :
  persons_pk db → p ∈ persons db →
  ∃ rest, select_person db (Person.id p) = p :: rest.
Proof.
  intros Hpk Hp.
  assert (Hhead : head (select_person db (Person.id p)) = Some p).
  { apply head_all_eq.
    - by apply list_elem_of_filter.
    - intros q [Hid Hq]%list_elem_of_filter. by apply (pk_inj db). }
  destruct (select_person db (Person.id p)) as [|q rest]; [done|].
  injection Hhead as ->. by exists rest.
Qed.

Lemma update_person_ids db personId value db' :
  update_person db personId value = Ok db' →
  Person.id <$> persons db' = Person.id <$> persons db.
Proof.
  unfold update_person. destruct (decide _); [done|]. intros [= <-]. simpl.
  rewrite <- list_fmap_compose. apply list_fmap_ext.
  intros i p _. simpl. by destruct (decide _).
Qed.

Lemma updatePerson_Ok db u personId value db' resp :
  updatePerson db (Some u) personId value = Ok (db', resp) →
  update_person db personId value = Ok db'
  ∧ ¬ no_person_fields value
  ∧ family_stored db (UpdatePersonRequest.family_id value)
  ∧ User.role u = UserRole.admin
  ∧ ∃ p, p ∈ persons db ∧ Person.id p = personId.
Proof.
  unfold updatePerson. simpl.
  destruct (select_person db personId) as [|p l] eqn:Hsel; [done|].
  assert (Hp : p ∈ select_person db personId) by (rewrite Hsel; left).
  apply list_elem_of_filter in Hp as [Hid Hp].
  intros ([] & Hcheck & Hrest)%bind_Ok.
  destruct (decide (no_person_fields value)) as [|Hfields]; [done|].
  apply bind_Ok in Hrest as (db1 & Hupdate & [= <- <-]).
  split; [done|]. split; [done|]. split.
  { unfold update_person in Hupdate. rewrite Hsel in Hupdate.
    destruct (decide (family_stored db (UpdatePersonRequest.family_id value)))
      as [|Hfk]; [done|].
    by rewrite decide_True in Hupdate. }
  split; [|by exists p].
  destruct (decide (User.role u ≠ _)) as [Hrole|Hadmin];
    [|by apply dec_stable in Hadmin].
  by destruct (truthy (Person.family_id p)).
Qed.

Section ViewsIds.
Context `{Collation}.

Lemma ids_deriveChildren db a b :
  b ∈ Person.id <$> deriveChildren db a
  ↔ b ∈ Person.id <$> persons db ∧ parent_edge db a b.
Proof.
  rewrite list_elem_of_fmap, elem_of_ids. split.
  - intros (p & -> & [Hp Hedge]%elem_of_deriveChildren).
    split; [by exists p | done].
  - intros [(p & Hp & <-) Hedge]. exists p. split; [done|].
    by apply elem_of_deriveChildren.
Qed.

Lemma ids_deriveParents db a b :
  b ∈ Person.id <$> deriveParents db a
  ↔ b ∈ Person.id <$> persons db ∧ parent_edge db b a.
Proof.
  rewrite list_elem_of_fmap, elem_of_ids. split.
  - intros (p & -> & [Hp Hedge]%elem_of_deriveParents).
    split; [by exists p | done].
  - intros [(p & Hp & <-) Hedge]. exists p. split; [done|].
    by apply elem_of_deriveParents.
Qed.

Lemma ids_deriveSiblings_stored db a b :
  b ∈ Person.id <$> deriveSiblings db a
  ↔ b ∈ Person.id <$> persons db ∧ b ≠ a
    ∧ ∃ q, parent_edge db q b ∧ parent_edge db q a.
Proof.
  rewrite list_elem_of_fmap, elem_of_ids. split.
  - intros (p & -> & (Hp & Hne & Hq)%elem_of_deriveSiblings).
    split; [by exists p | done].
  - intros [(p & Hp & <-) [Hne Hq]]. exists p. split; [done|].
    by apply elem_of_deriveSiblings.
Qed.

(** Two databases that store the same person ids and the same edges show
    everybody the same parents, children, siblings and spouses, by id. *)
Lemma derived_views_ids db db' :
  Person.id <$> persons db' = Person.id <$> persons db →
  relationships db' = relationships db →
  ∀ a b,
    (b ∈ Person.id <$> deriveParents db' a
     ↔ b ∈ Person.id <$> deriveParents db a)
    ∧ (b ∈ Person.id <$> deriveChildren db' a
       ↔ b ∈ Person.id <$> deriveChildren db a)
    ∧ (b ∈ Person.id <$> deriveSiblings db' a
       ↔ b ∈ Person.id <$> deriveSiblings db a)
    ∧ (b ∈ (λ row, Person.id (spouse row)) <$> deriveSpouses db' a
       ↔ b ∈ (λ row, Person.id (spouse row)) <$> deriveSpouses db a).
Proof.
  intros Hids Hrel a b.
  assert (Hedge : ∀ q c, parent_edge db' q c ↔ parent_edge db q c).
  { intros q c. unfold parent_edge. by rewrite Hrel. }
  split; [|split; [|split]].
  - by rewrite !ids_deriveParents, Hids, Hedge.
  - by rewrite !ids_deriveChildren, Hids, Hedge.
  - rewrite !ids_deriveSiblings_stored, Hids. by setoid_rewrite Hedge.
  - by rewrite !ids_deriveSpouses, Hids, Hrel.
Qed.

(** X20.  An update of a person never touches the graph.  After a
    successful update the same person ids are stored, every person with
    another id is stored unchanged, and edges, families, users and grants are
    as before; the primary key and the foreign keys of the edge table still
    hold, and everybody has the same parents, children, siblings and spouses
    by id.  A family named in the body is a stored one, and the updated
    person now belongs to it.  Whoever updated without being a global admin
    holds an [edit] grant on the family the person belonged to before. *)
Theorem updatePerson_keeps_graph db u personId value db' resp :
  updatePerson db (Some u) personId value = Ok (db', resp) →
  Person.id <$> persons db' = Person.id <$> persons db
  ∧ (users db' = users db ∧ families db' = families db
     ∧ relationships db' = relationships db
     ∧ user_family_permissions db' = user_family_permissions db)
  ∧ (∀ q, Person.id q ≠ personId → q ∈ persons db' ↔ q ∈ persons db)
  ∧ (∀ f, UpdatePersonRequest.family_id value = Some f →
       f ∈ Family.id <$> families db
       ∧ ∀ p', p' ∈ persons db' → Person.id p' = personId →
               Person.family_id p' = Some f)
  ∧ (persons_pk db → persons_pk db')
  ∧ (relationships_fk db → relationships_fk db')
  ∧ (∀ a b,
       (b ∈ Person.id <$> deriveParents db' a
        ↔ b ∈ Person.id <$> deriveParents db a)
       ∧ (b ∈ Person.id <$> deriveChildren db' a
          ↔ b ∈ Person.id <$> deriveChildren db a)
       ∧ (b ∈ Person.id <$> deriveSiblings db' a
          ↔ b ∈ Person.id <$> deriveSiblings db a)
       ∧ (b ∈ (λ row, Person.id (spouse row)) <$> deriveSpouses db' a
          ↔ b ∈ (λ row, Person.id (spouse row)) <$> deriveSpouses db a))
  ∧ (User.role u ≠ UserRole.admin →
     ∃ p f, p ∈ persons db ∧ Person.id p = personId
            ∧ truthy (Person.family_id p) = Some f
            ∧ checkFamilyPermission db (User.id u) f PermissionLevel.edit
              = true).
Proof.
  intros (Hupdate & _ & Hstored & Hadmin & p0 & Hp0 & Hid0)%updatePerson_Ok.
  pose proof (update_person_ids _ _ _ _ Hupdate) as Hids.
  unfold update_person in Hupdate. destruct (decide _); [done|].
  injection Hupdate as <-.
  split; [done|]. split; [done|].
  split.
  { intros q Hq. simpl. rewrite list_elem_of_fmap. split.
    - intros (q0 & -> & Hq0). destruct (decide (Person.id q0 = personId));
        [by destruct Hq | done].
    - intros Hin. exists q. by rewrite decide_False. }
  split.
  { intros f Hf. rewrite Hf in Hstored. split; [done|].
    simpl. intros p' (q & -> & Hq)%list_elem_of_fmap.
    destruct (decide (Person.id q = personId)); [|done].
    intros _. simpl. by rewrite Hf. }
  split; [unfold persons_pk; by rewrite Hids|].
  split; [unfold relationships_fk; by rewrite Hids|].
  split; [by apply derived_views_ids|].
  intros Hrole. by destruct Hrole.
Qed.

End ViewsIds.

Lemma updatePerson_keeps_graph_witness :
  ∃ db',
    updatePerson two_families_db (Some admin_user) 4 move_to_family_2
    = Ok (db', Some (person 4 "Dita" "Zhupani" Gender.female (Some 17000)
                       (Some 2), Some "Krasniqi Family"))
    ∧ relationships db' = relationships two_families_db
    ∧ Person.id <$> persons db' = [1; 2; 3; 4; 5].
Proof.
  assert (∃ db', updatePerson two_families_db (Some admin_user) 4
                   move_to_family_2
                 = Ok (db', Some (person 4 "Dita" "Zhupani" Gender.female
                                    (Some 17000) (Some 2),
                                  Some "Krasniqi Family")))
    as (db' & Hupdated) by (eexists; reflexivity).
  exists db'. split; [exact Hupdated|].
  destruct (updatePerson_keeps_graph two_families_db admin_user 4
              move_to_family_2 db' _ Hupdated) as (Hids & (_ & _ & Hrel & _) & _).
  split; [exact Hrel|]. rewrite Hids. reflexivity.
Defined.

(** X21.  Only a global admin can change or remove a person.  A successful
    update or delete of a person was made by a global admin.  With the
    primary key on persons, for anybody else and any stored person the two
    routes never get to a decision on the grants: a person without family is
    refused with "Cannot update person without family association" or
    "Cannot delete person without family association", and for a person of
    a family the routes throw the [TypeError] of calling the helper which
    [families.ts] does not export, whatever grant the user holds on that
    family. *)
Theorem updatePerson_admin_only db u :
  (∀ personId value db' resp,
     updatePerson db (Some u) personId value = Ok (db', resp) →
     User.role u = UserRole.admin)
  ∧ (∀ personId db' message,
       deletePerson db (Some u) personId = Ok (db', message) →
       User.role u = UserRole.admin)
  ∧ (persons_pk db → User.role u ≠ UserRole.admin →
     ∀ p, p ∈ persons db →
       (∀ value,
          updatePerson db (Some u) (Person.id p) value
          = match truthy (Person.family_id p) with
            | Some _ => Throw TypeError
            | None =>
                Throw (createForbiddenError
                         "Cannot update person without family association")
            end)
       ∧ deletePerson db (Some u) (Person.id p)
         = match truthy (Person.family_id p) with
           | Some _ => Throw TypeError
           | None =>
               Throw (createForbiddenError
                        "Cannot delete person without family association")
           end).
Proof.
  split; [|split].
  - by intros personId value db' resp (_ & _ & _ & Hadmin & _)%updatePerson_Ok.
  - by intros personId db' message (_ & _ & Hadmin & _)%deletePerson_Ok.
  - intros Hpk Hrole p Hp.
    destruct (select_person_head db p Hpk Hp) as [rest Hsel].
    split.
    + intros value. unfold updatePerson. simpl. rewrite Hsel.
      rewrite (decide_True (P := User.role u ≠ UserRole.admin)) by done.
      by destruct (truthy (Person.family_id p)).
    + unfold deletePerson. simpl. rewrite Hsel.
      rewrite (decide_True (P := User.role u ≠ UserRole.admin)) by done.
      by destruct (truthy (Person.family_id p)).
Qed.

Lemma updatePerson_admin_only_witness :
  checkFamilyPermission two_families_db (User.id editor_user) 1
    PermissionLevel.edit = true
  ∧ updatePerson two_families_db (Some editor_user) 4 move_to_family_2
    = Throw TypeError
  ∧ deletePerson two_families_db (Some editor_user) 5
    = Throw (createForbiddenError
               "Cannot delete person without family association").
Proof.
  destruct (updatePerson_admin_only two_families_db editor_user)
    as (_ & _ & Hrefused).
  split; [reflexivity|]. split.
  - apply (Hrefused family_db_pk ltac:(discriminate)
             (person 4 "Dita" "Zhupani" Gender.female (Some 17000) (Some 1))).
    by apply (bool_decide_unpack _).
  - apply (Hrefused family_db_pk ltac:(discriminate)
             (person 5 "Edi" "Krasniqi" Gender.male (Some 16500) None)).
    by apply (bool_decide_unpack _).
Defined.

(** ** Creating a family *)

Lemma select_family_row_new db f familyId :
  f ∈ families db → Family.id f = familyId →
  (∀ f', f' ∈ families db → Family.id f' = familyId → f' = f) →
  ∃ c, nth0 (select_family_row db familyId)
       = Some (f, User.first_name <$> c, User.last_name <$> c).
Proof.
  intros Hf Hid Honly. unfold nth0, select_family_row.
  destruct (filter _ (families_with_creator db)) as [|[f' c] rows] eqn:Hrows.
  - apply elem_of_families_with_creator in Hf as [c Hc].
    by destruct (filter_nil_not_elem_of _ _ (f, c) Hrows).
  - assert (Hin : (f', c) ∈ filter (λ '(f, c), Family.id f = familyId)
                              (families_with_creator db))
      by (rewrite Hrows; left).
    apply list_elem_of_filter in Hin as [Hid' Hin].
    assert (f' ∈ families db) as Hf'
      by (apply elem_of_families_with_creator; by exists c).
    exists c. simpl. by rewrite (Honly f' Hf' Hid').
Qed.

Section FamilyCreationFacts.
Context `{Collation}.

Lemma collate_eq_refl s : collate_eq s s.
Proof. by destruct (total collate_le s s); split. Qed.

Lemma createFamily_Next tb u value tb' resp :
  createFamily tb (Some u) value = Next (Ok (tb', resp)) →
  User.role u ≠ UserRole.visitor
  ∧ select_family_by_name (tables_db tb) (CreateFamilyRequest.name value) = []
  ∧ ∃ tb1 st2,
      insert_family tb (CreateFamilyRequest.name value)
        (CreateFamilyRequest.description value)
        (CreateFamilyRequest.is_public value) (User.id u)
      = Ok (tb1, families_auto_increment tb)
      ∧ insert_permission (tables_store tb1) (User.id u)
          (families_auto_increment tb) PermissionLevel.admin = Ok st2
      ∧ tb' = mkTables st2 (families_auto_increment tb1)
      ∧ resp = nth0 (select_family_row (store_db st2)
                       (families_auto_increment tb)).
Proof.
  unfold createFamily, familyMemberMiddleware.
  destruct (decide (User.role u = UserRole.visitor)) as [|Hrole]; [done|].
  intros [= Hhandler]. split; [done|].
  destruct (decide (0 < length _)%nat) as [|Hnone]; [done|].
  split; [destruct (select_family_by_name _ _); [done | simpl in Hnone; lia]|].
  apply bind_Ok in Hhandler as ([tb1 insertId] & Hfam & Hrest).
  apply bind_Ok in Hrest as (st2 & Hperm & [= <- <-]).
  assert (insertId = families_auto_increment tb) as ->.
  { unfold insert_family in Hfam. destruct (decide _); [|done].
    by injection Hfam as _ <-. }
  by exists tb1, st2.
Qed.

(** X22.  Whoever creates a family becomes its admin, and nobody else gets
    anything.  With every stored family id below the counter and every grant
    pointing at a stored family, a successful create was made by a user who
    is not a visitor, under a name that no stored family had (up to the
    collation); it appends the family under the counter's id with the user as
    creator and answers with that family; afterwards the creator passes the
    resolver at every level and the admin check of the family routes, no
    other user holds a grant on the new family, every other family is
    resolved as before, persons and edges are untouched, both invariants
    still hold, and creating a family of an equal name again is refused. *)
Theorem createFamily_creator_admin tb u value tb' resp :
  families_id_fresh tb → permissions_fk (tables_db tb) →
  createFamily tb (Some u) value = Next (Ok (tb', resp)) →
  User.role u ≠ UserRole.visitor
  ∧ select_family_by_name (tables_db tb) (CreateFamilyRequest.name value) = []
  ∧ families (tables_db tb')
    = (families (tables_db tb) ++
         [Family.mk (families_auto_increment tb)
            (CreateFamilyRequest.name value)
            (CreateFamilyRequest.description value)
            (CreateFamilyRequest.is_public value) (Some (User.id u))])%list
  ∧ (∃ c, resp = Some (Family.mk (families_auto_increment tb)
                         (CreateFamilyRequest.name value)
                         (CreateFamilyRequest.description value)
                         (CreateFamilyRequest.is_public value)
                         (Some (User.id u)),
                       User.first_name <$> c, User.last_name <$> c))
  ∧ (∀ required,
       checkFamilyPermission (tables_db tb') (User.id u)
         (families_auto_increment tb) required = true)
  ∧ (∀ message,
       require_family_admin (tables_db tb') u (families_auto_increment tb)
         message = Ok ())
  ∧ (∀ userId required, userId ≠ User.id u →
       checkFamilyPermission (tables_db tb') userId
         (families_auto_increment tb) required = false)
  ∧ (∀ userId familyId required, familyId ≠ families_auto_increment tb →
       checkFamilyPermission (tables_db tb') userId familyId required
       = checkFamilyPermission (tables_db tb) userId familyId required)
  ∧ (persons (tables_db tb') = persons (tables_db tb)
     ∧ relationships (tables_db tb') = relationships (tables_db tb)
     ∧ users (tables_db tb') = users (tables_db tb))
  ∧ families_id_fresh tb'
  ∧ permissions_fk (tables_db tb')
  ∧ (∀ value',
       collate_eq (CreateFamilyRequest.name value')
         (CreateFamilyRequest.name value) →
       createFamily tb' (Some u) value'
       = Next (Throw (createValidationError "name"
                        "Family with this name already exists"))).
Proof.
  intros Hfresh Hfk (Hrole & Hfree & tb1 & st2 & Hfam & Hperm & -> & ->)%createFamily_Next.
  unfold insert_family in Hfam.
  destruct (decide (User.id u ∈ _)) as [Hu|]; [|done].
  injection Hfam as <-.
  apply insert_permission_Ok in Hperm as [Hnew ->]. simpl in Hnew.
  unfold families_id_fresh in Hfresh. unfold permissions_fk in Hfk.
  rewrite Forall_forall in Hfresh. rewrite Forall_forall in Hfk.
  unfold tables_db in *. simpl.
  set (db := store_db (tables_store tb)) in *.
  set (n := families_auto_increment tb) in *.
  assert (Hold : ∀ g, g ∈ user_family_permissions db →
                      UserFamilyPermission.family_id g ≠ n).
  { intros g Hg Heq. apply Hfk in Hg as (f & Hid & Hf)%list_elem_of_fmap.
    apply Hfresh in Hf. lia. }
  assert (Hsel : ∀ userId,
    select_permission_level
      (mkDB (users db)
         (families db ++
            [Family.mk n (CreateFamilyRequest.name value)
               (CreateFamilyRequest.description value)
               (CreateFamilyRequest.is_public value) (Some (User.id u))])
         (persons db) (relationships db) (relationships_auto_increment db)
         (user_family_permissions db ++
            [UserFamilyPermission.mk
               (user_family_permissions_auto_increment (tables_store tb))
               (User.id u) n PermissionLevel.admin])) userId n
    = if decide (userId = User.id u) then [PermissionLevel.admin] else []).
  { intros userId. unfold select_permission_level. simpl.
    rewrite filter_app, fmap_app, filter_none; [|intros g Hg [_ Hn]; by apply (Hold g)].
    rewrite filter_cons, filter_nil. simpl.
    destruct (decide (userId = User.id u)) as [->|Hne].
    - by rewrite decide_True.
    - rewrite decide_False; [done|]. intros [Heq _]. by destruct Hne. }
  assert (Hadmin : ∀ required,
    checkFamilyPermission
      (mkDB (users db)
         (families db ++
            [Family.mk n (CreateFamilyRequest.name value)
               (CreateFamilyRequest.description value)
               (CreateFamilyRequest.is_public value) (Some (User.id u))])
         (persons db) (relationships db) (relationships_auto_increment db)
         (user_family_permissions db ++
            [UserFamilyPermission.mk
               (user_family_permissions_auto_increment (tables_store tb))
               (User.id u) n PermissionLevel.admin])) (User.id u) n required
    = true).
  { intros required. unfold checkFamilyPermission.
    rewrite Hsel, decide_True by done. by destruct required. }
  split; [done|]. split; [done|]. split; [done|].
  split.
  { apply select_family_row_new.
    - simpl. apply elem_of_app. right. left.
    - done.
    - simpl. intros f' [Hf'|Hf']%elem_of_app Hid.
      + apply Hfresh in Hf'. lia.
      + by apply list_elem_of_singleton in Hf'. }
  split; [done|].
  split.
  { intros message. apply require_family_admin_hasPermission.
    unfold hasPermission. destruct (decide _); [done|]. apply Hadmin. }
  split.
  { intros userId required Hne. unfold checkFamilyPermission.
    by rewrite Hsel, decide_False. }
  split.
  { intros userId familyId required Hne.
    unfold checkFamilyPermission, select_permission_level. simpl.
    rewrite filter_app, filter_cons, filter_nil. simpl.
    rewrite decide_False; [by rewrite app_nil_r|].
    intros [_ Heq]. by destruct Hne. }
  split; [done|].
  split.
  { unfold families_id_fresh, tables_db. simpl. rewrite Forall_forall.
    intros f [Hf|Hf]%elem_of_app.
    - apply Hfresh in Hf. lia.
    - apply list_elem_of_singleton in Hf as ->. simpl. lia. }
  split.
  { unfold permissions_fk. simpl. rewrite Forall_forall.
    intros g [Hg|Hg]%elem_of_app; rewrite fmap_app, elem_of_app.
    - left. by apply Hfk.
    - right. apply list_elem_of_singleton in Hg as ->. simpl. left. }
  intros value' Heq. unfold createFamily, familyMemberMiddleware.
  rewrite decide_False by done. f_equal.
  rewrite decide_True; [done|].
  unfold select_family_by_name, tables_db. simpl.
  rewrite filter_app, fmap_app, length_app, filter_cons, filter_nil. simpl.
  rewrite decide_True; [simpl; lia|].
  destruct Heq. by split.
Qed.

End FamilyCreationFacts.

Lemma createFamily_creator_admin_witness :
  ∃ tb' resp,
    createFamily family_tables (Some member_user)
      (CreateFamilyRequest.mk "Krasniqi Family" None false)
    = Next (Ok (tb', resp))
    ∧ ∀ message, require_family_admin (tables_db tb') member_user 2 message
                 = Ok ().
Proof.
  assert (∃ tb' resp,
            createFamily family_tables (Some member_user)
              (CreateFamilyRequest.mk "Krasniqi Family" None false)
            = Next (Ok (tb', resp)))
    as (tb' & resp & Hcreated) by (do 2 eexists; reflexivity).
  exists tb', resp. split; [exact Hcreated|].
  apply (createFamily_creator_admin family_tables member_user
           (CreateFamilyRequest.mk "Krasniqi Family" None false) tb' resp);
    [| | exact Hcreated].
  - apply (bool_decide_unpack _). vm_compute. exact I.
  - apply (bool_decide_unpack _). vm_compute. exact I.
Defined.
